(** * LM_BOX_5: camera-controlled arcade mini-games

    A shallow embedding of the game logic of [src/gui/gui.py] (Balloons and
    Pong, the generation of the waves, the camera set-up),
    [src/gui/dino_game.py] (the runner and its pose detector),
    [src/models/mediapipe_hand_tracking.py] (the hand-position provider),
    [src/models/cvzone_hand_detection.py] (the finger detection) and
    [src/gui/utils.py] (the random helpers), together with the properties the
    specification states about them and further properties of the code.

    Python [int] is [Z].  Python [float] is IEEE binary64; every definition
    that computes with floats is written once, over the interface [PyFloat],
    and read at two instances: [Binary64] (Rocq's primitive floats, the
    arithmetic the interpreter really performs) and [Exact] (rationals, the
    same expressions without rounding).  Randomness, the clock, the camera and
    the detector are inputs of the step functions. *)

From Stdlib Require Import ZArith QArith Qround Lia Lqa Bool List String.
From Stdlib Require Import Floats.
From Stdlib Require Import Permutation Sorted.
Import ListNotations.

Local Open Scope Z_scope.

(** ** Python numbers *)

Class PyFloat (F : Type) : Type := {
  of_int : Z -> F;            (* float(n), the implicit int -> float conversion *)
  fadd : F -> F -> F;         (* a + b *)
  fsub : F -> F -> F;         (* a - b *)
  fmul : F -> F -> F;         (* a * b *)
  fdiv : F -> F -> F;         (* a / b, b <> 0 *)
  fltb : F -> F -> bool;      (* a < b *)
  trunc : F -> Z              (* int(a): rounds toward zero *)
}.

(** A float assigned to a coordinate of a [pygame.Rect] is converted to a C
    int by pygame, and the conversion is not the same in every release: the C
    cast, which rounds toward zero, in the older ones, rounding to the nearest
    integer in the newer ones.  The engines that store floats in a Rect are
    written over the conversion. *)
Class RectStore (F : Type) : Type := {
  to_rect : F -> Z            (* the int a Rect keeps of a float coordinate *)
}.

Inductive Conversion : Type :=
| Truncate                    (* (int)x *)
| RoundHalfAway               (* round(x): a tie goes away from zero *)
| RoundHalfEven.              (* rint(x): a tie goes to the even integer *)

(** A decimal literal [n/d] such as [0.6]: the nearest value to the quotient,
    which is what a correctly rounded division of two exact operands gives. *)
Definition dec {F} `{PyFloat F} (n d : Z) : F := fdiv (of_int n) (of_int d).

(** [int + float], [int * float], [int / int] and [float < int] as Python
    evaluates them. *)
Definition int_add_float {F} `{PyFloat F} (n : Z) (x : F) : F := fadd (of_int n) x.
Definition int_mul_float {F} `{PyFloat F} (n : Z) (x : F) : F := fmul (of_int n) x.
Definition int_sub_float {F} `{PyFloat F} (n : Z) (x : F) : F := fsub (of_int n) x.
Definition float_lt_int {F} `{PyFloat F} (x : F) (n : Z) : bool := fltb x (of_int n).
Definition float_gt_int {F} `{PyFloat F} (x : F) (n : Z) : bool := fltb (of_int n) x.

(** [a / b] on two ints raises ZeroDivisionError when [b = 0]. *)
Definition truediv {F} `{PyFloat F} (a b : Z) : option F :=
  if b =? 0 then None else Some (fdiv (of_int a) (of_int b)).

(** The arithmetic without rounding. *)
Definition Qtrunc (q : Q) : Z := Z.quot (Qnum q) (Zpos (Qden q)).

#[export] Instance Exact : PyFloat Q := {|
  of_int := inject_Z;
  fadd := Qplus;
  fsub := Qminus;
  fmul := Qmult;
  fdiv := Qdiv;
  fltb := fun a b => negb (Qle_bool b a);
  trunc := Qtrunc
|}.

(** The three conversions on a rational [n/d]. *)
Definition Qround_away (q : Q) : Z :=
  Z.sgn (Qnum q) * ((2 * Z.abs (Qnum q) + Zpos (Qden q)) / (2 * Zpos (Qden q))).

Definition Qround_even (q : Q) : Z :=
  let n := 2 * Qnum q + Zpos (Qden q) in
  let d := 2 * Zpos (Qden q) in
  if (n mod d =? 0) && Z.odd (n / d) then n / d - 1 else n / d.

Definition Qstore (c : Conversion) : RectStore Q := {|
  to_rect := match c with
             | Truncate => Qtrunc
             | RoundHalfAway => Qround_away
             | RoundHalfEven => Qround_even
             end
|}.

(** IEEE binary64.  [of_int] rounds to nearest even as CPython does; [trunc]
    reads the value off the mantissa and exponent.  On a NaN or an infinity
    Python's [int()] raises; the model gives 0 there and is meant for the
    finite values, the only ones finite operands of this program produce. *)
Definition float_of_Z (n : Z) : float :=
  SF2Prim (binary_normalize prec emax n 0 false).

Definition float_trunc (x : float) : Z :=
  match Prim2SF x with
  | S754_finite s m e =>
      let a := if 0 <=? e then Z.shiftl (Zpos m) e else Z.shiftr (Zpos m) (- e) in
      if s then - a else a
  | _ => 0
  end.

#[export] Instance Binary64 : PyFloat float := {|
  of_int := float_of_Z;
  fadd := PrimFloat.add;
  fsub := PrimFloat.sub;
  fmul := PrimFloat.mul;
  fdiv := PrimFloat.div;
  fltb := PrimFloat.ltb;
  trunc := float_trunc
|}.

(** Rounding to the nearest integer: the integer part [q] of the magnitude,
    and one more when the bits cut off are more than a half, or exactly a half
    and the tie goes up. *)
Definition float_round (even : bool) (x : float) : Z :=
  match Prim2SF x with
  | S754_finite s m e =>
      let a :=
        if 0 <=? e then Z.shiftl (Zpos m) e
        else
          let q := Z.shiftr (Zpos m) (- e) in
          let r := Zpos m - Z.shiftl q (- e) in
          let half := Z.shiftl 1 (- e - 1) in
          if r <? half then q
          else if half <? r then q + 1
          else if even && Z.even q then q else q + 1 in
      if s then - a else a
  | _ => 0
  end.

Definition float_store (c : Conversion) : RectStore float := {|
  to_rect := match c with
             | Truncate => float_trunc
             | RoundHalfAway => float_round false
             | RoundHalfEven => float_round true
             end
|}.

(** ** pygame.Rect and random *)

Module Py.

Record Rect : Type := mkRect { rx : Z; ry : Z; rw : Z; rh : Z }.

Definition top (r : Rect) : Z := ry r.
Definition left (r : Rect) : Z := rx r.
Definition right (r : Rect) : Z := rx r + rw r.
Definition bottom (r : Rect) : Z := ry r + rh r.
Definition height (r : Rect) : Z := rh r.
Definition width (r : Rect) : Z := rw r.
(* pygame computes the centre with C integer division *)
Definition centerx (r : Rect) : Z := rx r + Z.quot (rw r) 2.
Definition centery (r : Rect) : Z := ry r + Z.quot (rh r) 2.

Definition move_ip (r : Rect) (dx dy : Z) : Rect :=
  mkRect (rx r + dx) (ry r + dy) (rw r) (rh r).

(** [Rect.colliderect]: empty rectangles collide with nothing; the edges are
    normalised so that a negative size is read from its other end. *)
Definition colliderect (a b : Rect) : bool :=
  if (rw a =? 0) || (rh a =? 0) || (rw b =? 0) || (rh b =? 0) then false
  else (Z.min (rx a) (rx a + rw a) <? Z.max (rx b) (rx b + rw b))
    && (Z.min (ry a) (ry a + rh a) <? Z.max (ry b) (ry b + rh b))
    && (Z.min (rx b) (rx b + rw b) <? Z.max (rx a) (rx a + rw a))
    && (Z.min (ry b) (ry b + rh b) <? Z.max (ry a) (ry a + rh a)).

(** [random.choice(l)]: the draw is an input; any natural number selects an
    element of a non-empty list. *)
Definition choice {A} (default : A) (l : list A) (draw : nat) : A :=
  nth (draw mod (List.length l)) l default.

End Py.

(** ** Coordinate mapper (gui.py, init_balloons_game and start_balloons_game) *)

Module Mapper.

Section Transform.
Context {F : Type} `{PyFloat F}.

Record CamTransform : Type := mkCamTransform {
  scale_x_cam : F;
  scale_y_cam : F;
  translation_x_cam : Z;
  translation_y_cam : Z
}.

(** [scale_x_cam = user_screen_width / bg.shape[1]],
    [translation_x_cam = int(start_x_cam * scale_x_cam)], and the same in y. *)
Definition init_cam_transform
  (user_screen_width user_screen_height bg_width bg_height start_x_cam start_y_cam : Z)
  : option CamTransform :=
  match truediv user_screen_width bg_width, truediv user_screen_height bg_height with
  | Some sx, Some sy =>
      Some (mkCamTransform sx sy
              (trunc (int_mul_float start_x_cam sx))
              (trunc (int_mul_float start_y_cam sy)))
  | _, _ => None
  end.

(** The loop over [fingers_centers_*]: a finger that is not extended is the
    marker [(-1, -1)] and is skipped; any other point is scaled, truncated and
    translated. *)
Definition map_point (T : CamTransform) (finger_center : Z * Z) : Z * Z :=
  (trunc (int_mul_float (fst finger_center) (scale_x_cam T)) + translation_x_cam T,
   trunc (int_mul_float (snd finger_center) (scale_y_cam T)) + translation_y_cam T).

Definition is_marker (finger_center : Z * Z) : bool :=
  (fst finger_center =? -1) && (snd finger_center =? -1).

Fixpoint fingers_rects (T : CamTransform) (fingers_centers : list (Z * Z)) : list Py.Rect :=
  match fingers_centers with
  | [] => []
  | c :: rest =>
      if is_marker c then fingers_rects T rest
      else let p := map_point T c in
           Py.mkRect (fst p) (snd p) 20 20 :: fingers_rects T rest
  end.

(** The same transform between an arbitrary source rectangle at the origin of
    detector space, of size [source_w] x [source_h], and a destination
    rectangle: scale by dest.size / source.size, translate by dest's origin. *)
Definition transform_between (source_w source_h : Z) (dest : Py.Rect)
  : option CamTransform :=
  match truediv (Py.width dest) source_w, truediv (Py.height dest) source_h with
  | Some sx, Some sy => Some (mkCamTransform sx sy (Py.left dest) (Py.top dest))
  | _, _ => None
  end.

(** The four corners of the source land on the four corners of [dest]. *)
Definition corners_onto_corners (source_w source_h : Z) (dest : Py.Rect) : Prop :=
  exists T, transform_between source_w source_h dest = Some T /\
    map_point T (0, 0) = (Py.left dest, Py.top dest) /\
    map_point T (source_w, 0) = (Py.right dest, Py.top dest) /\
    map_point T (0, source_h) = (Py.left dest, Py.bottom dest) /\
    map_point T (source_w, source_h) = (Py.right dest, Py.bottom dest).

(** Only the first corner. *)
Definition origin_onto_origin (source_w source_h : Z) (dest : Py.Rect) : Prop :=
  exists T, transform_between source_w source_h dest = Some T /\
    map_point T (0, 0) = (Py.left dest, Py.top dest).

(** The corner property for every pair of rectangles of positive size. *)
Definition corner_property : Prop :=
  forall (source_w source_h : Z) (dest : Py.Rect),
    0 < source_w -> 0 < source_h -> 0 < Py.width dest -> 0 < Py.height dest ->
    corners_onto_corners source_w source_h dest.

End Transform.

Arguments CamTransform F : clear implicits.
Arguments corner_property F {_}.

End Mapper.

(** ** Balloon engine (gui.py, init_balloons_game .. end_balloons_game) *)

Module Balloons.

(** One spawn record of [init_balloons]; the image is drawing only. *)
Record Balloon : Type := mkBalloon {
  rect : Py.Rect;
  speed : Z;
  time : Z;
  is_combo : bool;
  type : Z;
  is_popped : bool
}.

Definition set_popped (b : Balloon) : Balloon :=
  mkBalloon (rect b) (speed b) (time b) (is_combo b) (type b) true.

Definition set_rect (b : Balloon) (r : Py.Rect) : Balloon :=
  mkBalloon r (speed b) (time b) (is_combo b) (type b) (is_popped b).

(** [balloon_type = 0 if not is_combo else int(path.split(".")[-2][-1])] for
    the paths [balloon-combo-1.png] .. [balloon-combo-3.png], chosen by
    [random.choice]; [draw] is that choice. *)
Definition combo_tiers : list Z := [1; 2; 3].

Definition balloon_type (is_combo : bool) (draw : nat) : Z :=
  if is_combo then Py.choice 1 combo_tiers draw else 0.

(** A spawn record as [init_balloons] appends it. *)
Definition new_balloon (r : Py.Rect) (speed time : Z) (is_combo : bool) (draw : nat)
  : Balloon :=
  mkBalloon r speed time is_combo (balloon_type is_combo draw) false.

Record Game : Type := mkGame {
  balloons_score : Z;
  balloons_wave : Z;
  waves_balloons : list (list Balloon);
  start_y_cam : Z;
  max_wave_time : Z;
  max_balloons_waves : Z
}.

(** [init_balloons_game]: score 0, wave 1, five waves of twenty seconds. *)
Definition init_balloons_game (start_y_cam : Z) (waves : list (list Balloon)) : Game :=
  mkGame 0 1 waves start_y_cam 20 5.

(** [balloons.sort(key=lambda x: x["time"])]: a stable sort, in place. *)
Fixpoint insert_by_time (b : Balloon) (l : list Balloon) : list Balloon :=
  match l with
  | [] => [b]
  | c :: r => if time b <=? time c then b :: c :: r else c :: insert_by_time b r
  end.

Fixpoint sort_by_time (l : list Balloon) : list Balloon :=
  match l with
  | [] => []
  | b :: r => insert_by_time b (sort_by_time r)
  end.

(** [for finger_rect in fingers_centers_rects]: the first rectangle that
    collides pops the balloon and ends the loop. *)
Fixpoint finger_loop (balloon : Balloon) (score : Z) (fingers_centers_rects : list Py.Rect)
  : Balloon * Z :=
  match fingers_centers_rects with
  | [] => (balloon, score)
  | finger_rect :: rest =>
      if Py.colliderect (rect balloon) finger_rect then
        (set_popped balloon,
         if type balloon =? 1 then Z.max 0 (score + 2)
         else if type balloon =? 2 then Z.max 0 (score + 3)
         else if type balloon =? 3 then Z.max 0 (score + 5)
         else Z.max 0 (score + 1))
      else finger_loop balloon score rest
  end.

Inductive Flow : Type := Next | Break.

(** The body of [for balloon in balloons]. *)
Definition loop_body (start_y_cam elapsed_time : Z) (fingers_centers_rects : list Py.Rect)
  (balloon : Balloon) (score : Z) : Balloon * Z * Flow :=
  if elapsed_time <? time balloon then (balloon, score, Next)
  else if is_popped balloon then (balloon, score, Next)
  else if Py.top (rect balloon) <=? start_y_cam + Py.height (rect balloon) then
    (set_popped balloon,
     if negb (is_combo balloon) then Z.max 0 (score - 1) else score,
     Break)
  else
    let moved := set_rect balloon (Py.move_ip (rect balloon) 0 (- speed balloon)) in
    let '(b, s) := finger_loop moved score fingers_centers_rects in
    (b, s, Next).

Fixpoint balloons_loop (start_y_cam elapsed_time : Z) (fingers_centers_rects : list Py.Rect)
  (balloons : list Balloon) (score : Z) : list Balloon * Z :=
  match balloons with
  | [] => ([], score)
  | balloon :: rest =>
      match loop_body start_y_cam elapsed_time fingers_centers_rects balloon score with
      | (b, s, Break) => (b :: rest, s)
      | (b, s, Next) =>
          let '(rest', s') :=
            balloons_loop start_y_cam elapsed_time fingers_centers_rects rest s in
          (b :: rest', s')
      end
  end.

(** [l[i]] and [l[i] = v] with Python's negative indices; [None] is IndexError. *)
Definition index {A} (l : list A) (i : Z) : option A :=
  let n := Z.of_nat (List.length l) in
  if (0 <=? i) && (i <? n) then nth_error l (Z.to_nat i)
  else if (- n <=? i) && (i <? 0) then nth_error l (Z.to_nat (n + i))
  else None.

Fixpoint replace_nth {A} (l : list A) (n : nat) (v : A) : list A :=
  match l, n with
  | [], _ => []
  | _ :: r, O => v :: r
  | a :: r, S k => a :: replace_nth r k v
  end.

Definition store {A} (l : list A) (i : Z) (v : A) : list A :=
  let n := Z.of_nat (List.length l) in
  if 0 <=? i then replace_nth l (Z.to_nat i) v else replace_nth l (Z.to_nat (n + i)) v.

Inductive Screen : Type :=
| Playing          (* start_balloons_game keeps looping *)
| Countdown        (* start_balloons_game_timer of the next wave *)
| GameOver.        (* end_balloons_game *)

(** [start_balloons_game_timer] opens with the test for the final wave. *)
Definition start_balloons_game_timer (g : Game) : Screen :=
  if balloons_wave g >? max_balloons_waves g then GameOver else Countdown.

(** [end_balloons_game] clamps the score once more before showing it. *)
Definition end_balloons_game (g : Game) : Game :=
  mkGame (Z.max 0 (balloons_score g)) (balloons_wave g) (waves_balloons g)
    (start_y_cam g) (max_wave_time g) (max_balloons_waves g).

(** One pass of the [while True] of [start_balloons_game], from the list of
    finger rectangles on: the wave's list is sorted in place, every balloon is
    visited, then the wave is closed when the list is empty or the time is up.
    [elapsed_time] is [int(time.time() - start_time)]. *)
Definition tick (g : Game) (elapsed_time : Z) (fingers_centers_rects : list Py.Rect)
  : option (Game * Screen) :=
  match index (waves_balloons g) (balloons_wave g - 1) with
  | None => None
  | Some wave =>
      let balloons := sort_by_time wave in
      let '(balloons', score') :=
        balloons_loop (start_y_cam g) elapsed_time fingers_centers_rects balloons
          (balloons_score g) in
      let waves' := store (waves_balloons g) (balloons_wave g - 1) balloons' in
      if (Z.of_nat (List.length balloons') =? 0) || (elapsed_time >? max_wave_time g) then
        let g' := mkGame score' (balloons_wave g + 1) waves'
                    (start_y_cam g) (max_wave_time g) (max_balloons_waves g) in
        Some (g', start_balloons_game_timer g')
      else
        Some (mkGame score' (balloons_wave g) waves'
                (start_y_cam g) (max_wave_time g) (max_balloons_waves g), Playing)
  end.

(** A play-through: the inputs of successive passes; a pass that closes a wave
    is followed by the passes of the next one, and the game-over screen and a
    failed pass end the run. *)
Fixpoint run (g : Game) (inputs : list (Z * list Py.Rect)) : Game :=
  match inputs with
  | [] => g
  | (elapsed_time, fingers) :: rest =>
      match tick g elapsed_time fingers with
      | None => g
      | Some (g', GameOver) => end_balloons_game g'
      | Some (g', _) => run g' rest
      end
  end.

(** The balloons the loop handles in a pass: appeared and not yet popped. *)
Definition in_play (elapsed_time : Z) (b : Balloon) : bool :=
  negb (elapsed_time <? time b) && negb (is_popped b).

(** The test "if it goes off the screen": the top of the balloon is within its
    own height of the top of the camera overlay. *)
Definition at_top (start_y_cam : Z) (b : Balloon) : bool :=
  Py.top (rect b) <=? start_y_cam + Py.height (rect b).

(** No balloon of the list leaves the field in this pass, so the loop runs
    through all of them. *)
Definition none_leaves (start_y_cam elapsed_time : Z) (balloons : list Balloon) : bool :=
  forallb (fun b => negb (in_play elapsed_time b && at_top start_y_cam b)) balloons.

(** The balloon as drawn in this pass, after its move up. *)
Definition moved_rect (b : Balloon) : Py.Rect := Py.move_ip (rect b) 0 (- speed b).

Definition touched (fingers_centers_rects : list Py.Rect) (b : Balloon) : bool :=
  existsb (Py.colliderect (moved_rect b)) fingers_centers_rects.

(** The points of the specification: 1 for a plain balloon, 2, 3 and 5 for
    the combo tiers 1, 2 and 3. *)
Definition pop_points (type : Z) : Z :=
  match type with
  | 1 => 2
  | 2 => 3
  | 3 => 5
  | _ => 1
  end.

(** Every balloon of the list is resolved: popped by a finger or marked
    popped on leaving the field. *)
Definition all_resolved (balloons : list Balloon) : bool :=
  forallb is_popped balloons.

End Balloons.

(** ** Hand-position provider (mediapipe_hand_tracking.py) *)

Module HandTracking.

(** [lmsList] of the default record is the int [-1], of a detected hand the
    list of [[id, cx, cy]] triples. *)
Inductive Landmarks : Type :=
| NoList (n : Z)
| LmsList (l : list (Z * Z * Z)).

Record HandRecord : Type := mkHandRecord {
  lmsList : Landmarks;
  bbox : option (Z * Z * Z * Z);      (* [None] is the int [-1] *)
  center : Z * Z;
  side : string
}.

(** [(-1, -1, (-1, -1), "nth")] *)
Definition nth_record : HandRecord :=
  mkHandRecord (NoList (-1)) None (-1, -1) "nth".

(** [len(x)]: TypeError on an int. *)
Definition len (x : Landmarks) : option Z :=
  match x with
  | NoList _ => None
  | LmsList l => Some (Z.of_nat (List.length l))
  end.

(** [min(l)] and [max(l)]: ValueError on an empty list. *)
Definition list_min (l : list Z) : option Z :=
  match l with
  | [] => None
  | x :: r => Some (fold_left Z.min r x)
  end.

Definition list_max (l : list Z) : option Z :=
  match l with
  | [] => None
  | x :: r => Some (fold_left Z.max r x)
  end.

(** A detected hand: its normalised landmarks [(lm.x, lm.y)]. *)
Definition Hand (F : Type) : Type := list (F * F).

Section Provider.
Context {F : Type} `{PyFloat F}.

(** [for id, lm in enumerate(myHand.landmark)] with
    [cx, cy = int(lm.x * w), int(lm.y * h)], for the finite coordinates the
    detector gives ([int()] of a NaN or an infinity raises). *)
Fixpoint landmarks_px (w h : Z) (id : Z) (hand : Hand F) : list (Z * Z * Z) :=
  match hand with
  | [] => []
  | (x, y) :: rest =>
      (id, trunc (fmul x (of_int w)), trunc (fmul y (of_int h)))
        :: landmarks_px w h (id + 1) rest
  end.

Definition xList (lms : list (Z * Z * Z)) : list Z := map (fun t => snd (fst t)) lms.
Definition yList (lms : list (Z * Z * Z)) : list Z := map (fun t => snd t) lms.

(** The centre of the bounding box of one hand. *)
Definition hand_box (lms : list (Z * Z * Z)) : option ((Z * Z * Z * Z) * (Z * Z)) :=
  match list_min (xList lms), list_max (xList lms),
        list_min (yList lms), list_max (yList lms) with
  | Some xmin, Some xmax, Some ymin, Some ymax =>
      Some ((xmin, ymin, xmax, ymax), ((xmin + xmax) / 2, (ymin + ymax) / 2))
  | _, _, _, _ => None
  end.

(** The two assignments of the loop body: slot 0 for a hand left of
    [side = size_frame // 2], slot 1 for a hand right of it. *)
Definition assign_side (size_frame : Z) (lms : list (Z * Z * Z))
  (box : Z * Z * Z * Z) (c : Z * Z) (hands_data : HandRecord * HandRecord)
  : HandRecord * HandRecord :=
  let side := size_frame / 2 in
  if fst c <? side then
    (mkHandRecord (LmsList lms) (Some box) c "left", snd hands_data)
  else if fst c >? side then
    (fst hands_data, mkHandRecord (LmsList lms) (Some box) c "right")
  else hands_data.

(** [for handNo, myHand in enumerate(self.results.multi_hand_landmarks)] *)
Fixpoint hands_loop (maxHands w h size_frame : Z) (handNo : Z) (hands : list (Hand F))
  (hands_data : HandRecord * HandRecord) : option (HandRecord * HandRecord) :=
  match hands with
  | [] => Some hands_data
  | myHand :: rest =>
      if handNo >=? maxHands then Some hands_data
      else
        let lms := landmarks_px w h 0 myHand in
        match hand_box lms with
        | None => None
        | Some (box, c) =>
            hands_loop maxHands w h size_frame (handNo + 1) rest
              (assign_side size_frame lms box c hands_data)
        end
  end.

(** [findPosition(frame, size_frame)]; [w], [h] are [frame.shape]. *)
Definition findPosition (maxHands w h size_frame : Z) (multi_hand_landmarks : list (Hand F))
  : option (HandRecord * HandRecord) :=
  hands_loop maxHands w h size_frame 0 multi_hand_landmarks (nth_record, nth_record).

End Provider.

End HandTracking.

(** ** Pong engine (gui.py, init_pong_game .. end_pong_game) *)

Module Pong.
Import HandTracking.

Section Engine.
Context {F : Type} `{PyFloat F}.

Record Config : Type := mkConfig {
  play_field_rect : Py.Rect;
  ball_raduis : Z;
  paddle_width : Z;
  paddle_height : Z;
  paddle1_x : Z;
  paddle2_x : Z;
  speed_increment_interval : Z;
  speed_increment : Z;
  max_score : Z;
  scale_y_play_field : F;
  translation_y_play_field : Z;
  camera_width : Z;             (* camera_image.shape[1] *)
  camera_height : Z;            (* camera_image.shape[0] *)
  maxHands : Z
}.

(** The constants of [init_pong_game] over a given play field. *)
Definition init_config (field : Py.Rect) (scale_y : F) (translation_y cam_w cam_h : Z)
  : Config :=
  mkConfig field 10 10 80
    (Py.left field + 10) (Py.right field - 10 - 10)
    7 3 1 scale_y translation_y cam_w cam_h 2.

Record State : Type := mkState {
  ball_x : Z;
  ball_y : Z;
  ball_speed_x : Z;
  ball_speed_y : Z;
  paddle1_y : Z;
  paddle2_y : Z;
  player1_score : Z;
  player2_score : Z;
  round_start_time : F
}.

Definition serve_speeds : list Z := [-7; 7].

(** [init_pong_game]: ball in the centre, both scores 0. *)
Definition init_state (c : Config) (draw_x draw_y : nat) (now : F) : State :=
  mkState (Py.centerx (play_field_rect c)) (Py.centery (play_field_rect c))
    (Py.choice 7 serve_speeds draw_x) (Py.choice 7 serve_speeds draw_y)
    (Py.centery (play_field_rect c) - paddle_height c / 2)
    (Py.centery (play_field_rect c) - paddle_height c / 2)
    0 0 now.

(** What one pass of the loop reads from outside. *)
Record Input : Type := mkInput {
  current_time : F;                 (* time.time() at the top of the pass *)
  hands : list (Hand F);               (* results.multi_hand_landmarks *)
  draw_x : nat;                     (* random.choice([-7, 7]) for x *)
  draw_y : nat;                     (* random.choice([-7, 7]) for y *)
  goal_time : F                     (* time.time() after a goal *)
}.

(** "Increase the ball speed every interval" *)
Definition ramp (c : Config) (i : Input) (s : State) : State :=
  if float_gt_int (fsub (current_time i) (round_start_time s)) (speed_increment_interval c)
  then
    mkState (ball_x s) (ball_y s)
      (ball_speed_x s + (if ball_speed_x s >? 0 then speed_increment c
                         else - speed_increment c))
      (ball_speed_y s + (if ball_speed_y s >? 0 then speed_increment c
                         else - speed_increment c))
      (paddle1_y s) (paddle2_y s) (player1_score s) (player2_score s)
      (current_time i)
  else s.

(** The new position of a paddle from the centre of the hand that drives it. *)
Definition paddle_from_hand (c : Config) (center_y : Z) : Z :=
  let center_y := trunc (int_mul_float center_y (scale_y_play_field c))
                  + translation_y_play_field c in
  let paddle_y := center_y - paddle_height c / 2 in
  if paddle_y <? Py.height (play_field_rect c) then Py.height (play_field_rect c) + 10
  else if paddle_y >? Py.bottom (play_field_rect c) - 75 then
    Py.bottom (play_field_rect c) - paddle_height c - 10 - 10
  else paddle_y.

(** [side == label and len(lmsList) != 0], evaluated left to right. *)
Definition hand_present (r : HandRecord) (label : string) : option bool :=
  if String.eqb (side r) label then
    match len (lmsList r) with
    | None => None
    | Some n => Some (negb (n =? 0))
    end
  else Some false.

(** "Move the paddles based on the hands data" *)
Definition move_paddles (c : Config) (hands_data : HandRecord * HandRecord) (s : State)
  : option State :=
  match hand_present (fst hands_data) "left", hand_present (snd hands_data) "right" with
  | Some is_left_hand, Some is_right_hand =>
      Some (mkState (ball_x s) (ball_y s) (ball_speed_x s) (ball_speed_y s)
              (if is_left_hand then paddle_from_hand c (snd (center (fst hands_data)))
               else paddle1_y s)
              (if is_right_hand then paddle_from_hand c (snd (center (snd hands_data)))
               else paddle2_y s)
              (player1_score s) (player2_score s) (round_start_time s))
  | _, _ => None
  end.

(** The ball advances and bounces off the top and bottom walls. *)
Definition move_ball (c : Config) (s : State) : State :=
  let x := ball_x s + ball_speed_x s in
  let y := ball_y s + ball_speed_y s in
  let vy :=
    if y <=? Py.height (play_field_rect c) + ball_raduis c then - ball_speed_y s
    else if y >=? Py.bottom (play_field_rect c) - ball_raduis c then - ball_speed_y s
    else ball_speed_y s in
  mkState x y (ball_speed_x s) vy (paddle1_y s) (paddle2_y s)
    (player1_score s) (player2_score s) (round_start_time s).

(** "Check if the ball hits the paddle" *)
Definition hit_paddles (c : Config) (s : State) : State :=
  let ball_rect := Py.mkRect (ball_x s) (ball_y s) (ball_raduis c) (ball_raduis c) in
  let paddle_rect1 :=
    Py.mkRect (paddle1_x c) (paddle1_y s) (paddle_width c) (paddle_height c) in
  let paddle_rect2 :=
    Py.mkRect (paddle2_x c) (paddle2_y s) (paddle_width c) (paddle_height c) in
  if Py.colliderect paddle_rect1 ball_rect then
    mkState (paddle1_x c + paddle_width c + ball_raduis c) (ball_y s)
      (- ball_speed_x s) (ball_speed_y s) (paddle1_y s) (paddle2_y s)
      (player1_score s) (player2_score s) (round_start_time s)
  else if Py.colliderect paddle_rect2 ball_rect then
    mkState (paddle2_x c - ball_raduis c) (ball_y s)
      (- ball_speed_x s) (ball_speed_y s) (paddle1_y s) (paddle2_y s)
      (player1_score s) (player2_score s) (round_start_time s)
  else s.

(** The two tests of "Check if the ball hits the left or right of the screen". *)
Definition exits_left (c : Config) (s : State) : bool :=
  ball_x s <=? Py.left (play_field_rect c) + ball_raduis c.

Definition exits_right (c : Config) (s : State) : bool :=
  ball_x s >=? Py.right (play_field_rect c) - ball_raduis c.

Definition serve (c : Config) (i : Input) (s : State) (p1 p2 : Z) : State :=
  mkState (Py.centerx (play_field_rect c)) (Py.centery (play_field_rect c))
    (Py.choice 7 serve_speeds (draw_x i)) (Py.choice 7 serve_speeds (draw_y i))
    (paddle1_y s) (paddle2_y s) p1 p2 (goal_time i).

Definition goals (c : Config) (i : Input) (s : State) : State :=
  if exits_left c s then serve c i s (player1_score s) (player2_score s + 1)
  else if exits_right c s then serve c i s (player1_score s + 1) (player2_score s)
  else s.

(** The state of the ball when the exit tests are made. *)
Definition before_goals (c : Config) (i : Input) (s : State) : option State :=
  match findPosition (maxHands c) (camera_width c) (camera_height c) (camera_width c)
          (hands i) with
  | None => None
  | Some hands_data =>
      match move_paddles c hands_data (ramp c i s) with
      | None => None
      | Some s1 => Some (hit_paddles c (move_ball c s1))
      end
  end.

(** [end_pong_game]: the winner and the line drawn for it. *)
Definition winner (c : Config) (s : State) : string :=
  if player1_score s =? max_score c then "Player 1" else "Player 2".

Definition winner_text (c : Config) (s : State) : string :=
  (winner c s ++ " wins")%string.

Inductive Session : Type :=
| Playing (s : State)
| GameOver (s : State) (shown : string).

(** One pass of the [while True] of [start_pong_game] after the event queue is
    drained, from the hands the detector reports on; [None] is an uncaught
    exception of that part.  The camera read before it, whose failure raises
    as well ([cv2.cvtColor] of no image), the sounds and the drawing are left
    out. *)
Definition tick (c : Config) (i : Input) (s : State) : option Session :=
  match before_goals c i s with
  | None => None
  | Some s2 =>
      let s3 := goals c i s2 in
      if (player1_score s3 =? max_score c) || (player2_score s3 =? max_score c)
      then Some (GameOver s3 (winner_text c s3))
      else Some (Playing s3)
  end.

Fixpoint run (c : Config) (inputs : list Input) (s : State) : option Session :=
  match inputs with
  | [] => Some (Playing s)
  | i :: rest =>
      match tick c i s with
      | Some (Playing s') => run c rest s'
      | r => r
      end
  end.

Definition session_state (r : Session) : State :=
  match r with
  | Playing s => s
  | GameOver s _ => s
  end.

End Engine.

Arguments Config F : clear implicits.
Arguments State F : clear implicits.
Arguments Input F : clear implicits.
Arguments Session F : clear implicits.

End Pong.

(** ** Capture and detection worker (dino_game.py, PoseDetector) *)

Module Capture.

(** A camera image: its shape and which picture it is. *)
Record Frame : Type := mkFrame { frame_height : Z; frame_width : Z; picture : nat }.

(** [cv2.VideoCapture]: an open capture delivers what the device has (nothing
    on a bad frame), a released one delivers nothing. *)
Record VideoCapture : Type := mkVideoCapture { opened : bool }.

Definition isOpened (cap : VideoCapture) : bool := opened cap.
Definition release (cap : VideoCapture) : VideoCapture := mkVideoCapture false.
Definition read (cap : VideoCapture) (device : option Frame) : option Frame :=
  if opened cap then device else None.

Record PoseDetector : Type := mkPoseDetector {
  cap : VideoCapture;
  camera_working : bool;
  running : bool;
  jump_detected : bool;
  duck_detected : bool;
  current_frame : option Frame;
  jump_line_y : Z;
  duck_line_y : Z;
  lines_initialized : bool
}.

(** The end of [__init__] for a capture whose test read succeeded. *)
Definition new_detector (c : VideoCapture) (working : bool) : PoseDetector :=
  mkPoseDetector c working true false false None 0 0 false.

(** [stop]: the thread is told to end and the detector marks its camera as
    no longer usable; the capture itself is left as it is. *)
Definition stop (d : PoseDetector) : PoseDetector :=
  mkPoseDetector (cap d) false false (jump_detected d) (duck_detected d)
    (current_frame d) (jump_line_y d) (duck_line_y d) (lines_initialized d).

Definition get_state (d : PoseDetector) : bool * bool :=
  if negb (camera_working d) then (false, false)
  else (jump_detected d, duck_detected d).

(** [get_camera_frame]: with no frame stored yet, one is read directly. *)
Definition get_camera_frame (d : PoseDetector) (device : option Frame)
  : PoseDetector * option Frame :=
  if negb (camera_working d) then (d, None)
  else
    match current_frame d with
    | None =>
        if isOpened (cap d) then
          match read (cap d) device with
          | Some frame =>
              (mkPoseDetector (cap d) (camera_working d) (running d) (jump_detected d)
                 (duck_detected d) (Some frame) (jump_line_y d) (duck_line_y d)
                 (lines_initialized d),
               Some frame)
          | None => (d, None)
          end
        else (d, None)
    | Some frame => (d, Some frame)
    end.

(** The sentence of the specification: once [stop] has returned the camera
    handle is released, so that a read on it fails whatever the device has. *)
Definition stop_releases (d : PoseDetector) : Prop :=
  forall device : option Frame, read (cap (stop d)) device = None.

Inductive Flow : Type := Continue | Break.

Section Worker.
Context {F : Type} `{PyFloat F}.

(** What one pass of the detection loop meets. *)
Record World : Type := mkWorld {
  device : option Frame;        (* the frame the camera has, if any *)
  reopens : bool;               (* whether cv2.VideoCapture(0) opens *)
  nose : option (F * F);        (* the normalised nose landmark, if a pose is found *)
  key_q : bool                  (* cv2.waitKey(1) saw 'q' *)
}.

(** The body of [while self.running] in [detect_pose_continuous]; the second
    component is the local [consecutive_failures]. *)
Definition detect_pass (w : World) (d : PoseDetector) (consecutive_failures : Z)
  : PoseDetector * Z * Flow :=
  if negb (isOpened (cap d)) then
    let n := consecutive_failures + 1 in
    let '(c, n) :=
      if n >=? 10 then
        let c := mkVideoCapture (reopens w) in
        (c, if negb (isOpened c) then n else 0)
      else (cap d, n) in
    let d1 := mkPoseDetector c (camera_working d) (running d) (jump_detected d)
                (duck_detected d) (current_frame d) (jump_line_y d) (duck_line_y d)
                (lines_initialized d) in
    if n >=? 20 then
      (mkPoseDetector c false (running d) (jump_detected d) (duck_detected d)
         (current_frame d) (jump_line_y d) (duck_line_y d) (lines_initialized d),
       n, Break)
    else (d1, n, Continue)
  else
    match read (cap d) (device w) with
    | None => (d, consecutive_failures + 1, Continue)
    | Some frame =>
        let jl := if lines_initialized d then jump_line_y d
                  else trunc (int_mul_float (frame_height frame) (dec 4 10)) in
        let dl := if lines_initialized d then duck_line_y d
                  else trunc (int_mul_float (frame_height frame) (dec 6 10)) in
        let '(j, k) :=
          match nose w with
          | None => (false, false)
          | Some (_, y) =>
              let nose_y := trunc (fmul y (of_int (frame_height frame))) in
              if nose_y <? jl then (true, false)
              else if nose_y >? dl then (false, true)
              else (false, false)
          end in
        if key_q w then
          (mkPoseDetector (cap d) (camera_working d) false j k (Some frame) jl dl true,
           0, Break)
        else
          (mkPoseDetector (cap d) (camera_working d) (running d) j k (Some frame) jl dl true,
           0, Continue)
    end.

(** What can happen to a detector once it is shared between the two threads:
    the worker finishes or makes a pass, the game loop asks for the state or
    for the frame. *)
Inductive Action : Type :=
| WorkerPass (w : World) (consecutive_failures : Z)
| AskState
| AskFrame (device : option Frame).

(** What the game loop is handed by an action; a worker pass hands it nothing. *)
Inductive Published : Type :=
| Nothing
| StateSeen (jump duck : bool)
| FrameSeen (frame : option Frame).

Definition act (a : Action) (d : PoseDetector) : PoseDetector * Published :=
  match a with
  | WorkerPass w n => (fst (fst (detect_pass w d n)), Nothing)
  | AskState => (d, StateSeen (fst (get_state d)) (snd (get_state d)))
  | AskFrame dev => let '(d', f) := get_camera_frame d dev in (d', FrameSeen f)
  end.

Fixpoint trace (actions : list Action) (d : PoseDetector) : PoseDetector * list Published :=
  match actions with
  | [] => (d, [])
  | a :: rest =>
      let '(d1, p) := act a d in
      let '(d2, ps) := trace rest d1 in
      (d2, p :: ps)
  end.

(** An answer that carries no detection and no picture. *)
Definition silent (p : Published) : bool :=
  match p with
  | Nothing => true
  | StateSeen j k => negb j && negb k
  | FrameSeen f => match f with None => true | Some _ => false end
  end.

End Worker.

Arguments World F : clear implicits.
Arguments Action F : clear implicits.

End Capture.

(** ** Runner engine (dino_game.py, Dino, Obstacle, run_dino_game) *)

Module Runner.
Import Capture.

(** The pictures a sprite can show; their sizes come with the assets. *)
Inductive Image : Type :=
| RunImg (i : Z)
| JumpImg
| DuckImg (i : Z).

Inductive Kind : Type := Cactus | Ptero.

Record Obstacle : Type := mkObstacle {
  kind : Kind;
  orect : Py.Rect;
  index : Z;
  wing_timer : Z
}.

Section Engine.
Context {F : Type} `{PyFloat F} {R : RectStore F}.
Variable image_size : Image -> Z * Z.

Definition get_rect (i : Image) : Py.Rect :=
  Py.mkRect 0 0 (fst (image_size i)) (snd (image_size i)).

Record Dino : Type := mkDino {
  rect : Py.Rect;
  pos_y_initial : Z;
  gravity : F;
  velocity_y : F;
  jumping : bool;
  ducking : bool;
  image : Image;
  run_index : Z;
  duck_index : Z;
  animation_timer : Z
}.

(** [Dino.__init__(pos_x, pos_y)] *)
Definition new_dino (pos_x pos_y : Z) : Dino :=
  let r := get_rect (RunImg 0) in
  mkDino (Py.mkRect pos_x pos_y (Py.rw r) (Py.rh r)) pos_y
    (dec 6 10) (of_int 0) false false (RunImg 0) 0 0 0.

(** [Dino.update(jump_input, duck_input)]; [self.rect.y += self.velocity_y]
    stores the float sum in the Rect. *)
Definition update (jump_input duck_input : bool) (d : Dino) : Dino :=
  (* "Handle jumping" *)
  let d :=
    if jump_input && negb (jumping d) then
      mkDino (rect d) (pos_y_initial d) (gravity d) (of_int (-15)) true (ducking d)
        (image d) (run_index d) (duck_index d) (animation_timer d)
    else d in
  if jumping d then
    let v := fadd (velocity_y d) (gravity d) in
    let y := to_rect (int_add_float (Py.ry (rect d)) v) in
    (* "Check if dino has landed" *)
    if y >=? pos_y_initial d then
      mkDino (Py.mkRect (Py.rx (rect d)) (pos_y_initial d) (Py.rw (rect d)) (Py.rh (rect d)))
        (pos_y_initial d) (gravity d) (of_int 0) false (ducking d)
        JumpImg (run_index d) (duck_index d) (animation_timer d)
    else
      mkDino (Py.mkRect (Py.rx (rect d)) y (Py.rw (rect d)) (Py.rh (rect d)))
        (pos_y_initial d) (gravity d) v true (ducking d)
        JumpImg (run_index d) (duck_index d) (animation_timer d)
  else if duck_input then
    (* "Handle ducking" *)
    let t := animation_timer d + 1 in
    let '(di, img, t) :=
      if t >=? 10 then
        let di := (duck_index d + 1) mod 2 in (di, DuckImg di, 0)
      else (duck_index d, image d, t) in
    let r := get_rect img in
    mkDino (Py.mkRect (Py.rx (rect d)) (pos_y_initial d + 30) (Py.rw r) (Py.rh r))
      (pos_y_initial d) (gravity d) (velocity_y d) false true
      img (run_index d) di t
  else
    (* "Running animation" *)
    let t := animation_timer d + 1 in
    let '(ri, img, t) :=
      if t >=? 10 then
        let ri := (run_index d + 1) mod 2 in (ri, RunImg ri, 0)
      else (run_index d, image d, t) in
    let r := get_rect img in
    mkDino (Py.mkRect (Py.rx (rect d)) (pos_y_initial d) (Py.rw r) (Py.rh r))
      (pos_y_initial d) (gravity d) (velocity_y d) false false
      img ri (duck_index d) t.

(** [Obstacle.update] and [Ptero.update]: move left by the game speed, the
    difference being stored in the Rect, and die past the left edge
    ([None]). *)
Definition update_obstacle (game_speed : F) (o : Obstacle) : option Obstacle :=
  let '(i, t) :=
    match kind o with
    | Cactus => (index o, wing_timer o)
    | Ptero =>
        let t := wing_timer o + 1 in
        if t >=? 15 then ((index o + 1) mod 2, 0) else (index o, t)
    end in
  let x := to_rect (int_sub_float (Py.rx (orect o)) game_speed) in
  if x <? -100 then None
  else Some (mkObstacle (kind o)
               (Py.mkRect x (Py.ry (orect o)) (Py.rw (orect o)) (Py.rh (orect o))) i t).

Fixpoint update_group (game_speed : F) (group : list Obstacle) : list Obstacle :=
  match group with
  | [] => []
  | o :: rest =>
      match update_obstacle game_speed o with
      | None => update_group game_speed rest
      | Some o' => o' :: update_group game_speed rest
      end
  end.

(** [pygame.sprite.spritecollide(dino, obstacle_group, False)] is non-empty. *)
Definition spritecollide (d : Dino) (group : list Obstacle) : bool :=
  existsb (fun o => Py.colliderect (rect d) (orect o)) group.

Record Game : Type := mkGame {
  SCREEN_WIDTH : Z;
  ground_y : Z;
  dino : Dino;
  obstacle_group : list Obstacle;
  game_speed : F;
  game_over : bool;
  score : F;
  obstacle_timer : Z;
  obstacle_spawn : bool
}.

(** The set-up of [run_dino_game] before its main loop. *)
Definition init_game (screen_width screen_height : Z) : Game :=
  let ground_y := trunc (int_mul_float screen_height (dec 75 100)) in
  let dino_x := trunc (int_mul_float screen_width (dec 15 100)) in
  mkGame screen_width ground_y (new_dino dino_x (ground_y - 40)) []
    (of_int 10) false (of_int 0) 0 true.

(** What one pass of the main loop reads from outside. *)
Record Input : Type := mkInput {
  quit : bool;                       (* a pygame.QUIT event *)
  escape : bool;                     (* a KEYDOWN of K_ESCAPE *)
  key_r : bool;
  key_jump : bool;                   (* K_SPACE or K_UP *)
  key_down : bool;
  detector : PoseDetector;           (* the detector as the worker left it *)
  now : Z;                           (* pygame.time.get_ticks() *)
  obstacle_random : Z;               (* random.randint(1, 10) *)
  ptero_draw : nat;                  (* random.choice(height_options) *)
  asset_size : Z * Z;                (* size of the picture of a new obstacle *)
  spawn_gap : Z                      (* random.randint(1500, 3000) *)
}.

(** "Spawn obstacles" *)
Definition spawn (i : Input) (g : Game) : Game :=
  if obstacle_spawn g then
    if now i - obstacle_timer g >? 1500 then
      let new_obstacle :=
        if obstacle_random i <=? 7 then
          mkObstacle Cactus
            (Py.mkRect (SCREEN_WIDTH g - 20) (ground_y g - 40)
               (fst (asset_size i)) (snd (asset_size i))) 0 0
        else
          let height_options := [ground_y g - 120; ground_y g - 80; ground_y g - 40] in
          mkObstacle Ptero
            (Py.mkRect (SCREEN_WIDTH g) (Py.choice 0 height_options (ptero_draw i))
               (fst (asset_size i)) (snd (asset_size i))) 0 0 in
      mkGame (SCREEN_WIDTH g) (ground_y g) (dino g) (obstacle_group g ++ [new_obstacle])
        (game_speed g) (game_over g) (score g) (now i) false
    else g
  else if now i - obstacle_timer g >? spawn_gap i then
    mkGame (SCREEN_WIDTH g) (ground_y g) (dino g) (obstacle_group g)
      (game_speed g) (game_over g) (score g) (obstacle_timer g) true
  else g.

(** The two nested tests of "Speed up game as score increases", on the score
    already advanced. *)
Definition speeds_up (score game_speed : F) : bool :=
  (trunc score mod 100 =? 0) && (trunc score >? 0) && float_lt_int game_speed 20.

(** "Update score" and "Speed up game as score increases" *)
Definition score_and_speed (score game_speed : F) : F * F :=
  let score := fadd score (dec 1 10) in
  if ((trunc score) mod 100 =? 0) && (trunc score >? 0) then
    let milestone_score := trunc score in
    if (milestone_score mod 100 =? 0) && float_lt_int game_speed 20 then
      (score, fadd game_speed (dec 5 10))
    else (score, game_speed)
  else (score, game_speed).

Inductive Outcome : Type :=
| Running (g : Game)
| Left (d : PoseDetector).          (* pose_detector.stop() and return *)

(** One pass of the [while True] of [run_dino_game]; clouds, ground and
    drawing are left out. *)
Definition frame (i : Input) (g : Game) : Outcome :=
  if quit i || escape i then Left (stop (detector i))
  else if game_over g then
    if key_r i then
      Running (mkGame (SCREEN_WIDTH g) (ground_y g) (dino g) []
                 (of_int 10) false (of_int 0) (obstacle_timer g) (obstacle_spawn g))
    else Running g
  else
    let '(jump_detected, duck_detected) := get_state (detector i) in
    let d := update (jump_detected || key_jump i) (duck_detected || key_down i) (dino g) in
    let over := if spritecollide d (obstacle_group g) then true else game_over g in
    let g1 := spawn i (mkGame (SCREEN_WIDTH g) (ground_y g) d (obstacle_group g)
                         (game_speed g) over (score g) (obstacle_timer g)
                         (obstacle_spawn g)) in
    let '(sc, sp) := score_and_speed (score g1) (game_speed g1) in
    Running (mkGame (SCREEN_WIDTH g1) (ground_y g1) (dino g1)
               (update_group sp (obstacle_group g1))
               sp (game_over g1) sc (obstacle_timer g1) (obstacle_spawn g1)).

Fixpoint run (inputs : list Input) (g : Game) : Game :=
  match inputs with
  | [] => g
  | i :: rest =>
      match frame i g with
      | Running g' => run rest g'
      | Left _ => g
      end
  end.

(** The score as it is drawn: [int(score)]. *)
Definition shown_score (g : Game) : Z := trunc (score g).

(** The dino after [n] frames whose inputs are [inp 0], ..., [inp (n - 1)]. *)
Fixpoint steps (inp : nat -> bool * bool) (n : nat) (d : Dino) : Dino :=
  match n with
  | O => d
  | S k => update (fst (inp k)) (snd (inp k)) (steps inp k d)
  end.

(** A frame in which nothing is pressed, the camera is off and the clock has
    not reached the first obstacle. *)
Definition quiet_input : Input :=
  mkInput false false false false false
    (new_detector (mkVideoCapture false) false) 0 1 0 (0, 0) 1500.

(** The speed after [m] steps of 0.5 from the initial 10. *)
Definition steps_up (m : nat) : F :=
  Nat.iter m (fun speed => fadd speed (dec 5 10)) (of_int 10).

(** The milestones of 100 points the score has passed. *)
Definition milestones_passed (g : Game) : nat := Z.to_nat (shown_score g / 100).

(** One step of 0.5 for every milestone passed, and none besides: on a run
    without obstacles the speed is always the initial speed plus one step per
    milestone. *)
Definition once_per_milestone (screen_width screen_height : Z) : Prop :=
  forall n : nat,
    let g := run (repeat quiet_input n) (init_game screen_width screen_height) in
    game_speed g = steps_up (milestones_passed g).

End Engine.

Arguments Dino F : clear implicits.
Arguments Game F : clear implicits.
Arguments Outcome F : clear implicits.

End Runner.

(** ** Camera set-up and the detection thread
       (gui.py, init_camera; dino_game.py, PoseDetector.__init__,
       detect_pose_continuous and the set-up of run_dino_game) *)

Module Setup.
Import Capture.

Section Machine.
(** Which camera indices open on this machine. *)
Variable opens : Z -> bool.

(** [cv2.VideoCapture(index)] *)
Definition cv2_VideoCapture (index : Z) : VideoCapture := mkVideoCapture (opens index).

(** [Game.init_camera]: the capture it ends with and the indices it asked
    for, in order. *)
Definition init_camera (user_camera_number : Z) : VideoCapture * list Z :=
  let cap := cv2_VideoCapture user_camera_number in
  if negb (isOpened cap) then
    let cap := cv2_VideoCapture 1 in
    if negb (isOpened cap) then (cv2_VideoCapture 2, [user_camera_number; 1; 2])
    else (cap, [user_camera_number; 1])
  else (cap, [user_camera_number]).

(** "If existing camera failed or wasn't provided, try to initialize a new
    one": the capture, [camera_working] and the indices asked for. *)
Definition try_cameras (camera_index : Z) : VideoCapture * bool * list Z :=
  let cap := cv2_VideoCapture camera_index in
  let camera_working := isOpened cap in
  let '(cap, camera_working, tried) :=
    if negb camera_working then
      let cap := cv2_VideoCapture 1 in (cap, isOpened cap, [camera_index; 1])
    else (cap, camera_working, [camera_index]) in
  if negb camera_working then
    let cap := cv2_VideoCapture 2 in (cap, isOpened cap, tried ++ [2])
  else (cap, camera_working, tried).

(** The test of an existing capture: it is open and a test read succeeds;
    [device] is what the camera has for that read. *)
Definition existing_works (cap : VideoCapture) (device : option Frame) : bool :=
  let is_opened := isOpened cap in
  if is_opened then
    match read cap device with
    | Some _ => true
    | None => false
    end
  else is_opened.

(** [PoseDetector.__init__(camera_index, existing_cap)] *)
Definition PoseDetector_init (camera_index : Z) (existing_cap : option VideoCapture)
  (device : option Frame) : PoseDetector * list Z :=
  match existing_cap with
  | Some cap =>
      if negb (existing_works cap device) then
        let '(cap, camera_working, tried) := try_cameras camera_index in
        (new_detector cap camera_working, tried)
      else (new_detector cap true, [])
  | None =>
      let '(cap, camera_working, tried) := try_cameras camera_index in
      (new_detector cap camera_working, tried)
  end.

(** The set-up of the detector in [run_dino_game]: a second test read, whose
    frame is stored "to give the thread a head start"; the thread is started
    only if the camera is still held to work.  [device0] and [device1] are
    what the camera has for the two test reads. *)
Definition start_detector (existing_cap : option VideoCapture)
  (device0 device1 : option Frame) : PoseDetector * bool * list Z :=
  let '(d, tried) := PoseDetector_init 0 existing_cap device0 in
  let d :=
    if camera_working d then
      match read (cap d) device1 with
      | Some test_frame =>
          mkPoseDetector (cap d) (camera_working d) (running d) (jump_detected d)
            (duck_detected d) (Some test_frame) (jump_line_y d) (duck_line_y d)
            (lines_initialized d)
      | None =>
          mkPoseDetector (cap d) false (running d) (jump_detected d)
            (duck_detected d) (current_frame d) (jump_line_y d) (duck_line_y d)
            (lines_initialized d)
      end
    else d in
  (d, camera_working d, tried).

End Machine.

Section Worker.
Context {F : Type} `{PyFloat F}.

(** [while self.running] over the passes the worker gets to make; on its own
    the loop ends by one of its two [break]s. *)
Fixpoint detect_loop (worlds : list (World F)) (d : PoseDetector) (consecutive_failures : Z)
  : PoseDetector * Z * Flow :=
  match worlds with
  | [] => (d, consecutive_failures, Continue)
  | w :: rest =>
      if running d then
        match detect_pass w d consecutive_failures with
        | (d', n, Break) => (d', n, Break)
        | (d', n, Continue) => detect_loop rest d' n
        end
      else (d, consecutive_failures, Break)
  end.

(** [detect_pose_continuous]: nothing without a working camera; otherwise
    the stored frame is dropped and the loop runs from no failures. *)
Definition detect_pose_continuous (worlds : list (World F)) (d : PoseDetector)
  : PoseDetector * Z * Flow :=
  if negb (camera_working d) then (d, 0, Break)
  else
    detect_loop worlds
      (mkPoseDetector (cap d) (camera_working d) (running d) (jump_detected d)
         (duck_detected d) None (jump_line_y d) (duck_line_y d) (lines_initialized d))
      0.

End Worker.

End Setup.

(** ** Finger detection (cvzone_hand_detection.py, detect_hands) and the finger
       rectangles of the balloon game (gui.py, start_balloons_game) *)

Module HandDetection.

(** A hand as the detector reports it: its label and its landmarks
    [[x, y, z]]. *)
Record Hand : Type := mkHand {
  type : string;
  lmList : list (Z * Z * Z)
}.

(** The dictionary stored for one hand. *)
Record HandData : Type := mkHandData {
  fingers_up : list Z;
  total_fingers_up : Z;
  fingers_centers : list (Z * Z)
}.

(** [hand_data]: the two keys, each [None] or a dictionary. *)
Record HandsData : Type := mkHandsData {
  left_hand : option HandData;
  right_hand : option HandData
}.

(** [(-1, -1)], the entry of a finger that is not up. *)
Definition marker : Z * Z := (-1, -1).

Section Detector.
(** [detector.fingersUp(hand)] *)
Variable fingersUp : Hand -> list Z.

(** [fingerup[0] + fingerup[1] + fingerup[2] + fingerup[3] + fingerup[4]];
    [None] is IndexError. *)
Definition sum_fingers (fingerup : list Z) : option Z :=
  match nth_error fingerup 0, nth_error fingerup 1, nth_error fingerup 2,
        nth_error fingerup 3, nth_error fingerup 4 with
  | Some a, Some b, Some c, Some d, Some e => Some (a + b + c + d + e)
  | _, _, _, _, _ => None
  end.

(** [for i in range(5)]: a finger that is up gets the first two coordinates
    of its tip, landmark [(i + 1) * 4]. *)
Fixpoint centers_loop (fingerup : list Z) (lmList : list (Z * Z * Z)) (range : list nat)
  (fingers_centers : list (Z * Z)) : option (list (Z * Z)) :=
  match range with
  | [] => Some fingers_centers
  | i :: rest =>
      match nth_error fingerup i with
      | None => None
      | Some up =>
          if up =? 1 then
            match nth_error lmList ((i + 1) * 4) with
            | None => None
            | Some (x, y, _) =>
                centers_loop fingerup lmList rest
                  (Balloons.replace_nth fingers_centers i (x, y))
            end
          else centers_loop fingerup lmList rest fingers_centers
      end
  end.

(** The body of [if is_left:] and of [if is_right:]. *)
Definition hand_entry (hand : Hand) : option HandData :=
  let fingerup := fingersUp hand in
  match sum_fingers fingerup with
  | None => None
  | Some sum =>
      match centers_loop fingerup (lmList hand) [0; 1; 2; 3; 4]%nat (repeat marker 5) with
      | None => None
      | Some centers => Some (mkHandData fingerup sum centers)
      end
  end.

(** Which of the reported hands is taken for the left and for the right one:
    a single hand labelled "Left" is the right hand, any other single hand
    the left one; of two hands the first is the left one if it is labelled
    "Left", the right one otherwise. *)
Definition left_and_right (hands : list Hand) : option Hand * option Hand :=
  match hands with
  | [] => (None, None)
  | [first_hand] =>
      if String.eqb (type first_hand) "Left" then (None, Some first_hand)
      else (Some first_hand, None)
  | first_hand :: second_hand :: _ =>
      if String.eqb (type first_hand) "Left" then (Some first_hand, Some second_hand)
      else (Some second_hand, Some first_hand)
  end.

(** [detect_hands(detector, img)], from [hands = hand_data[0]] on; [None] is
    an exception that leaves the function. *)
Definition detect_hands (hands : list Hand) : option HandsData :=
  let '(the_left, the_right) := left_and_right hands in
  let entry (h : option Hand) : option (option HandData) :=
    match h with
    | None => Some None
    | Some hand =>
        match hand_entry hand with
        | None => None
        | Some data => Some (Some data)
        end
    end in
  match entry the_left with
  | None => None
  | Some l =>
      match entry the_right with
      | None => None
      | Some r => Some (mkHandsData l r)
      end
  end.

End Detector.

(** [hands_data["right_hand"]["fingers_centers"]] under [try], with the five
    markers of the [except] branch for a hand that is [None]. *)
Definition fingers_centers_or_markers (hand : option HandData) : list (Z * Z) :=
  match hand with
  | Some data => fingers_centers data
  | None => repeat marker 5
  end.

(** [fingers_centers_rects] as the balloon loop builds it: the right hand's
    fingers first, then the left hand's. *)
Definition fingers_centers_rects {F : Type} `{PyFloat F} (T : Mapper.CamTransform F)
  (hands_data : HandsData) : list Py.Rect :=
  Mapper.fingers_rects T (fingers_centers_or_markers (right_hand hands_data))
  ++ Mapper.fingers_rects T (fingers_centers_or_markers (left_hand hands_data)).

End HandDetection.

(** ** Random helpers (utils.py) and the generation of the waves
       (gui.py, init_balloons) *)

Module Waves.

(** [random.randint(a, b)]: the draw is an input; an empty range is a
    ValueError. *)
Definition randint (a b : Z) (draw : nat) : option Z :=
  if b <? a then None else Some (a + Z.of_nat draw mod (b - a + 1)).

(** [range(start, stop)] *)
Definition range (start stop : Z) : list Z :=
  map (fun k => start + Z.of_nat k) (seq 0 (Z.to_nat (stop - start))).

(** [itertools.accumulate(weights)] *)
Fixpoint accumulate (total : Z) (weights : list Z) : list Z :=
  match weights with
  | [] => []
  | w :: rest => (total + w) :: accumulate (total + w) rest
  end.

(** [bisect.bisect_right(a, x, lo, hi)]:
    [while lo < hi: mid = (lo + hi) // 2;
       if x < a[mid]: hi = mid  else: lo = mid + 1].
    Every turn of the loop shortens [hi - lo], which bounds the number of
    turns. *)
Fixpoint bisect_loop (turns : nat) (a : list Z) (x : Z) (lo hi : nat) : nat :=
  match turns with
  | O => lo
  | S turns =>
      if (lo <? hi)%nat then
        let mid := ((lo + hi) / 2)%nat in
        if x <? nth mid a 0 then bisect_loop turns a x lo mid
        else bisect_loop turns a x (mid + 1) hi
      else lo
  end.

Definition bisect (a : list Z) (x : Z) (lo hi : nat) : nat :=
  bisect_loop (hi - lo) a x lo hi.

(** [random.choices(population, weights)[0]].  [point] is the integer part of
    [random() * total], a number from 0 up to the total of the weights:
    against the integer cumulative weights it compares as the product does.
    [None] is the ValueError of a total that is not positive. *)
Definition choices (population weights : list Z) (point : Z) : option Z :=
  let cum_weights := accumulate 0 weights in
  let n := List.length population in
  if negb (List.length cum_weights =? n)%nat then None
  else
    match cum_weights with
    | [] => None
    | _ :: _ =>
        let total := last cum_weights 0 in
        if total <=? 0 then None
        else nth_error population (bisect cum_weights point 0 (n - 1))
    end.

Section Floats.
Context {F : Type} `{PyFloat F}.

(** [random_bool_by_chance(chance)]: [random.random() < chance]. *)
Definition random_bool_by_chance (chance : F) (random : F) : bool := fltb random chance.

End Floats.

(** The weight [biased_random_int] gives to [num]. *)
Definition weight (bias_range : Z * Z) (bias_strength : Z) (num : Z) : Z :=
  if (fst bias_range <=? num) && (num <=? snd bias_range) then bias_strength else 1.

(** [biased_random_int(min_value, max_value, bias_range, bias_strength)];
    [None] is a ValueError, its own or that of [random.choices]. *)
Definition biased_random_int (min_value max_value : Z) (bias_range : Z * Z)
  (bias_strength : Z) (point : Z) : option Z :=
  if negb (((min_value <=? fst bias_range) && (fst bias_range <=? max_value))
           && ((min_value <=? snd bias_range) && (snd bias_range <=? max_value)))
  then None
  else
    let weights := map (weight bias_range bias_strength) (range min_value (max_value + 1)) in
    choices (range min_value (max_value + 1)) weights point.

(** *** [init_balloons] *)

Definition ballons_number_per_wave : list (Z * Z) :=
  [(5, 15); (15, 25); (25, 35); (35, 45); (45, 55)].

Definition normal_ballons_speed_per_wave : list (Z * Z) :=
  [(2, 10); (4, 12); (6, 14); (8, 16); (10, 18)].

Definition combo_ballons_speed_per_wave : list (Z * Z) :=
  [(11, 15); (13, 17); (15, 19); (17, 21); (19, 23)].

Section Generation.
Context {F : Type} `{PyFloat F}.

Definition ballons_combo_probability_per_wave : list F :=
  [dec 2 10; dec 15 100; dec 1 10; dec 5 100; dec 3 100].

(** What the random module hands out for one balloon. *)
Record Draws : Type := mkDraws {
  chance_draw : F;          (* random.random() of random_bool_by_chance *)
  image_draw : nat;         (* random.choice of the image path *)
  x_draw : nat;             (* random.randint(0, end_x_cam) *)
  speed_draw : nat;         (* random.randint of the speed *)
  time_point : Z            (* the point of random.choices in biased_random_int *)
}.

(** The geometry and the constants [init_balloons] reads from [self]. *)
Record Field : Type := mkField {
  start_x_cam : Z;
  end_x_cam : Z;
  end_y_cam : Z;
  max_wave_time : Z;
  max_balloons_waves : nat
}.

(** The body of the inner loop: one balloon of wave [wave_number]. *)
Definition one_balloon (f : Field) (wave_number : nat) (d : Draws) : option Balloons.Balloon :=
  match nth_error ballons_combo_probability_per_wave wave_number,
        nth_error combo_ballons_speed_per_wave wave_number,
        nth_error normal_ballons_speed_per_wave wave_number with
  | Some probability, Some combo_speed, Some normal_speed =>
      let is_combo := random_bool_by_chance probability (chance_draw d) in
      match randint 0 (end_x_cam f) (x_draw d) with
      | None => None
      | Some x =>
          let balloon_rect := Py.mkRect (x + start_x_cam f + 110) (end_y_cam f + 100) 100 100 in
          let speed_range := if is_combo then combo_speed else normal_speed in
          match randint (fst speed_range) (snd speed_range) (speed_draw d) with
          | None => None
          | Some speed =>
              match biased_random_int 0 (max_wave_time f) (0, max_wave_time f / 2) 10
                      (time_point d) with
              | None => None
              | Some apperance_time =>
                  Some (Balloons.new_balloon balloon_rect speed apperance_time is_combo
                          (image_draw d))
              end
          end
      end
  | _, _, _ => None
  end.

(** [for _ in range(n)] over the draws of a wave. *)
Fixpoint balloons_of (f : Field) (wave_number : nat) (draws : nat -> Draws) (n : nat)
  : option (list Balloons.Balloon) :=
  match n with
  | O => Some []
  | S k =>
      match balloons_of f wave_number draws k with
      | None => None
      | Some balloons =>
          match one_balloon f wave_number (draws k) with
          | None => None
          | Some balloon => Some (balloons ++ [balloon])
          end
      end
  end.

(** One turn of [for wave_number in range(self.max_balloons_waves)]. *)
Definition one_wave (f : Field) (wave_number : nat) (count_draw : nat)
  (draws : nat -> Draws) : option (list Balloons.Balloon) :=
  match nth_error ballons_number_per_wave wave_number with
  | None => None
  | Some (lo, hi) =>
      match randint lo hi count_draw with
      | None => None
      | Some n => balloons_of f wave_number draws (Z.to_nat n)
      end
  end.

Fixpoint waves_upto (f : Field) (count_draws : nat -> nat) (draws : nat -> nat -> Draws)
  (n : nat) : option (list (list Balloons.Balloon)) :=
  match n with
  | O => Some []
  | S k =>
      match waves_upto f count_draws draws k with
      | None => None
      | Some waves =>
          match one_wave f k (count_draws k) (draws k) with
          | None => None
          | Some balloons => Some (waves ++ [balloons])
          end
      end
  end.

(** [init_balloons]: [self.waves_balloons]. *)
Definition init_balloons (f : Field) (count_draws : nat -> nat)
  (draws : nat -> nat -> Draws) : option (list (list Balloons.Balloon)) :=
  waves_upto f count_draws draws (max_balloons_waves f).

End Generation.

Arguments Draws F : clear implicits.

End Waves.

(** ** Double precision: sums of an integer and a float *)

Module FloatFacts.

(** *** Powers of two, digits, shifts *)

Lemma pow2_pos (k : Z) : 0 <= k -> 0 < 2 ^ k.
Proof. intros Hk. apply Z.pow_pos_nonneg; lia. Qed.

Lemma rescale (A e e' : Z) :
  e <= e' -> e' <= 0 -> A * 2 ^ (- e) = (A * 2 ^ (- e')) * 2 ^ (e' - e).
Proof.
  intros L L'. rewrite <- Z.mul_assoc, <- Z.pow_add_r by lia.
  f_equal. f_equal. lia.
Qed.

(** Cutting [k] bits off a number between two multiples of [2 ^ k]. *)
Lemma cut_between (m A B k : Z) :
  0 <= k -> A * 2 ^ k <= m <= B * 2 ^ k -> A <= m / 2 ^ k <= B.
Proof.
  intros Hk [L U]. pose proof (pow2_pos k Hk) as P. split.
  - apply Z.div_le_lower_bound; lia.
  - apply Z.div_le_upper_bound; lia.
Qed.

Lemma cut_strict (m B k : Z) :
  0 <= k -> m <= B * 2 ^ k -> ~ (2 ^ k | m) -> m / 2 ^ k + 1 <= B.
Proof.
  intros Hk U N. pose proof (pow2_pos k Hk) as P.
  assert (m <> B * 2 ^ k) as Ne by (intros ->; apply N; exists B; reflexivity).
  assert (m / 2 ^ k < B); [|lia]. apply Z.div_lt_upper_bound; [exact P|]. lia.
Qed.

Lemma digits2_pos_lower (m : positive) : 2 ^ (Zpos (digits2_pos m) - 1) <= Zpos m.
Proof.
  induction m as [m IH | m IH |]; cbn [digits2_pos]; rewrite ?Pos2Z.inj_succ.
  - replace (Z.succ (Zpos (digits2_pos m)) - 1) with (1 + (Zpos (digits2_pos m) - 1)) by lia.
    rewrite Z.pow_add_r by lia. change (2 ^ 1) with 2. lia.
  - replace (Z.succ (Zpos (digits2_pos m)) - 1) with (1 + (Zpos (digits2_pos m) - 1)) by lia.
    rewrite Z.pow_add_r by lia. change (2 ^ 1) with 2. lia.
  - cbn. lia.
Qed.

(** A positive number below [2 ^ 53] times the unit [2 ^ (- e)] has its
    leading bit at most 53 places above the unit, so that the exponent the
    format gives it is not positive. *)
Lemma fexp_nonpos (m : positive) (e B : Z) :
  e <= 0 -> B < 2 ^ 53 -> Zpos m <= B * 2 ^ (- e) ->
  fexp prec emax (Zpos (digits2_pos m) + e) <= 0.
Proof.
  intros He HB U. pose proof (digits2_pos_lower m) as L.
  pose proof (pow2_pos (- e) ltac:(lia)) as P.
  assert (2 ^ (Zpos (digits2_pos m) - 1) < 2 ^ (53 - e)) as Lt.
  { replace (53 - e) with (53 + - e) by lia. rewrite Z.pow_add_r by lia. nia. }
  apply Z.pow_lt_mono_r_iff in Lt; [|lia|lia].
  unfold fexp, emin, prec, emax. lia.
Qed.

Lemma iter_xO (m d : positive) : Zpos (Pos.iter xO m d) = Zpos m * 2 ^ Zpos d.
Proof.
  induction d as [|d IH] using Pos.peano_ind.
  - cbn. lia.
  - rewrite Pos.iter_succ, Pos2Z.inj_succ, Z.pow_succ_r by lia.
    rewrite Pos2Z.inj_xO, IH. lia.
Qed.

Lemma shl_align_spec (mx : positive) (ex ex' : Z) :
  let '(mz, ez) := shl_align mx ex ex' in
  ez <= ex /\ Zpos mz = Zpos mx * 2 ^ (ex - ez).
Proof.
  unfold shl_align. destruct (ex' - ex) as [|d|d] eqn:E.
  - split; [lia|]. rewrite Z.sub_diag. cbn. lia.
  - split; [lia|]. rewrite Z.sub_diag. cbn. lia.
  - split; [lia|]. replace (ex - ex') with (Zpos d) by lia. apply iter_xO.
Qed.

(** [k] steps of the shift to the right: the mantissa loses [k] bits, and
    the round and sticky bits stay clear when the bits lost are zero. *)
Definition shr_rel (k : Z) (x y : shr_record) : Prop :=
  0 <= shr_m x ->
  shr_m y = shr_m x / 2 ^ k
  /\ (shr_r x = false -> shr_s x = false -> (2 ^ k | shr_m x) ->
      shr_r y = false /\ shr_s y = false).

Lemma shr_1_rel (x : shr_record) : shr_rel 1 x (shr_1 x).
Proof.
  destruct x as [m r s]. unfold shr_rel. cbn [shr_m shr_r shr_s]. intros Hm.
  change (2 ^ 1) with 2.
  destruct m as [|[p|p|]|p]; cbn [shr_1 shr_m shr_r shr_s]; try lia.
  - split; [reflexivity|]. intros -> -> _. split; reflexivity.
  - split.
    + rewrite Pos2Z.inj_xI. apply (Z.div_unique_pos _ _ _ 1); lia.
    + intros _ _ [q D]. lia.
  - split.
    + rewrite Pos2Z.inj_xO. apply (Z.div_unique_pos _ _ _ 0); lia.
    + intros -> -> _. split; reflexivity.
  - split; [reflexivity|]. intros _ _ [q D]. lia.
Qed.

Lemma shr_rel_comp (j k : Z) (x y z : shr_record) :
  0 <= j -> 0 <= k -> shr_rel j x y -> shr_rel k y z -> shr_rel (j + k) x z.
Proof.
  intros Hj Hk Rxy Ryz Hm. destruct (Rxy Hm) as [My Fy].
  pose proof (pow2_pos j Hj) as Pj. pose proof (pow2_pos k Hk) as Pk.
  assert (0 <= shr_m y) as Hy by (rewrite My; apply Z.div_pos; lia).
  destruct (Ryz Hy) as [Mz Fz]. split.
  - rewrite Mz, My, Z.pow_add_r, Z.div_div by lia. reflexivity.
  - intros Hr Hs [q D]. rewrite Z.pow_add_r in D by lia.
    destruct Fy as [Ry Sy]; [exact Hr | exact Hs | exists (q * 2 ^ k); lia|].
    apply Fz; [exact Ry | exact Sy|].
    exists q. rewrite My. rewrite D.
    replace (q * (2 ^ j * 2 ^ k)) with (q * 2 ^ k * 2 ^ j) by lia.
    rewrite Z.div_mul by lia. reflexivity.
Qed.

Lemma iter_pos_rel (p : positive) :
  forall x : shr_record, shr_rel (Zpos p) x (iter_pos shr_1 p x).
Proof.
  induction p as [p IH | p IH |]; intros x; cbn [iter_pos].
  - replace (Zpos p~1) with (1 + Zpos p + Zpos p) by lia.
    apply (shr_rel_comp _ _ _ (iter_pos shr_1 p (shr_1 x))); try lia; [|apply IH].
    apply (shr_rel_comp _ _ _ (shr_1 x)); try lia; [apply shr_1_rel | apply IH].
  - replace (Zpos p~0) with (Zpos p + Zpos p) by lia.
    apply (shr_rel_comp _ _ _ (iter_pos shr_1 p x)); try lia; apply IH.
  - apply shr_1_rel.
Qed.

(** The shift [shr_fexp] applies to an exact mantissa. *)
Lemma shr_fexp_spec (m e : Z) :
  0 <= m ->
  let '(mrs, e') := shr_fexp prec emax m e loc_Exact in
  e' = Z.max e (fexp prec emax (Zdigits2 m + e))
  /\ shr_m mrs = m / 2 ^ (e' - e)
  /\ ((2 ^ (e' - e) | m) -> loc_of_shr_record mrs = loc_Exact).
Proof.
  intros Hm. unfold shr_fexp, shr. cbn [shr_record_of_loc].
  destruct (fexp prec emax (Zdigits2 m + e) - e) as [|p|p] eqn:N.
  - split; [lia|]. rewrite Z.sub_diag. cbn [shr_m]. split; [|reflexivity].
    change (2 ^ 0) with 1. rewrite Z.div_1_r. reflexivity.
  - split; [lia|]. replace (e + Zpos p - e) with (Zpos p) by lia.
    destruct (iter_pos_rel p {| shr_m := m; shr_r := false; shr_s := false |} Hm)
      as [M Fl]. cbn [shr_m shr_r shr_s] in M, Fl. split; [exact M|].
    intros D. destruct (Fl eq_refl eq_refl D) as [Rr Ss].
    destruct (iter_pos shr_1 p _) as [m' r' s']. cbn in Rr, Ss. subst. reflexivity.
  - split; [lia|]. rewrite Z.sub_diag. cbn [shr_m]. split; [|reflexivity].
    change (2 ^ 0) with 1. rewrite Z.div_1_r. reflexivity.
Qed.

Lemma round_nearest_even_cases (m : Z) (l : location) :
  (l = loc_Exact -> round_nearest_even m l = m)
  /\ (round_nearest_even m l = m \/ round_nearest_even m l = m + 1).
Proof.
  split; [intros ->; reflexivity|].
  destruct l as [|[| |]]; cbn; auto. destruct (Z.even m); auto.
Qed.

(** *** Rounding between two integers *)

(** The value of [x] lies between the integers [a] and [b]. *)
Definition within (a b : Z) (x : spec_float) : Prop :=
  match x with
  | S754_zero _ => a <= 0 <= b
  | S754_finite s m e =>
      e <= 0 /\ a * 2 ^ (- e) <= cond_Zopp s (Zpos m) <= b * 2 ^ (- e)
  | _ => False
  end.

Lemma within_weaken (a b a' b' : Z) (x : spec_float) :
  a' <= a -> b <= b' -> within a b x -> within a' b' x.
Proof.
  intros La Lb. destruct x as [s|s| |s m e]; cbn [within]; try tauto; [lia|].
  intros (He & L & U). split; [exact He|].
  pose proof (pow2_pos (- e) ltac:(lia)). nia.
Qed.

(** Rounding a positive number that lies between two integers below
    [2 ^ 53] gives a number between the same integers: they are
    representable, at every exponent the rounding may choose. *)
Lemma binary_round_aux_within (s : bool) (m : positive) (e A B : Z) :
  e <= 0 -> 0 <= A -> B < 2 ^ 53 ->
  A * 2 ^ (- e) <= Zpos m <= B * 2 ^ (- e) ->
  within (if s then - B else A) (if s then - A else B)
    (binary_round_aux prec emax s (Zpos m) e loc_Exact).
Proof.
  intros He HA HB Hm. unfold binary_round_aux.
  pose proof (shr_fexp_spec (Zpos m) e ltac:(lia)) as S1.
  destruct (shr_fexp prec emax (Zpos m) e loc_Exact) as [mrs1 e1].
  destruct S1 as (E1 & M1 & X1).
  assert (e <= e1 <= 0) as He1.
  { pose proof (fexp_nonpos m e B He HB ltac:(lia)). cbn [Zdigits2] in E1. lia. }
  pose proof (pow2_pos (e1 - e) ltac:(lia)) as P1.
  assert (A * 2 ^ (- e1) <= shr_m mrs1 <= B * 2 ^ (- e1)) as Q1.
  { rewrite M1. apply cut_between; [lia|].
    rewrite <- !(rescale _ e e1) by lia. exact Hm. }
  set (m1 := round_nearest_even (shr_m mrs1) (loc_of_shr_record mrs1)).
  assert (A * 2 ^ (- e1) <= m1 <= B * 2 ^ (- e1)) as R1.
  { destruct (round_nearest_even_cases (shr_m mrs1) (loc_of_shr_record mrs1))
      as [Ex [C | C]]; fold m1 in Ex, C; [lia|].
    destruct (Z.eq_dec (Zpos m mod 2 ^ (e1 - e)) 0) as [D | D].
    - apply Z.mod_divide in D; [|lia]. specialize (Ex (X1 D)). lia.
    - assert (~ (2 ^ (e1 - e) | Zpos m)) as N.
      { intros D'. apply D. apply Z.mod_divide; [lia | exact D']. }
      pose proof (cut_strict (Zpos m) (B * 2 ^ (- e1)) (e1 - e) ltac:(lia)) as St.
      rewrite <- (rescale B e e1) in St by lia. specialize (St ltac:(lia) N).
      rewrite <- M1 in St. lia. }
  pose proof (pow2_pos (- e1) ltac:(lia)) as Pe1.
  assert (0 <= m1) as Hm1 by nia.
  pose proof (shr_fexp_spec m1 e1 Hm1) as S2.
  destruct (shr_fexp prec emax m1 e1 loc_Exact) as [mrs2 e2].
  destruct S2 as (E2 & M2 & _).
  assert (e1 <= e2 <= 0) as He2.
  { destruct m1 as [|p1|p1] eqn:Em; [| |lia].
    - cbn [Zdigits2] in E2. unfold fexp, emin, prec, emax in E2. lia.
    - pose proof (fexp_nonpos p1 e1 B ltac:(lia) HB ltac:(lia)).
      cbn [Zdigits2] in E2. lia. }
  assert (A * 2 ^ (- e2) <= shr_m mrs2 <= B * 2 ^ (- e2)) as Q2.
  { rewrite M2. apply cut_between; [lia|].
    rewrite <- !(rescale _ e1 e2) by lia. exact R1. }
  pose proof (pow2_pos (- e2) ltac:(lia)) as Pe2.
  destruct (shr_m mrs2) as [|p2|p2] eqn:Em2.
  - cbn [within]. destruct s; nia.
  - assert ((e2 <=? emax - prec) = true) as ->.
    { apply Z.leb_le. unfold emax, prec. lia. }
    cbn [within]. split; [lia|]. destruct s; cbn [cond_Zopp]; nia.
  - exfalso. nia.
Qed.

Lemma binary_round_within (s : bool) (m : positive) (e a b : Z) :
  e <= 0 -> - 2 ^ 53 < a -> b < 2 ^ 53 ->
  a * 2 ^ (- e) <= cond_Zopp s (Zpos m) <= b * 2 ^ (- e) ->
  within a b (binary_round prec emax s m e).
Proof.
  intros He Ha Hb Hm. unfold binary_round.
  pose proof (shl_align_spec m e (fexp prec emax (Zpos (digits2_pos m) + e))) as Sh.
  destruct (shl_align m e _) as [mz ez]. destruct Sh as [Lz Ez].
  pose proof (pow2_pos (- e) ltac:(lia)) as Pe.
  pose proof (pow2_pos (e - ez) ltac:(lia)) as Pz.
  assert (forall c, c * 2 ^ (- ez) = c * 2 ^ (- e) * 2 ^ (e - ez)) as Rs.
  { intros c. rewrite <- Z.mul_assoc, <- Z.pow_add_r by lia. f_equal. f_equal. lia. }
  destruct s; cbn [cond_Zopp] in Hm.
  - apply (within_weaken (- - a) (- Z.max (- b) 0)); [lia | lia|].
    apply (binary_round_aux_within true mz ez (Z.max (- b) 0) (- a)); try lia.
    rewrite !Rs, Ez. split.
    + apply Z.mul_le_mono_nonneg_r; [lia|]. nia.
    + apply Z.mul_le_mono_nonneg_r; [lia|]. nia.
  - apply (within_weaken (Z.max a 0) b); [lia | lia|].
    apply (binary_round_aux_within false mz ez (Z.max a 0) b); try lia.
    rewrite !Rs, Ez. split.
    + apply Z.mul_le_mono_nonneg_r; [lia|]. nia.
    + apply Z.mul_le_mono_nonneg_r; [lia|]. nia.
Qed.

Lemma binary_normalize_within (M e a b : Z) :
  e <= 0 -> - 2 ^ 53 < a -> b < 2 ^ 53 ->
  a * 2 ^ (- e) <= M <= b * 2 ^ (- e) ->
  within a b (binary_normalize prec emax M e false).
Proof.
  intros He Ha Hb HM. pose proof (pow2_pos (- e) ltac:(lia)) as Pe.
  destruct M as [|m|m]; cbn [binary_normalize].
  - cbn [within]. nia.
  - apply binary_round_within; assumption.
  - apply binary_round_within; assumption.
Qed.

(** *** Sums and conversions *)

Lemma shl_align_le (mx : positive) (ex ex' : Z) :
  ex' <= ex -> Zpos (fst (shl_align mx ex ex')) = Zpos mx * 2 ^ (ex - ex').
Proof.
  intros L. unfold shl_align. destruct (ex' - ex) as [|d|d] eqn:E; cbn [fst].
  - replace (ex - ex') with 0 by lia. cbn. lia.
  - lia.
  - replace (ex - ex') with (Zpos d) by lia. apply iter_xO.
Qed.

Lemma cond_Zopp_mul (s : bool) (m k : Z) : cond_Zopp s (m * k) = cond_Zopp s m * k.
Proof. destruct s; cbn [cond_Zopp]; lia. Qed.

(** The sum of two numbers that lie between integers lies between the sums
    of the integers. *)
Lemma SFadd_within (x y : spec_float) (a b c d : Z) :
  within a b x -> within c d y -> - 2 ^ 53 < a + c -> b + d < 2 ^ 53 ->
  within (a + c) (b + d) (SFadd prec emax x y).
Proof.
  intros Wx Wy La Ub.
  destruct x as [sx|sx| |sx mx ex]; cbn [within] in Wx; try contradiction;
    destruct y as [sy|sy| |sy my ey]; cbn [within] in Wy; try contradiction.
  - destruct sx, sy; cbn; lia.
  - cbn [SFadd]. apply (within_weaken c d); [lia | lia | exact Wy].
  - cbn [SFadd]. apply (within_weaken a b); [lia | lia | exact Wx].
  - cbn [SFadd]. destruct Wx as (Hx & Lx & Ux). destruct Wy as (Hy & Ly & Uy).
    set (ez := Z.min ex ey).
    assert (ez <= ex /\ ez <= ey /\ ez <= 0) as (Zx & Zy & Z0) by (subst ez; lia).
    apply binary_normalize_within; [exact Z0 | exact La | exact Ub|].
    rewrite !shl_align_le by lia. rewrite !cond_Zopp_mul.
    pose proof (pow2_pos (ex - ez) ltac:(lia)) as Px.
    pose proof (pow2_pos (ey - ez) ltac:(lia)) as Py.
    assert (forall t e, ez <= e -> e <= 0 -> t * 2 ^ (- ez) = t * 2 ^ (- e) * 2 ^ (e - ez))
      as Rs.
    { intros t e L1 L2. rewrite <- Z.mul_assoc, <- Z.pow_add_r by lia.
      f_equal. f_equal. lia. }
    rewrite !Z.mul_add_distr_r.
    rewrite (Rs a ex), (Rs b ex), (Rs c ey), (Rs d ey) by lia.
    split; apply Z.add_le_mono; apply Z.mul_le_mono_nonneg_r; lia.
Qed.

Lemma binary_round_opp (m : positive) (e : Z) :
  binary_round prec emax true m e = SFopp (binary_round prec emax false m e).
Proof.
  unfold binary_round. destruct (shl_align m e _) as [mz ez].
  unfold binary_round_aux. destruct (shr_fexp prec emax (Zpos mz) ez loc_Exact) as [mrs1 e1].
  destruct (shr_fexp prec emax _ e1 loc_Exact) as [mrs2 e2].
  destruct (shr_m mrs2); try reflexivity.
  destruct (e2 <=? emax - prec); reflexivity.
Qed.

(** [float(n)] for an integer below [2 ^ 63] in magnitude. *)
Lemma Prim2SF_of_int (y : Z) :
  - 2 ^ 63 < y < 2 ^ 63 ->
  Prim2SF (float_of_Z y) = binary_normalize prec emax y 0 false.
Proof.
  intros Hy.
  assert (forall n : Z, 0 <= n < 2 ^ 63 ->
            Prim2SF (PrimFloat.of_uint63 (Uint63.of_Z n))
            = binary_normalize prec emax n 0 false) as P.
  { intros n Hn. rewrite of_uint63_spec.
    change (Uint63Axioms.to_Z (Uint63.of_Z n)) with (Uint63.to_Z (Uint63.of_Z n)).
    rewrite Uint63.of_Z_spec. rewrite Z.mod_small; [reflexivity|].
    change Uint63.wB with (2 ^ 63). exact Hn. }
  unfold float_of_Z. destruct y as [|p|p].
  - rewrite <- (P 0 ltac:(lia)), SF2Prim_Prim2SF. reflexivity.
  - rewrite <- (P (Zpos p) ltac:(lia)), SF2Prim_Prim2SF. reflexivity.
  - cbn [binary_normalize]. rewrite binary_round_opp.
    change (binary_round prec emax false p 0)
      with (binary_normalize prec emax (Zpos p) 0 false).
    rewrite <- (P (Zpos p) ltac:(lia)), <- opp_spec, SF2Prim_Prim2SF. reflexivity.
Qed.

Lemma of_int_within (y : Z) :
  - 2 ^ 53 < y < 2 ^ 53 -> within y y (Prim2SF (float_of_Z y)).
Proof.
  intros Hy. rewrite Prim2SF_of_int by lia.
  apply binary_normalize_within; try lia.
Qed.

(** The integer part of a magnitude between two integers, and the integer
    above it when a remainder is left. *)
Lemma magnitude_cut (m A B k : Z) :
  0 <= k -> A * 2 ^ k <= m <= B * 2 ^ k ->
  A <= m / 2 ^ k <= B /\ (0 < m - m / 2 ^ k * 2 ^ k -> m / 2 ^ k + 1 <= B).
Proof.
  intros Hk Hm. split; [apply cut_between; assumption|].
  intros Hr. apply cut_strict; [exact Hk | lia|].
  intros [q D]. rewrite D in Hr. rewrite Z.div_mul in Hr; [lia|].
  pose proof (pow2_pos k Hk). lia.
Qed.

Lemma float_trunc_within (x : float) (a b : Z) :
  within a b (Prim2SF x) -> a <= float_trunc x <= b.
Proof.
  unfold float_trunc. destruct (Prim2SF x) as [s|s| |s m e]; cbn [within]; try tauto.
  intros (He & Hm).
  assert ((if 0 <=? e then Z.shiftl (Zpos m) e else Z.shiftr (Zpos m) (- e))
          = Zpos m / 2 ^ (- e)) as ->.
  { destruct (0 <=? e) eqn:Z.
    - apply Z.leb_le in Z. replace e with 0 by lia. cbn. rewrite Z.div_1_r. reflexivity.
    - apply Z.shiftr_div_pow2. lia. }
  destruct s; cbn [cond_Zopp] in Hm.
  - destruct (magnitude_cut (Zpos m) (- b) (- a) (- e) ltac:(lia) ltac:(lia)) as [C _]. lia.
  - destruct (magnitude_cut (Zpos m) a b (- e) ltac:(lia) Hm) as [C _]. lia.
Qed.

Lemma float_round_within (even : bool) (x : float) (a b : Z) :
  within a b (Prim2SF x) -> a <= float_round even x <= b.
Proof.
  unfold float_round. destruct (Prim2SF x) as [s|s| |s m e]; cbn [within]; try tauto.
  intros (He & Hm).
  set (r := if 0 <=? e then Z.shiftl (Zpos m) e else _).
  assert (forall A B, A * 2 ^ (- e) <= Zpos m <= B * 2 ^ (- e) -> A <= r <= B) as Mg.
  { intros A B HAB. subst r. destruct (0 <=? e) eqn:Z.
    - apply Z.leb_le in Z. assert (e = 0) as -> by lia. cbn in *. lia.
    - rewrite Z.shiftr_div_pow2, !Z.shiftl_mul_pow2 by lia. rewrite Z.mul_1_l.
      destruct (magnitude_cut (Zpos m) A B (- e) ltac:(lia) HAB) as [C St].
      pose proof (pow2_pos (- e - 1) ltac:(apply Z.leb_gt in Z; lia)) as Ph.
      set (q := Zpos m / 2 ^ (- e)) in *.
      destruct (Zpos m - q * 2 ^ (- e) <? 2 ^ (- e - 1)) eqn:T1; [exact C|].
      apply Z.ltb_ge in T1.
      destruct (2 ^ (- e - 1) <? Zpos m - q * 2 ^ (- e)) eqn:T2.
      + specialize (St ltac:(lia)). lia.
      + destruct (even && Z.even q); [exact C|]. specialize (St ltac:(lia)). lia. }
  destruct s; cbn [cond_Zopp] in Hm.
  - pose proof (Mg (- b) (- a) ltac:(lia)). lia.
  - pose proof (Mg a b Hm). lia.
Qed.

Lemma to_rect_within (c : Conversion) (x : float) (a b : Z) :
  within a b (Prim2SF x) -> a <= @to_rect float (float_store c) x <= b.
Proof.
  destruct c; cbn [to_rect float_store];
    [apply float_trunc_within | apply float_round_within | apply float_round_within].
Qed.

(** What a Rect keeps of the sum of an integer and a float that lies between
    two integers. *)
Lemma stored_sum (c : Conversion) (y lo hi : Z) (v : float) :
  - 2 ^ 52 <= y <= 2 ^ 52 -> - 2 ^ 51 <= lo -> hi <= 2 ^ 51 ->
  within lo hi (Prim2SF v) ->
  y + lo <= @to_rect float (float_store c) (int_add_float y v) <= y + hi.
Proof.
  intros Hy Hlo Hhi Wv. apply to_rect_within.
  unfold int_add_float. cbn [fadd of_int Binary64]. rewrite add_spec.
  apply SFadd_within; [apply of_int_within | exact Wv | |].
  - change (2 ^ 53) with (2 * 2 ^ 52). lia.
  - change (2 ^ 53) with (2 * 2 ^ 52). lia.
  - change (2 ^ 53) with (2 * 2 ^ 52). lia.
Qed.

Definition withinb (a b : Z) (x : spec_float) : bool :=
  match x with
  | S754_zero _ => (a <=? 0) && (0 <=? b)
  | S754_finite s m e =>
      (e <=? 0) && (a * 2 ^ (- e) <=? cond_Zopp s (Zpos m))
      && (cond_Zopp s (Zpos m) <=? b * 2 ^ (- e))
  | _ => false
  end.

Lemma withinb_within (a b : Z) (x : spec_float) : withinb a b x = true -> within a b x.
Proof.
  destruct x as [s|s| |s m e]; cbn [withinb within]; try discriminate.
  - rewrite andb_true_iff, !Z.leb_le. tauto.
  - rewrite !andb_true_iff, !Z.leb_le. tauto.
Qed.

(** The integer just below a float: its integer part, or one less for a
    negative float that is not an integer. *)
Definition float_floor (x : float) : Z :=
  let t := float_trunc x in
  if withinb t (t + 1) (Prim2SF x) then t else t - 1.

(** *** Sums of numbers that are not negative *)

(** Zero, a positive number or plus infinity. *)
Definition nonneg (x : spec_float) : Prop :=
  match x with
  | S754_zero _ => True
  | S754_infinity s => s = false
  | S754_nan => False
  | S754_finite s _ _ => s = false
  end.

Lemma binary_round_aux_nonneg (m : positive) (e : Z) :
  nonneg (binary_round_aux prec emax false (Zpos m) e loc_Exact).
Proof.
  unfold binary_round_aux.
  pose proof (shr_fexp_spec (Zpos m) e ltac:(lia)) as S1.
  destruct (shr_fexp prec emax (Zpos m) e loc_Exact) as [mrs1 e1].
  destruct S1 as (E1 & M1 & _).
  assert (0 <= shr_m mrs1) as Q1.
  { rewrite M1. apply Z.div_pos; [lia|]. apply pow2_pos. lia. }
  set (m1 := round_nearest_even (shr_m mrs1) (loc_of_shr_record mrs1)).
  assert (0 <= m1) as Hm1.
  { destruct (round_nearest_even_cases (shr_m mrs1) (loc_of_shr_record mrs1))
      as [_ [C | C]]; fold m1 in C; lia. }
  pose proof (shr_fexp_spec m1 e1 Hm1) as S2.
  destruct (shr_fexp prec emax m1 e1 loc_Exact) as [mrs2 e2].
  destruct S2 as (E2 & M2 & _).
  assert (0 <= shr_m mrs2) as Q2.
  { rewrite M2. apply Z.div_pos; [lia|]. apply pow2_pos. lia. }
  destruct (shr_m mrs2) as [|p2|p2]; [exact I | | lia].
  destruct (e2 <=? emax - prec); reflexivity.
Qed.

Lemma SFadd_nonneg (x y : spec_float) :
  nonneg x -> nonneg y -> nonneg (SFadd prec emax x y).
Proof.
  destruct x as [sx|sx| |sx mx ex]; cbn [nonneg]; try contradiction;
    destruct y as [sy|sy| |sy my ey]; cbn [nonneg]; try contradiction; intros Hx Hy;
    subst; cbn [SFadd nonneg]; try reflexivity; try exact I.
  - destruct sx, sy; exact I.
  - cbn [cond_Zopp]. cbn [Z.add binary_normalize]. unfold binary_round.
    destruct (shl_align _ _ _) as [mz ez]. apply binary_round_aux_nonneg.
Qed.

Lemma nonneg_leb (x : float) : nonneg (Prim2SF x) -> (0 <=? x)%float = true.
Proof.
  rewrite leb_spec. change (Prim2SF 0) with (S754_zero false).
  destruct (Prim2SF x) as [s|s| |s m e]; cbn [nonneg]; try contradiction.
  - intros _. reflexivity.
  - intros ->. reflexivity.
  - intros ->. reflexivity.
Qed.

Lemma nonneg_trunc (x : float) : nonneg (Prim2SF x) -> 0 <= float_trunc x.
Proof.
  unfold float_trunc. destruct (Prim2SF x) as [s|s| |s m e]; cbn [nonneg]; try lia.
  intros ->. destruct (0 <=? e).
  - apply Z.shiftl_nonneg. lia.
  - apply Z.shiftr_nonneg. lia.
Qed.

End FloatFacts.

(** * Properties *)

(** The two arithmetics on the first frame of a jump: -15 + 0.6 is stored in
    a Rect as -14. *)
Example float_of_Z_1500 : float_trunc (float_of_Z 1500) = 1500.
Proof. vm_compute. reflexivity. Qed.

Example trunc_float_neg : float_trunc (fadd (of_int (-15)) (dec 6 10)) = -14.
Proof. vm_compute. reflexivity. Qed.

Example trunc_exact_neg : Qtrunc (fadd (of_int (-15)) (dec 6 10)) = -14.
Proof. vm_compute. reflexivity. Qed.

(** ** Coordinate mapper *)

Module MapperFacts.
Import Mapper.

Lemma Qtrunc_zero_mul (s : Q) : trunc (int_mul_float 0 s) = 0.
Proof. reflexivity. Qed.

Lemma Qtrunc_rescale (p : positive) (d : Z) :
  trunc (F:=Q) (int_mul_float (Zpos p) (fdiv (of_int d) (of_int (Zpos p)))) = d.
Proof.
  change (@trunc Q Exact) with Qtrunc.
  unfold Qtrunc, int_mul_float. cbn [fmul fdiv of_int Exact].
  unfold Qdiv, Qinv, Qmult, inject_Z. cbn [Qnum Qden].
  rewrite Z.mul_1_r, Pos.mul_1_l, Z.mul_comm.
  apply Z.quot_mul. discriminate.
Qed.

Lemma float_trunc_zero_mul (s : float) : trunc (int_mul_float 0 s) = 0.
Proof.
  change (@trunc float Binary64) with float_trunc.
  unfold float_trunc, int_mul_float. cbn [fmul of_int Binary64].
  rewrite mul_spec.
  change (Prim2SF (float_of_Z 0)) with (S754_zero false).
  destruct (Prim2SF s) as [sg | sg | | sg m e]; reflexivity.
Qed.

Lemma truediv_some {F} `{PyFloat F} (a b : Z) :
  b <> 0 -> truediv a b = Some (fdiv (of_int a) (of_int b)).
Proof. intros Hb. unfold truediv. apply Z.eqb_neq in Hb. rewrite Hb. reflexivity. Qed.

(** The transform of [init_balloons_game] is the transform from the
    background image onto the screen, moved to the corner of the overlay. *)
Lemma init_cam_transform_between {F} `{PyFloat F} (W Hs bw bh sx sy : Z) (T : CamTransform F) :
  init_cam_transform W Hs bw bh sx sy = Some T ->
  transform_between bw bh
    (Py.mkRect (translation_x_cam T) (translation_y_cam T) W Hs) = Some T.
Proof.
  unfold init_cam_transform, transform_between. cbn [Py.width Py.height Py.rw Py.rh].
  destruct (truediv W bw) as [a|]; [|discriminate].
  destruct (truediv Hs bh) as [b|]; [|discriminate].
  intros E. injection E as <-. reflexivity.
Qed.

Lemma exact_corners (sw sh : Z) (dest : Py.Rect) :
  0 < sw -> 0 < sh -> corners_onto_corners (F:=Q) sw sh dest.
Proof.
  intros Hw Hh. unfold corners_onto_corners, transform_between.
  rewrite !truediv_some by lia.
  eexists. split; [reflexivity|].
  destruct sw as [|pw|pw]; try lia. destruct sh as [|ph|ph]; try lia.
  unfold map_point.
  cbn [fst snd scale_x_cam scale_y_cam translation_x_cam translation_y_cam].
  rewrite !Qtrunc_zero_mul, !Qtrunc_rescale.
  unfold Py.right, Py.bottom, Py.left, Py.top, Py.width, Py.height.
  repeat split; f_equal; lia.
Qed.

Lemma binary64_origin (sw sh : Z) (dest : Py.Rect) :
  0 < sw -> 0 < sh -> origin_onto_origin (F:=float) sw sh dest.
Proof.
  intros Hw Hh. unfold origin_onto_origin, transform_between.
  rewrite !truediv_some by lia.
  eexists. split; [reflexivity|].
  unfold map_point.
  cbn [fst snd scale_x_cam scale_y_cam translation_x_cam translation_y_cam].
  rewrite !float_trunc_zero_mul. reflexivity.
Qed.

(** A background of 2000 x 1500 shown on a screen of 1536 x 864: the bottom
    edge of the source is sent to row 863. *)
Example short_corner :
  option_map (fun T => map_point T (2000, 1500))
    (transform_between (F:=float) 2000 1500 (Py.mkRect 0 0 1536 864))
  = Some (1536, 863).
Proof. vm_compute. reflexivity. Qed.

(** C6, as stated, fails on the program's arithmetic: with double-precision
    scale factors the corner property does not hold for every pair of
    positive-size rectangles (source 2000 x 1500, destination 1536 x 864). *)
Lemma corner_property_fails_binary64 : ~ corner_property float.
Proof.
  intros P.
  destruct (P 2000 1500 (Py.mkRect 0 0 1536 864)) as (T & E & _ & _ & _ & C);
    cbn; try lia.
  pose proof short_corner as S. rewrite E in S. cbn [option_map] in S.
  rewrite C in S. vm_compute in S. discriminate S.
Qed.

(** C6 (amended): for source and destination rectangles of positive size the
    mapping (scale by dest.size / source.size, truncate, translate by the
    destination origin) sends the four corners of the source exactly onto the
    four corners of the destination when the scale is computed without
    rounding, and with the program's double-precision scale it still sends the
    source origin exactly onto the destination origin. *)
Theorem mapper_corners (source_w source_h : Z) (dest : Py.Rect) :
  0 < source_w -> 0 < source_h -> 0 < Py.width dest -> 0 < Py.height dest ->
  corners_onto_corners (F:=Q) source_w source_h dest /\
  origin_onto_origin (F:=float) source_w source_h dest.
Proof.
  intros Hw Hh _ _. split; [apply exact_corners | apply binary64_origin]; assumption.
Qed.

Lemma mapper_corners_witness :
  corners_onto_corners (F:=Q) 2000 1500 (Py.mkRect 473 361 1536 864) /\
  origin_onto_origin (F:=float) 2000 1500 (Py.mkRect 473 361 1536 864).
Proof. apply mapper_corners; cbn; lia. Defined.

End MapperFacts.

(** ** Balloon engine *)

Module BalloonsFacts.
Import Balloons.

Lemma finger_loop_untouched (b : Balloon) (score : Z) (fingers : list Py.Rect) :
  existsb (Py.colliderect (rect b)) fingers = false ->
  finger_loop b score fingers = (b, score).
Proof.
  induction fingers as [|f fs IH]; cbn; [reflexivity|].
  intros E. apply orb_false_iff in E as [E1 E2]. rewrite E1. apply IH, E2.
Qed.

Lemma finger_loop_touched (b : Balloon) (score : Z) (fingers : list Py.Rect) :
  0 <= score ->
  existsb (Py.colliderect (rect b)) fingers = true ->
  finger_loop b score fingers = (set_popped b, score + pop_points (type b)).
Proof.
  intros Hs. induction fingers as [|f fs IH]; cbn; [discriminate|].
  destruct (Py.colliderect (rect b) f); cbn.
  - intros _. f_equal.
    destruct (type b =? 1) eqn:E1; [apply Z.eqb_eq in E1; rewrite E1; cbn; lia|].
    destruct (type b =? 2) eqn:E2; [apply Z.eqb_eq in E2; rewrite E2; cbn; lia|].
    destruct (type b =? 3) eqn:E3; [apply Z.eqb_eq in E3; rewrite E3; cbn; lia|].
    apply Z.eqb_neq in E1, E2, E3.
    assert (pop_points (type b) = 1) as ->; [|lia].
    unfold pop_points. destruct (type b) as [|p|p]; try reflexivity.
    destruct p as [[|[]|]|[|[]|]|]; try reflexivity; congruence.
  - exact IH.
Qed.

Lemma finger_loop_nonneg (b : Balloon) (score : Z) (fingers : list Py.Rect) :
  0 <= score -> 0 <= snd (finger_loop b score fingers).
Proof.
  intros Hs. induction fingers as [|f fs IH]; cbn; [exact Hs|].
  destruct (Py.colliderect (rect b) f); [|exact IH]. cbn.
  repeat match goal with |- context [if ?c then _ else _] => destruct c end; lia.
Qed.

Lemma loop_body_nonneg (sy el : Z) (fingers : list Py.Rect) (b : Balloon) (score : Z) :
  0 <= score -> 0 <= snd (fst (loop_body sy el fingers b score)).
Proof.
  intros Hs. unfold loop_body.
  destruct (el <? time b); [exact Hs|].
  destruct (is_popped b); [exact Hs|].
  destruct (Py.top (rect b) <=? sy + Py.height (rect b)).
  - cbn. destruct (is_combo b); cbn; lia.
  - pose proof (finger_loop_nonneg
      (set_rect b (Py.move_ip (rect b) 0 (- speed b))) score fingers Hs) as P.
    destruct (finger_loop _ score fingers) as [b' s']. exact P.
Qed.

Lemma balloons_loop_nonneg (sy el : Z) (fingers : list Py.Rect) (bs : list Balloon) :
  forall score, 0 <= score -> 0 <= snd (balloons_loop sy el fingers bs score).
Proof.
  induction bs as [|b rest IH]; intros score Hs; cbn; [exact Hs|].
  pose proof (loop_body_nonneg sy el fingers b score Hs) as P.
  destruct (loop_body sy el fingers b score) as [[b' s'] fl]. cbn in P.
  destruct fl.
  - specialize (IH s' P).
    destruct (balloons_loop sy el fingers rest s') as [rest' s'']. exact IH.
  - exact P.
Qed.

Lemma balloons_loop_length (sy el : Z) (fingers : list Py.Rect) (bs : list Balloon) :
  forall score,
    List.length (fst (balloons_loop sy el fingers bs score)) = List.length bs.
Proof.
  induction bs as [|b rest IH]; intros score; cbn; [reflexivity|].
  destruct (loop_body sy el fingers b score) as [[b' s'] fl].
  destruct fl; cbn; [|reflexivity].
  specialize (IH s'). destruct (balloons_loop sy el fingers rest s'). cbn in *. lia.
Qed.

(** A balloon that does not leave the field lets the loop go on. *)
Lemma loop_body_next (sy el : Z) (fingers : list Py.Rect) (b : Balloon) (score : Z) :
  in_play el b && at_top sy b = false ->
  snd (loop_body sy el fingers b score) = Next.
Proof.
  unfold in_play, at_top, loop_body. intros E.
  destruct (el <? time b); [reflexivity|].
  destruct (is_popped b); [reflexivity|].
  cbn in E. rewrite E.
  destruct (finger_loop _ score fingers). reflexivity.
Qed.

(** The loop over a list in whose first part no balloon leaves the field is
    the loop over that part followed by the loop over the rest. *)
Lemma balloons_loop_app (sy el : Z) (fingers : list Py.Rect) (pre rest : list Balloon) :
  none_leaves sy el pre = true ->
  forall score,
    balloons_loop sy el fingers (pre ++ rest) score =
    (fst (balloons_loop sy el fingers pre score)
       ++ fst (balloons_loop sy el fingers rest
                 (snd (balloons_loop sy el fingers pre score))),
     snd (balloons_loop sy el fingers rest
            (snd (balloons_loop sy el fingers pre score)))).
Proof.
  induction pre as [|b pre IH]; intros Hn score.
  - cbn. destruct (balloons_loop sy el fingers rest score); reflexivity.
  - cbn in Hn. apply andb_true_iff in Hn as [Hb Hn].
    apply negb_true_iff in Hb.
    pose proof (loop_body_next sy el fingers b score Hb) as Nx.
    cbn [app balloons_loop].
    destruct (loop_body sy el fingers b score) as [[b' s'] fl]. cbn in Nx. subst fl.
    rewrite (IH Hn s').
    destruct (balloons_loop sy el fingers pre s') as [pre' s1]. cbn [fst snd].
    destruct (balloons_loop sy el fingers rest s1) as [rest' s2]. reflexivity.
Qed.


Definition plain_at (x y : Z) : Balloon :=
  mkBalloon (Py.mkRect x y 100 100) 5 0 false 0 false.

Definition combo_at (x y tier : Z) : Balloon :=
  mkBalloon (Py.mkRect x y 100 100) 12 0 true tier false.




(** The sentence of the specification about the fingers: in a pass, every
    balloon in play under a finger is marked popped. *)
Definition every_touched_balloon_pops : Prop :=
  forall (sy el : Z) (fingers : list Py.Rect) (pre post : list Balloon) (b : Balloon)
         (score : Z),
    0 <= score -> in_play el b = true -> touched fingers b = true ->
    exists b',
      nth_error (fst (balloons_loop sy el fingers (pre ++ b :: post) score))
        (List.length pre) = Some b'
      /\ is_popped b' = true.

(** The sentence about the points: popping a balloon under a finger adds its
    points to the score. *)
Definition every_touched_balloon_scores : Prop :=
  forall (sy el : Z) (fingers : list Py.Rect) (b : Balloon) (score : Z),
    0 <= score -> in_play el b = true -> touched fingers b = true ->
    snd (balloons_loop sy el fingers [b] score) = score + pop_points (type b).


(** The sentence of the specification about the top of the field: in a pass,
    every balloon in play that has reached the top is marked popped. *)
Definition every_escaped_balloon_is_marked : Prop :=
  forall (sy el : Z) (fingers : list Py.Rect) (pre post : list Balloon) (b : Balloon)
         (score : Z),
    0 <= score -> in_play el b = true -> at_top sy b = true ->
    exists b',
      nth_error (fst (balloons_loop sy el fingers (pre ++ b :: post) score))
        (List.length pre) = Some b'
      /\ is_popped b' = true.

(** Five balloons of a first wave that have reached the top together at the
    twentieth second. *)
Definition escaping_game : Game :=
  mkGame 7 1 [map (fun x => plain_at x 290) [100; 300; 500; 700; 900]; []; []; []; []]
    200 20 5.


Lemma insert_by_time_length (b : Balloon) (l : list Balloon) :
  List.length (insert_by_time b l) = S (List.length l).
Proof.
  induction l as [|c r IH]; cbn; [reflexivity|].
  destruct (time b <=? time c); cbn; [reflexivity|]. rewrite IH. reflexivity.
Qed.

Lemma sort_by_time_length (l : list Balloon) :
  List.length (sort_by_time l) = List.length l.
Proof.
  induction l as [|b r IH]; cbn; [reflexivity|].
  rewrite insert_by_time_length, IH. reflexivity.
Qed.

(** What the code tests to close a wave: the list is empty or the time is up;
    whether the balloons are popped plays no part. *)
Lemma tick_keeps_playing (g : Game) (el : Z) (fingers : list Py.Rect) (wave : list Balloon) :
  index (waves_balloons g) (balloons_wave g - 1) = Some wave ->
  wave <> [] -> el <= max_wave_time g ->
  exists g', tick g el fingers = Some (g', Playing)
             /\ balloons_wave g' = balloons_wave g.
Proof.
  intros Hi Hne Hel. unfold tick. rewrite Hi.
  pose proof (balloons_loop_length (start_y_cam g) el fingers (sort_by_time wave)
                (balloons_score g)) as L.
  destruct (balloons_loop _ el fingers (sort_by_time wave) (balloons_score g))
    as [bs sc]. cbn [fst] in L. rewrite sort_by_time_length in L.
  assert ((Z.of_nat (List.length bs) =? 0) = false) as ->.
  { apply Z.eqb_neq. destruct wave; [congruence|]. cbn in L. lia. }
  assert ((el >? max_wave_time g) = false) as ->.
  { rewrite Z.gtb_ltb. apply Z.ltb_ge. exact Hel. }
  cbn [orb]. eexists. split; reflexivity.
Qed.

Lemma balloons_tick_nonneg (g g' : Game) (el : Z) (fingers : list Py.Rect) (scr : Screen) :
  0 <= balloons_score g -> tick g el fingers = Some (g', scr) ->
  0 <= balloons_score g'.
Proof.
  intros Hs. unfold tick.
  destruct (index (waves_balloons g) (balloons_wave g - 1)) as [wave|]; [|discriminate].
  pose proof (balloons_loop_nonneg (start_y_cam g) el fingers (sort_by_time wave)
                (balloons_score g) Hs) as P.
  destruct (balloons_loop _ el fingers (sort_by_time wave) (balloons_score g))
    as [bs sc]. cbn [snd] in P.
  destruct ((Z.of_nat (List.length bs) =? 0) || (el >? max_wave_time g));
    intros E; injection E as <- _; exact P.
Qed.

Lemma balloons_run_nonneg (inputs : list (Z * list Py.Rect)) :
  forall g, 0 <= balloons_score g -> 0 <= balloons_score (run g inputs).
Proof.
  induction inputs as [|[el fingers] rest IH]; intros g Hs; cbn; [exact Hs|].
  destruct (tick g el fingers) as [[g' scr]|] eqn:E; [|exact Hs].
  pose proof (balloons_tick_nonneg g g' el fingers scr Hs E) as P.
  destruct scr; try (apply IH; exact P).
  cbn. lia.
Qed.

(** A first wave of five balloons that all appear at once under one finger. *)
Definition crowded_wave : list Balloon :=
  [plain_at 400 640; combo_at 400 640 1; plain_at 400 640;
   combo_at 400 640 3; plain_at 400 640].

Definition crowded_game : Game :=
  init_balloons_game 200 [crowded_wave; []; []; []; []].

Definition finger : Py.Rect := Py.mkRect 420 650 20 20.

(** After the pass that pops them all. *)
Definition cleared_game : Game :=
  mkGame 10 1
    [map (fun b => set_popped (set_rect b (moved_rect b))) crowded_wave; []; []; []; []]
    200 20 5.

(** C3 (code evaluated at the failing input): a wave whose five balloons are
    all popped in the first second stays open; the pass at 20 seconds still
    keeps playing wave 1, and only the pass at 21 seconds closes it. *)
Theorem wave_outlives_its_balloons :
  tick crowded_game 0 [finger] = Some (cleared_game, Playing)
  /\ option_map all_resolved (index (waves_balloons cleared_game) 0) = Some true
  /\ tick cleared_game 1 [finger] = Some (cleared_game, Playing)
  /\ tick cleared_game 20 [] = Some (cleared_game, Playing)
  /\ option_map (fun r => (balloons_wave (fst r), snd r)) (tick cleared_game 21 [])
     = Some (2, Countdown).
Proof. repeat split; vm_compute; reflexivity. Qed.

End BalloonsFacts.

(** ** Hand-position provider *)

Module HandTrackingFacts.
Import HandTracking.

(** A record is well formed when only the default record lacks a list. *)
Definition wf (r : HandRecord) : Prop :=
  match lmsList r with
  | NoList _ => side r = "nth"%string
  | LmsList _ => True
  end.

Lemma wf_nth_record : wf nth_record.
Proof. reflexivity. Qed.

Section Provider.
Context {F : Type} `{PyFloat F}.

Lemma assign_side_wf (size_frame : Z) (lms : list (Z * Z * Z)) (box : Z * Z * Z * Z)
  (c : Z * Z) (hd : HandRecord * HandRecord) :
  wf (fst hd) -> wf (snd hd) ->
  wf (fst (assign_side size_frame lms box c hd))
  /\ wf (snd (assign_side size_frame lms box c hd)).
Proof.
  intros W1 W2. unfold assign_side.
  destruct (fst c <? size_frame / 2); [split; [exact I | exact W2]|].
  destruct (fst c >? size_frame / 2); [split; [exact W1 | exact I]|].
  split; assumption.
Qed.

Lemma hands_loop_wf (maxHands w h size_frame : Z) (hands : list (Hand F)) :
  forall handNo hd hd',
    wf (fst hd) -> wf (snd hd) ->
    hands_loop maxHands w h size_frame handNo hands hd = Some hd' ->
    wf (fst hd') /\ wf (snd hd').
Proof.
  induction hands as [|hand rest IH]; intros handNo hd hd' W1 W2; cbn.
  - intros E. injection E as <-. split; assumption.
  - destruct (handNo >=? maxHands); [intros E; injection E as <-; split; assumption|].
    destruct (hand_box (landmarks_px w h 0 hand)) as [[box c]|]; [|discriminate].
    destruct (assign_side_wf size_frame (landmarks_px w h 0 hand) box c hd W1 W2)
      as [V1 V2].
    apply IH; assumption.
Qed.

Lemma findPosition_wf (maxHands w h size_frame : Z) (hands : list (Hand F))
  (hd : HandRecord * HandRecord) :
  findPosition maxHands w h size_frame hands = Some hd -> wf (fst hd) /\ wf (snd hd).
Proof. apply hands_loop_wf; exact wf_nth_record. Qed.

Lemma landmarks_px_nonempty (w h id : Z) (hand : Hand F) :
  hand <> [] -> landmarks_px w h id hand <> [].
Proof. destruct hand as [|[x y] r]; [congruence|]. cbn. discriminate. Qed.

Lemma hand_box_some (lms : list (Z * Z * Z)) :
  lms <> [] -> exists box c, hand_box lms = Some (box, c).
Proof.
  destruct lms as [|t r]; [congruence|]. intros _.
  unfold hand_box. cbn. eexists. eexists. reflexivity.
Qed.

(** A detector that gives every hand its landmarks never makes the provider
    fail. *)
Lemma hands_loop_total (maxHands w h size_frame : Z) (hands : list (Hand F)) :
  Forall (fun hand => hand <> []) hands ->
  forall handNo hd, exists hd',
    hands_loop maxHands w h size_frame handNo hands hd = Some hd'.
Proof.
  induction 1 as [|hand rest Hh _ IH]; intros handNo hd; cbn.
  - eexists. reflexivity.
  - destruct (handNo >=? maxHands); [eexists; reflexivity|].
    destruct (hand_box_some (landmarks_px w h 0 hand)) as (box & c & E).
    { apply landmarks_px_nonempty, Hh. }
    rewrite E. apply IH.
Qed.

(** The three cases of the loop body, and what they mean for the first hand
    of a frame. *)
Lemma hand_sides (size_frame : Z) (lms : list (Z * Z * Z)) (box : Z * Z * Z * Z)
  (c : Z * Z) (hd : HandRecord * HandRecord) :
  let half := size_frame / 2 in
  let hd' := assign_side size_frame lms box c hd in
  let found label := mkHandRecord (LmsList lms) (Some box) c label in
  (fst c < half -> hd' = (found "left"%string, snd hd))
  /\ (fst c > half -> hd' = (fst hd, found "right"%string))
  /\ (fst c = half -> hd' = hd)
  /\ (hd = (nth_record, nth_record) ->
      (side (fst hd') = "left"%string <-> fst c < half)
      /\ (side (snd hd') = "right"%string <-> fst c > half)).
Proof.
  cbn zeta. unfold assign_side.
  destruct (fst c <? size_frame / 2) eqn:L;
    [apply Z.ltb_lt in L | apply Z.ltb_ge in L].
  - repeat split; try lia; try reflexivity; intros; subst; cbn in *;
      try discriminate; try lia.
  - destruct (fst c >? size_frame / 2) eqn:G; rewrite Z.gtb_ltb in G;
      [apply Z.ltb_lt in G | apply Z.ltb_ge in G].
    + repeat split; try lia; try reflexivity; intros; subst; cbn in *;
        try discriminate; try lia.
    + repeat split; try lia; try reflexivity; intros; subst; cbn in *;
        try discriminate; try lia.
Qed.

Lemma centred_hand_alone (maxHands w h size_frame : Z) (hand : Hand F)
  (box : Z * Z * Z * Z) (c : Z * Z) :
  hand_box (landmarks_px w h 0 hand) = Some (box, c) ->
  fst c = size_frame / 2 ->
  findPosition maxHands w h size_frame [hand] = Some (nth_record, nth_record).
Proof.
  intros Hb Hc. unfold findPosition. cbn [hands_loop].
  destruct (0 >=? maxHands); [reflexivity|].
  rewrite Hb. unfold assign_side. rewrite Hc, Z.ltb_irrefl, Z.gtb_ltb, Z.ltb_irrefl.
  reflexivity.
Qed.

(** The loop over a list all of whose hands are looked at (none is past
    [maxHands]) followed by further hands is the loop over the list, and then
    the loop over the further hands. *)
Lemma hands_loop_app (maxHands w h size_frame : Z) (pre post : list (Hand F)) :
  forall handNo hd,
    handNo + Z.of_nat (List.length pre) <= maxHands ->
    hands_loop maxHands w h size_frame handNo (pre ++ post) hd
    = match hands_loop maxHands w h size_frame handNo pre hd with
      | Some hd1 =>
          hands_loop maxHands w h size_frame (handNo + Z.of_nat (List.length pre)) post hd1
      | None => None
      end.
Proof.
  induction pre as [|hand pre IH]; intros handNo hd L.
  - cbn [app hands_loop List.length Z.of_nat]. rewrite Z.add_0_r. reflexivity.
  - cbn [List.length] in L. rewrite Nat2Z.inj_succ in L.
    cbn [app hands_loop].
    assert ((handNo >=? maxHands) = false) as ->.
    { rewrite Z.geb_leb. apply Z.leb_gt. lia. }
    destruct (hand_box (landmarks_px w h 0 hand)) as [[box c]|]; [|reflexivity].
    rewrite IH by lia. cbn [List.length]. rewrite Nat2Z.inj_succ.
    replace (handNo + 1 + Z.of_nat (List.length pre))
      with (handNo + Z.succ (Z.of_nat (List.length pre))) by lia.
    reflexivity.
Qed.

(** A hand whose bounding-box centre is on the column [size_frame // 2]. *)
Definition centred (w h size_frame : Z) (hand : Hand F) : Prop :=
  exists box c, hand_box (landmarks_px w h 0 hand) = Some (box, c)
                /\ fst c = size_frame / 2.

Lemma hands_loop_centred (maxHands w h size_frame : Z) (hands : list (Hand F)) :
  Forall (centred w h size_frame) hands ->
  forall handNo hd, hands_loop maxHands w h size_frame handNo hands hd = Some hd.
Proof.
  induction 1 as [|hand rest (box & c & Hb & Hc) _ IH]; intros handNo hd; cbn [hands_loop].
  - reflexivity.
  - destruct (handNo >=? maxHands); [reflexivity|].
    rewrite Hb. unfold assign_side. rewrite Hc, Z.ltb_irrefl, Z.gtb_ltb, Z.ltb_irrefl.
    apply IH.
Qed.

End Provider.

End HandTrackingFacts.

(** ** Pong engine *)

Module PongFacts.
Import HandTracking HandTrackingFacts Pong.

Lemma choice_serve (draw : nat) :
  Py.choice 7 serve_speeds draw = -7 \/ Py.choice 7 serve_speeds draw = 7.
Proof.
  unfold Py.choice, serve_speeds. cbn [List.length].
  pose proof (Nat.mod_upper_bound draw 2 ltac:(discriminate)) as B.
  destruct (draw mod 2)%nat as [|[|n]]; cbn; [left | right | lia]; reflexivity.
Qed.

Section Engine.
Context {F : Type} `{PyFloat F}.

Lemma hand_present_wf (r : HandRecord) (label : string) :
  wf r -> label <> "nth"%string -> exists b, hand_present r label = Some b.
Proof.
  unfold wf, hand_present. intros W L.
  destruct (String.eqb (side r) label) eqn:E; [|eexists; reflexivity].
  apply String.eqb_eq in E.
  destruct (lmsList r); [congruence|]. cbn. eexists. reflexivity.
Qed.

Lemma move_paddles_keeps (c : Config F) (hd : HandRecord * HandRecord) (s s' : State F) :
  move_paddles c hd s = Some s' ->
  player1_score s' = player1_score s /\ player2_score s' = player2_score s.
Proof.
  unfold move_paddles.
  destruct (hand_present (fst hd) "left"); [|discriminate].
  destruct (hand_present (snd hd) "right"); [|discriminate].
  intros E. injection E as <-. split; reflexivity.
Qed.

Lemma ramp_keeps (c : Config F) (i : Input F) (s : State F) :
  player1_score (ramp c i s) = player1_score s
  /\ player2_score (ramp c i s) = player2_score s
  /\ paddle1_y (ramp c i s) = paddle1_y s
  /\ paddle2_y (ramp c i s) = paddle2_y s.
Proof. unfold ramp. destruct (float_gt_int _ _); repeat split. Qed.

Lemma hit_paddles_keeps (c : Config F) (s : State F) :
  player1_score (hit_paddles c s) = player1_score s
  /\ player2_score (hit_paddles c s) = player2_score s
  /\ paddle1_y (hit_paddles c s) = paddle1_y s
  /\ paddle2_y (hit_paddles c s) = paddle2_y s.
Proof.
  unfold hit_paddles.
  destruct (Py.colliderect _ _); [repeat split|].
  destruct (Py.colliderect _ _); repeat split.
Qed.

Lemma before_goals_keeps (c : Config F) (i : Input F) (s s2 : State F) :
  before_goals c i s = Some s2 ->
  player1_score s2 = player1_score s /\ player2_score s2 = player2_score s.
Proof.
  unfold before_goals.
  destruct (findPosition _ _ _ _ _) as [hd|]; [|discriminate].
  destruct (move_paddles c hd (ramp c i s)) as [s1|] eqn:M; [|discriminate].
  intros E. injection E as <-.
  destruct (move_paddles_keeps c hd _ s1 M) as [A B].
  destruct (ramp_keeps c i s) as (A' & B' & _).
  destruct (hit_paddles_keeps c (move_ball c s1)) as (A'' & B'' & _).
  rewrite A'', B''. cbn [move_ball player1_score player2_score].
  rewrite A, B, A', B'. split; reflexivity.
Qed.

(** With a detector that gives every hand its landmarks a pass never fails. *)
Lemma before_goals_total (c : Config F) (i : Input F) (s : State F) :
  Forall (fun hand => hand <> []) (hands i) ->
  exists s2, before_goals c i s = Some s2.
Proof.
  intros Hh. unfold before_goals, findPosition.
  destruct (hands_loop_total (maxHands c) (camera_width c) (camera_height c)
              (camera_width c) (hands i) Hh 0 (nth_record, nth_record)) as [hd E].
  rewrite E.
  destruct (findPosition_wf _ _ _ _ _ _ E) as [W1 W2].
  unfold move_paddles.
  destruct (hand_present_wf (fst hd) "left" W1 ltac:(discriminate)) as [b1 ->].
  destruct (hand_present_wf (snd hd) "right" W2 ltac:(discriminate)) as [b2 ->].
  eexists. reflexivity.
Qed.

Lemma goals_scores (c : Config F) (i : Input F) (s : State F) :
  (player1_score (goals c i s) = player1_score s
   \/ player1_score (goals c i s) = player1_score s + 1)
  /\ (player2_score (goals c i s) = player2_score s
      \/ player2_score (goals c i s) = player2_score s + 1).
Proof.
  unfold goals. destruct (exits_left c s); [cbn; split; [left | right]; reflexivity|].
  destruct (exits_right c s); cbn; split; (left; reflexivity) || (right; reflexivity).
Qed.

Lemma pong_tick_nonneg (c : Config F) (i : Input F) (s : State F) (r : Session F) :
  0 <= player1_score s -> 0 <= player2_score s ->
  tick c i s = Some r ->
  0 <= player1_score (session_state r) /\ 0 <= player2_score (session_state r).
Proof.
  intros H1 H2. unfold tick.
  destruct (before_goals c i s) as [s2|] eqn:B; [|discriminate].
  destruct (before_goals_keeps c i s s2 B) as [A1 A2].
  destruct (goals_scores c i s2) as [G1 G2].
  destruct (_ || _); intros E; injection E as <-; cbn [session_state]; lia.
Qed.

Lemma pong_run_nonneg (c : Config F) (inputs : list (Input F)) :
  forall (s : State F) (r : Session F),
    0 <= player1_score s -> 0 <= player2_score s ->
    run c inputs s = Some r ->
    0 <= player1_score (session_state r) /\ 0 <= player2_score (session_state r).
Proof.
  induction inputs as [|i rest IH]; intros s r H1 H2; cbn.
  - intros E. injection E as <-. cbn. split; assumption.
  - destruct (tick c i s) as [[s'|s' shown]|] eqn:T; [| |discriminate].
    + destruct (pong_tick_nonneg c i s _ H1 H2 T) as [A B]. apply IH; assumption.
    + intros E. injection E as <-. exact (pong_tick_nonneg c i s _ H1 H2 T).
Qed.

(** C2: in a round with [max_score = 1] and no point scored yet, a pass in
    which the ball is at or beyond the left edge of the play field when the
    exits are tested gives player 2 exactly one point (and player 1 none),
    puts the ball back at the centre of the field with each speed component
    drawn from -7 and 7, and ends the round on the game-over screen, which
    shows "Player 2 wins". *)
Theorem left_exit_ends_round (c : Config F) (i : Input F) (s s2 : State F) :
  max_score c = 1 ->
  player1_score s = 0 -> player2_score s = 0 ->
  before_goals c i s = Some s2 ->
  exits_left c s2 = true ->
  exists s3,
    tick c i s = Some (GameOver s3 "Player 2 wins")
    /\ player2_score s3 = 1
    /\ player1_score s3 = 0
    /\ ball_x s3 = Py.centerx (play_field_rect c)
    /\ ball_y s3 = Py.centery (play_field_rect c)
    /\ (ball_speed_x s3 = -7 \/ ball_speed_x s3 = 7)
    /\ (ball_speed_y s3 = -7 \/ ball_speed_y s3 = 7).
Proof.
  intros Hm H1 H2 B X.
  destruct (before_goals_keeps c i s s2 B) as [A1 A2].
  exists (goals c i s2). unfold tick. rewrite B.
  unfold goals. rewrite X. unfold winner_text, winner.
  cbn [serve player1_score player2_score ball_x ball_y ball_speed_x ball_speed_y].
  rewrite A1, A2, H1, H2, Hm. cbn.
  repeat split; apply choice_serve.
Qed.

Lemma goals_paddles (c : Config F) (i : Input F) (s : State F) :
  paddle1_y (goals c i s) = paddle1_y s /\ paddle2_y (goals c i s) = paddle2_y s.
Proof.
  unfold goals. destruct (exits_left c s); [split; reflexivity|].
  destruct (exits_right c s); split; reflexivity.
Qed.

(** A pass whose provider returns the two default records moves no paddle. *)
Lemma tick_without_hands (c : Config F) (i : Input F) (s : State F) :
  findPosition (maxHands c) (camera_width c) (camera_height c) (camera_width c) (hands i)
    = Some (nth_record, nth_record) ->
  exists r, tick c i s = Some r
            /\ paddle1_y (session_state r) = paddle1_y s
            /\ paddle2_y (session_state r) = paddle2_y s.
Proof.
  intros E. unfold tick, before_goals. rewrite E.
  unfold move_paddles. cbn [fst snd hand_present nth_record side String.eqb Ascii.eqb
                             Bool.eqb].
  set (s1 := mkState _ _ _ _ _ _ _ _ _).
  destruct (goals_paddles c i (hit_paddles c (move_ball c s1))) as [G1 G2].
  destruct (hit_paddles_keeps c (move_ball c s1)) as (_ & _ & P1 & P2).
  destruct (ramp_keeps c i s) as (_ & _ & R1 & R2).
  assert (paddle1_y (goals c i (hit_paddles c (move_ball c s1))) = paddle1_y s) as Q1.
  { rewrite G1, P1. cbn. exact R1. }
  assert (paddle2_y (goals c i (hit_paddles c (move_ball c s1))) = paddle2_y s) as Q2.
  { rewrite G2, P2. cbn. exact R2. }
  destruct (_ || _); eexists; (split; [reflexivity|]); cbn [session_state];
    split; assumption.
Qed.

(** C10 (amended): the provider looks at the hands of a frame in turn, up to
    [maxHands] of them, and each hand it looks at, with its bounding-box
    centre at [cx], changes what the hands before it have left: it replaces
    slot 0, with the label "left", exactly when [cx < size_frame // 2], it
    replaces slot 1, with the label "right", exactly when
    [cx > size_frame // 2], and it changes nothing when
    [cx = size_frame // 2].  For the first hand of a frame the label "left"
    is in slot 0 if and only if [cx < size_frame // 2], and "right" in slot 1
    if and only if [cx > size_frame // 2].  In a Pong pass all of whose
    hands are centred like that, the provider returns the two default
    records and both paddles keep their positions. *)
Theorem centred_hand_moves_no_paddle (c : Config F) (i : Input F) (s : State F)
  (pre : list (Hand F)) (hand : Hand F) (box : Z * Z * Z * Z) (ctr : Z * Z)
  (hd : HandRecord * HandRecord) :
  let size_frame := camera_width c in
  let provider := findPosition (maxHands c) (camera_width c) (camera_height c) size_frame in
  let lms := landmarks_px (camera_width c) (camera_height c) 0 hand in
  let half := size_frame / 2 in
  let found label := mkHandRecord (LmsList lms) (Some box) ctr label in
  hand_box lms = Some (box, ctr) ->
  Z.of_nat (List.length pre) < maxHands c ->
  provider pre = Some hd ->
  (exists hd',
     provider (pre ++ [hand]) = Some hd'
     /\ (fst ctr < half -> hd' = (found "left"%string, snd hd))
     /\ (fst ctr > half -> hd' = (fst hd, found "right"%string))
     /\ (fst ctr = half -> hd' = hd)
     /\ (pre = [] ->
         (side (fst hd') = "left"%string <-> fst ctr < half)
         /\ (side (snd hd') = "right"%string <-> fst ctr > half)))
  /\ (Forall (centred (camera_width c) (camera_height c) size_frame) (hands i) ->
      provider (hands i) = Some (nth_record, nth_record)
      /\ exists r, tick c i s = Some r
                   /\ paddle1_y (session_state r) = paddle1_y s
                   /\ paddle2_y (session_state r) = paddle2_y s).
Proof.
  intros size_frame provider lms half found Hb Hl Hp. split.
  - exists (assign_side size_frame lms box ctr hd).
    destruct (hand_sides size_frame lms box ctr hd) as (A & B & C & D).
    split.
    + subst provider. unfold findPosition in *.
      rewrite hands_loop_app by lia. rewrite Hp. cbn [hands_loop].
      assert ((0 + Z.of_nat (List.length pre) >=? maxHands c) = false) as ->.
      { rewrite Z.geb_leb. apply Z.leb_gt. lia. }
      fold lms. rewrite Hb. reflexivity.
    + repeat (split; [assumption|]).
      intros ->. apply D. subst provider. cbn in Hp. congruence.
  - intros Hc.
    assert (provider (hands i) = Some (nth_record, nth_record)) as E.
    { apply hands_loop_centred. exact Hc. }
    split; [exact E|]. apply tick_without_hands. exact E.
Qed.

End Engine.

(** A field of 600 x 400 at (100, 150); the ball, served towards the upper
    left, is one step from the left edge and above the paddle. *)
Definition small_field : Config Q :=
  init_config (Py.mkRect 100 150 600 400) (1 # 1)%Q 150 548 308.

Definition near_left_edge : State Q :=
  mkState 115 450 (-7) (-7) 310 310 0 0 (0 # 1)%Q.

Definition no_hands : Input Q := mkInput (1 # 1)%Q [] 0 1 (1 # 1)%Q.

Lemma left_exit_ends_round_witness :
  exists s3,
    tick small_field no_hands near_left_edge = Some (GameOver s3 "Player 2 wins")
    /\ player2_score s3 = 1
    /\ player1_score s3 = 0
    /\ ball_x s3 = 400
    /\ ball_y s3 = 350
    /\ (ball_speed_x s3 = -7 \/ ball_speed_x s3 = 7)
    /\ (ball_speed_y s3 = -7 \/ ball_speed_y s3 = 7).
Proof.
  exact (@left_exit_ends_round Q Exact small_field no_hands near_left_edge
           (mkState 108 443 (-7) (-7) 310 310 0 0 (0 # 1)%Q)
           eq_refl eq_refl eq_refl eq_refl eq_refl).
Defined.

Example left_exit_run :
  tick small_field no_hands near_left_edge
  = Some (GameOver (mkState 400 350 (-7) 7 310 310 0 1 (1 # 1)%Q) "Player 2 wins").
Proof. vm_compute. reflexivity. Qed.

(** One hand whose landmarks span the middle column of a 548-pixel frame,
    one in its left half and one in its right half. *)
Definition centred_hand : Hand Q := [((1 # 4)%Q, (1 # 2)%Q); ((3 # 4)%Q, (1 # 2)%Q)].

Definition left_hand : Hand Q := [((1 # 8)%Q, (1 # 2)%Q); ((3 # 8)%Q, (1 # 2)%Q)].

Definition right_hand : Hand Q := [((5 # 8)%Q, (1 # 2)%Q); ((7 # 8)%Q, (1 # 2)%Q)].

Definition one_centred_hand : Input Q :=
  mkInput (1 # 1)%Q [centred_hand] 0 1 (1 # 1)%Q.

Lemma centred_hand_moves_no_paddle_witness :
  findPosition 2 548 308 548 [left_hand; right_hand]
  = Some (mkHandRecord (LmsList [(0, 68, 154); (1, 205, 154)]) (Some (68, 154, 205, 154))
            (136, 154) "left",
          mkHandRecord (LmsList [(0, 342, 154); (1, 479, 154)]) (Some (342, 154, 479, 154))
            (410, 154) "right")
  /\ findPosition 2 548 308 548 [centred_hand] = Some (nth_record, nth_record)
  /\ exists r, tick small_field one_centred_hand near_left_edge = Some r
               /\ paddle1_y (session_state r) = 310
               /\ paddle2_y (session_state r) = 310.
Proof.
  destruct (@centred_hand_moves_no_paddle Q Exact small_field one_centred_hand
              near_left_edge [left_hand] right_hand (342, 154, 479, 154) (410, 154)
              (mkHandRecord (LmsList [(0, 68, 154); (1, 205, 154)])
                 (Some (68, 154, 205, 154)) (136, 154) "left", nth_record)
              eq_refl eq_refl eq_refl) as ((hd' & E & _ & R & _) & P).
  split.
  - change (findPosition 2 548 308 548 [left_hand; right_hand] = Some hd') in E.
    rewrite E, (R ltac:(reflexivity)). reflexivity.
  - apply P. repeat constructor. exists (137, 154, 411, 154), (274, 154).
    split; reflexivity.
Defined.

(** The sentence of the specification: a hand alone in the frame is labelled
    "left" when its centre is left of half the frame width and "right" when it
    is right of it. *)
Definition labelled_by_half_width : Prop :=
  forall (maxHands w h : Z) (hand : Hand float) (box : Z * Z * Z * Z) (ctr : Z * Z)
         (hd' : HandRecord * HandRecord),
    0 < maxHands ->
    hand_box (landmarks_px w h 0 hand) = Some (box, ctr) ->
    findPosition maxHands w h w [hand] = Some hd' ->
    (side (fst hd') = "left"%string <-> 2 * fst ctr < w)
    /\ (side (snd hd') = "right"%string <-> 2 * fst ctr > w).

(** A hand in the camera image of a 1280 x 720 screen, which is 365 x 205:
    its landmarks are at a quarter and at three quarters of the width. *)
Definition hand_182 : Hand float :=
  [(dec 1 4, dec 1 2); (dec 3 4, dec 1 2)].

(** C10, as stated, fails for a frame of odd width: the code compares with
    [size_frame // 2].  In the frame of width 365 the hand with its centre in
    column 182 is left of half the width, 182.5, and gets no label. *)
Theorem odd_width_centre_fails :
  ~ labelled_by_half_width
  /\ hand_box (landmarks_px 365 205 0 hand_182) = Some ((91, 102, 273, 102), (182, 102))
  /\ findPosition 2 365 205 365 [hand_182] = Some (nth_record, nth_record).
Proof.
  assert (hand_box (landmarks_px 365 205 0 hand_182)
          = Some ((91, 102, 273, 102), (182, 102))) as Hb by (vm_compute; reflexivity).
  assert (findPosition 2 365 205 365 [hand_182] = Some (nth_record, nth_record)) as Hf
    by (vm_compute; reflexivity).
  split; [|split; assumption].
  intros P. destruct (P 2 365 205 hand_182 _ _ _ ltac:(lia) Hb Hf) as [[_ L] _].
  specialize (L ltac:(cbn; lia)). discriminate L.
Qed.

End PongFacts.

(** ** Runner engine *)

Module RunnerFacts.
Import Capture Runner.

(** *** The conversions of rationals *)

Lemma Qtrunc_comp (q q' : Q) : (q == q')%Q -> Qtrunc q = Qtrunc q'.
Proof.
  unfold Qeq, Qtrunc. intros E.
  rewrite <- (Z.quot_mul_cancel_r (Qnum q) (Zpos (Qden q)) (Zpos (Qden q')))
    by discriminate.
  rewrite <- (Z.quot_mul_cancel_r (Qnum q') (Zpos (Qden q')) (Zpos (Qden q)))
    by discriminate.
  rewrite E. f_equal. apply Z.mul_comm.
Qed.

Lemma Qtrunc_nonneg (q : Q) : (0 <= q)%Q -> 0 <= Qtrunc q.
Proof.
  unfold Qle, Qtrunc. cbn. rewrite Z.mul_1_r. intros Hq.
  apply Z.quot_pos; lia.
Qed.

(** An integer less than 1 away from a rational. *)
Definition close (q : Q) (z : Z) : Prop :=
  Qnum q - Zpos (Qden q) < z * Zpos (Qden q) < Qnum q + Zpos (Qden q).

Lemma Qtrunc_close (q : Q) : close q (Qtrunc q).
Proof.
  unfold close, Qtrunc. destruct q as [n d]. cbn [Qnum Qden].
  pose proof (Z.quot_rem' n (Zpos d)) as E.
  pose proof (Z.rem_bound_abs n (Zpos d) ltac:(discriminate)) as B.
  lia.
Qed.

Lemma Qround_away_close (q : Q) : close q (Qround_away q).
Proof.
  unfold close, Qround_away. destruct q as [n d]. cbn [Qnum Qden].
  pose proof (Z.div_mod (2 * Z.abs n + Zpos d) (2 * Zpos d) ltac:(discriminate)) as E.
  pose proof (Z.mod_pos_bound (2 * Z.abs n + Zpos d) (2 * Zpos d) ltac:(lia)) as B.
  set (m := (2 * Z.abs n + Zpos d) / (2 * Zpos d)) in *.
  destruct n as [|n|n]; cbn [Z.sgn Z.abs] in *; nia.
Qed.

Lemma Qround_even_close (q : Q) : close q (Qround_even q).
Proof.
  unfold close, Qround_even. destruct q as [n d]. cbn [Qnum Qden].
  pose proof (Z.div_mod (2 * n + Zpos d) (2 * Zpos d) ltac:(discriminate)) as E.
  pose proof (Z.mod_pos_bound (2 * n + Zpos d) (2 * Zpos d) ltac:(lia)) as B.
  set (m := (2 * n + Zpos d) / (2 * Zpos d)) in *.
  set (r := (2 * n + Zpos d) mod (2 * Zpos d)) in *.
  destruct ((r =? 0) && Z.odd m) eqn:T.
  - apply andb_true_iff in T as [T _]. apply Z.eqb_eq in T. nia.
  - nia.
Qed.

Lemma Qstore_close (c : Conversion) (q : Q) : close q (@to_rect Q (Qstore c) q).
Proof.
  destruct c; [apply Qtrunc_close | apply Qround_away_close | apply Qround_even_close].
Qed.

Lemma close_tenths (q : Q) (a z : Z) :
  (q == a # 10)%Q -> close q z -> a - 10 < 10 * z < a + 10.
Proof.
  unfold Qeq, close. cbn [Qnum Qden]. intros E C. nia.
Qed.

(** *** The jump *)

Section Jump.
Variable image_size : Image -> Z * Z.

Local Abbreviation update := (Runner.update image_size).
Local Abbreviation steps := (Runner.steps image_size).

(** The dino right after the two assignments of "Handle jumping". *)
Definition launch {F} `{PyFloat F} (d : Dino F) : Dino F :=
  mkDino (rect d) (pos_y_initial d) (gravity d) (of_int (-15)) true (ducking d)
    (image d) (run_index d) (duck_index d) (animation_timer d).

Section AnyArithmetic.
Context {F : Type} `{PyFloat F} {R : RectStore F}.

(** While airborne the inputs are not looked at. *)
Lemma update_airborne (j k : bool) (d : Dino F) :
  jumping d = true -> update j k d = update false false d.
Proof.
  intros A. unfold Runner.update. rewrite A.
  rewrite andb_false_r. cbn [andb]. rewrite A. reflexivity.
Qed.

Lemma update_takeoff (k : bool) (d : Dino F) :
  jumping d = false -> update true k d = update false false (launch d).
Proof. intros A. unfold Runner.update. rewrite A. reflexivity. Qed.

(** One airborne frame: gravity is added to the velocity, the position moves
    by it, and the dino either lands on its baseline or stays above it. *)
Lemma fly_or_land (d : Dino F) :
  jumping d = true ->
  let v := fadd (velocity_y d) (gravity d) in
  let y := to_rect (int_add_float (Py.ry (rect d)) v) in
  let d' := update false false d in
  pos_y_initial d' = pos_y_initial d /\ gravity d' = gravity d
  /\ ((pos_y_initial d <= y /\ jumping d' = false /\ Py.ry (rect d') = pos_y_initial d
       /\ velocity_y d' = of_int 0)
      \/ (y < pos_y_initial d /\ jumping d' = true /\ velocity_y d' = v
          /\ Py.ry (rect d') = y)).
Proof.
  intros A v y d'. subst d'. unfold Runner.update. cbn [andb]. rewrite A.
  fold v. fold y.
  destruct (y >=? pos_y_initial d) eqn:L; cbn; rewrite Z.geb_leb in L.
  - apply Z.leb_le in L. repeat split. left. repeat split. exact L.
  - apply Z.leb_gt in L. repeat split. right. repeat split. exact L.
Qed.

Lemma update_keeps_baseline (j k : bool) (d : Dino F) :
  pos_y_initial (update j k d) = pos_y_initial d.
Proof.
  unfold Runner.update.
  destruct (j && negb (jumping d)); cbn [jumping pos_y_initial].
  - destruct (_ >=? _); reflexivity.
  - destruct (jumping d).
    + destruct (_ >=? _); reflexivity.
    + destruct k.
      * destruct (animation_timer d + 1 >=? 10); reflexivity.
      * destruct (animation_timer d + 1 >=? 10); reflexivity.
Qed.

Lemma steps_keep_baseline (inp : nat -> bool * bool) (n : nat) (d : Dino F) :
  pos_y_initial (steps inp n d) = pos_y_initial d.
Proof.
  induction n as [|n IH]; cbn [Runner.steps]; [reflexivity|].
  rewrite update_keeps_baseline. exact IH.
Qed.

(** What the theorem about the jump asks of the dino holds of every dino of a
    game: its gravity is 0.6, and when it is not in the air it stands on its
    baseline or, ducking, 30 pixels below. *)
Definition posture (d : Dino F) : Prop :=
  gravity d = dec 6 10
  /\ (jumping d = false ->
      Py.ry (rect d) = pos_y_initial d \/ Py.ry (rect d) = pos_y_initial d + 30).

Lemma update_posture (j k : bool) (d : Dino F) : posture d -> posture (update j k d).
Proof.
  intros [G P]. unfold Runner.update, posture.
  destruct (j && negb (jumping d)); cbn [jumping gravity rect pos_y_initial velocity_y].
  - destruct (_ >=? _); cbn; split; auto; discriminate.
  - destruct (jumping d).
    + destruct (_ >=? _); cbn; split; auto; discriminate.
    + destruct k.
      * destruct (animation_timer d + 1 >=? 10); cbn; split; auto.
      * destruct (animation_timer d + 1 >=? 10); cbn; split; auto.
Qed.

Lemma game_posture (inp : nat -> bool * bool) (n : nat) (pos_x pos_y : Z) :
  posture (steps inp n (new_dino image_size pos_x pos_y)).
Proof.
  induction n as [|n IH]; cbn [Runner.steps].
  - split; [reflexivity|]. intros _. left. reflexivity.
  - apply update_posture, IH.
Qed.

(** The velocity after [k] airborne frames: gravity added [k] times to the
    -15 of the take-off. *)
Definition velocity_after (k : nat) : F :=
  Nat.iter k (fun v => fadd v (dec 6 10)) (of_int (-15)).

(** The height [k] airborne frames after a take-off from [y0]: on each frame
    the new velocity is added to the height and the sum is stored in the
    Rect. *)
Fixpoint height_after (y0 : Z) (k : nat) : Z :=
  match k with
  | O => y0
  | S j => to_rect (int_add_float (height_after y0 j) (velocity_after (S j)))
  end.

(** Above the baseline [p] on each of the first [k] frames. *)
Definition rising (p y0 : Z) (k : nat) : Prop :=
  forall j : nat, (1 <= j <= k)%nat -> height_after y0 j < p.

(** The frame on which a flight ends: the first of the next [fuel] frames whose
    height is not above the baseline, counted from the take-off, for a dino
    that is [k] frames into its flight at height [y] with velocity [v]. *)
Fixpoint landing (p : Z) (fuel k : nat) (y : Z) (v : F) : option nat :=
  match fuel with
  | O => None
  | S fuel =>
      let v' := fadd v (dec 6 10) in
      let y' := to_rect (int_add_float y v') in
      if y' >=? p then Some (S k) else landing p fuel (S k) y' v'
  end.

(** The frame of the landing after a take-off from [y0], if within 54. *)
Definition lands (p y0 : Z) : option nat := landing p 54 0 y0 (of_int (-15)).

Lemma landing_some (p y0 : Z) (fuel : nat) :
  forall k n : nat,
    landing p fuel k (height_after y0 k) (velocity_after k) = Some n ->
    (k < n <= k + fuel)%nat
    /\ (forall j : nat, (k < j < n)%nat -> height_after y0 j < p)
    /\ p <= height_after y0 n.
Proof.
  induction fuel as [|fuel IH]; intros k n; cbn [landing]; [discriminate|].
  change (fadd (velocity_after k) (dec 6 10)) with (velocity_after (S k)).
  change (to_rect (int_add_float (height_after y0 k) (velocity_after (S k))))
    with (height_after y0 (S k)).
  destruct (height_after y0 (S k) >=? p) eqn:L; rewrite Z.geb_leb in L.
  - apply Z.leb_le in L. intros E. injection E as <-.
    split; [lia|]. split; [intros j Hj; lia | exact L].
  - apply Z.leb_gt in L. intros E. destruct (IH (S k) n E) as (B & A & Ln).
    split; [lia|]. split; [|exact Ln].
    intros j Hj. destruct (Nat.eq_dec j (S k)) as [-> | Ne]; [exact L | apply A; lia].
Qed.

Lemma landing_none (p y0 : Z) (fuel : nat) :
  forall k : nat,
    landing p fuel k (height_after y0 k) (velocity_after k) = None ->
    forall j : nat, (k < j <= k + fuel)%nat -> height_after y0 j < p.
Proof.
  induction fuel as [|fuel IH]; intros k; cbn [landing]; [intros _ j Hj; lia|].
  change (fadd (velocity_after k) (dec 6 10)) with (velocity_after (S k)).
  change (to_rect (int_add_float (height_after y0 k) (velocity_after (S k))))
    with (height_after y0 (S k)).
  destruct (height_after y0 (S k) >=? p) eqn:L; [discriminate|].
  rewrite Z.geb_leb in L. apply Z.leb_gt in L. intros E j Hj.
  destruct (Nat.eq_dec j (S k)) as [-> | Ne]; [exact L | apply (IH (S k) E); lia].
Qed.

Section Flight.
Variable d : Dino F.
Variable inp : nat -> bool * bool.
Hypothesis grounded : jumping d = false.
Hypothesis g06 : gravity d = dec 6 10.
Hypothesis first_jump : fst (inp 0%nat) = true.

(** The state the [k]-th airborne frame starts from. *)
Definition flying (k : nat) : Dino F :=
  match k with
  | O => launch d
  | S _ => steps inp k d
  end.

Record in_flight (k : nat) (e : Dino F) : Prop := mk_in_flight {
  fl_jumping : jumping e = true;
  fl_velocity : velocity_y e = velocity_after k;
  fl_height : Py.ry (rect e) = height_after (Py.ry (rect d)) k;
  fl_baseline : pos_y_initial e = pos_y_initial d;
  fl_gravity : gravity e = dec 6 10
}.

Lemma flying_next (k : nat) :
  jumping (flying k) = true -> flying (S k) = update false false (flying k).
Proof.
  intros A. destruct k as [|k].
  - cbn [flying Runner.steps]. rewrite <- (update_takeoff (snd (inp 0%nat)) d grounded).
    rewrite <- first_jump. reflexivity.
  - cbn [flying] in *. cbn [Runner.steps]. apply update_airborne. exact A.
Qed.

(** As long as the heights stay above the baseline the dino is in the air,
    with the velocity and the height of the two sequences. *)
Lemma flight_follows (k : nat) :
  rising (pos_y_initial d) (Py.ry (rect d)) k -> in_flight k (flying k).
Proof.
  induction k as [|k IH]; intros Hr.
  - constructor; cbn; try reflexivity. exact g06.
  - destruct IH as [A V Hh B G]; [intros j Hj; apply Hr; lia|].
    rewrite (flying_next k A).
    destruct (fly_or_land (flying k) A) as (B' & G' & [(L & _) | (_ & J & V' & Y')]).
    + exfalso. rewrite V, G, Hh, B in L.
      pose proof (Hr (S k) ltac:(lia)) as Lt. cbn [height_after] in Lt.
      change (fadd (velocity_after k) (dec 6 10)) with (velocity_after (S k)) in L. lia.
    + constructor.
      * exact J.
      * rewrite V', V, G. reflexivity.
      * rewrite Y', V, G, Hh. reflexivity.
      * rewrite B'. exact B.
      * rewrite G'. exact G.
Qed.

(** The first frame whose height is not above the baseline puts the dino on
    the baseline, grounded and at rest. *)
Lemma flight_lands (k : nat) :
  rising (pos_y_initial d) (Py.ry (rect d)) k ->
  pos_y_initial d <= height_after (Py.ry (rect d)) (S k) ->
  jumping (steps inp (S k) d) = false
  /\ Py.ry (rect (steps inp (S k) d)) = pos_y_initial d
  /\ velocity_y (steps inp (S k) d) = of_int 0.
Proof.
  intros Hr Hl. destruct (flight_follows k Hr) as [A V Hh B G].
  pose proof (flying_next k A) as E. cbn [flying] in E. rewrite E.
  destruct (fly_or_land (flying k) A) as (_ & _ & [(_ & J & Y & V') | (Lt & _)]).
  - rewrite B in Y. repeat split; assumption.
  - exfalso. rewrite V, G, Hh, B in Lt. cbn [height_after] in Hl.
    change (fadd (velocity_after k) (dec 6 10)) with (velocity_after (S k)) in Lt. lia.
Qed.

(** A flight of [n] frames, as the frames of the game show it: in the air
    and above the baseline on the frames before the [n]-th, the velocity the
    -15 of the take-off with gravity added once per frame; on the [n]-th
    frame grounded, at rest and exactly on the baseline. *)
Definition full_flight (n : nat) : Prop :=
  (forall j : nat, (1 <= j < n)%nat ->
     jumping (steps inp j d) = true
     /\ velocity_y (steps inp j d) = velocity_after j
     /\ Py.ry (rect (steps inp j d)) < pos_y_initial d)
  /\ jumping (steps inp n d) = false
  /\ Py.ry (rect (steps inp n d)) = pos_y_initial d
  /\ velocity_y (steps inp n d) = of_int 0.

Lemma lands_full_flight (n : nat) :
  lands (pos_y_initial d) (Py.ry (rect d)) = Some n ->
  (1 <= n <= 54)%nat /\ full_flight n.
Proof.
  intros E. destruct (landing_some _ (Py.ry (rect d)) 54 0 n E) as (Bn & A & L).
  split; [lia|].
  assert (forall k, (k < n)%nat -> rising (pos_y_initial d) (Py.ry (rect d)) k) as Hr.
  { intros k Hk j Hj. apply A. lia. }
  split.
  - intros j Hj. destruct (flight_follows j (Hr j ltac:(lia))) as [J V Hh _ _].
    destruct j as [|j]; [lia|]. cbn [flying] in *.
    split; [exact J|]. split; [exact V|]. rewrite Hh. apply A. lia.
  - destruct n as [|n]; [lia|]. apply flight_lands; [apply Hr; lia | exact L].
Qed.

End Flight.
End AnyArithmetic.

(** The velocity after [k] airborne frames, in tenths, and a lower bound of the
    height gained, in tenths: each frame loses less than one pixel to the
    conversion. *)
Definition tenths (k : nat) : Z := -150 + 6 * Z.of_nat k.

Fixpoint rise (k : nat) : Z :=
  match k with
  | O => 0
  | S j => rise j + tenths (S j) - 10
  end.

Lemma rise_54 : 0 <= rise 54.
Proof. vm_compute. discriminate. Qed.

Section Exact.
Variable c : Conversion.

Lemma velocity_tenths (k : nat) : (velocity_after (F:=Q) k == tenths k # 10)%Q.
Proof.
  induction k as [|k IH]; [reflexivity|].
  change (velocity_after (F:=Q) (S k)) with (velocity_after (F:=Q) k + (6 # 10))%Q.
  rewrite IH. unfold tenths, Qeq, Qplus. cbn [Qnum Qden]. lia.
Qed.

(** In exact arithmetic the velocity is -15 + 0.6 k. *)
Lemma velocity_closed_form (k : nat) :
  (velocity_after (F:=Q) k == -15 + (6 # 10) * inject_Z (Z.of_nat k))%Q.
Proof.
  rewrite velocity_tenths.
  unfold tenths, Qeq, Qplus, Qmult, inject_Z. cbn [Qnum Qden]. lia.
Qed.

Lemma height_step (y0 : Z) (k : nat) :
  let h := height_after (R:=Qstore c) y0 in
  10 * h k + tenths (S k) - 10 < 10 * h (S k) < 10 * h k + tenths (S k) + 10.
Proof.
  cbn zeta. cbn [height_after].
  apply (close_tenths (int_add_float (height_after (R:=Qstore c) y0 k)
                         (velocity_after (S k)))).
  - unfold int_add_float. change (fadd (F:=Q)) with Qplus. change (of_int (F:=Q)) with inject_Z.
    rewrite velocity_tenths. unfold tenths, Qeq, Qplus, inject_Z. cbn [Qnum Qden]. lia.
  - apply Qstore_close.
Qed.

Lemma height_lower (y0 : Z) (k : nat) :
  10 * y0 + rise k <= 10 * height_after (R:=Qstore c) y0 k.
Proof.
  induction k as [|k IH]; [cbn; lia|].
  pose proof (height_step y0 k) as S. cbn zeta in S. cbn [rise]. lia.
Qed.

(** Every flight ends within 54 frames, and one that starts on the baseline
    is in the air after its first frame. *)
Lemma exact_lands (p y0 : Z) :
  p <= y0 ->
  exists n : nat, lands (R:=Qstore c) p y0 = Some n /\ (y0 = p -> (2 <= n)%nat).
Proof.
  intros Hy. destruct (lands (R:=Qstore c) p y0) as [n|] eqn:E.
  - exists n. split; [reflexivity|]. intros ->.
    destruct (landing_some p p 54 0 n E) as (B & _ & L).
    destruct (Nat.eq_dec n 1) as [-> | Ne]; [|lia].
    pose proof (height_step p 0) as S. cbn zeta in S.
    change (height_after (R:=Qstore c) p 0) with p in S. unfold tenths in S. lia.
  - exfalso. pose proof (landing_none p y0 54 0 E 54%nat ltac:(lia)) as Lt.
    pose proof (height_lower y0 54). pose proof rise_54. lia.
Qed.

End Exact.

(** *** The flight in double precision

    The velocities of the first 54 frames are 54 floats; each lies between two
    neighbouring integers, and the sum of an integer height and such a float,
    once stored in the Rect, lies between the sums. *)
Fixpoint walk (n : nat) (v : float) : list float :=
  match n with
  | O => []
  | S n' => let v' := fadd v (dec 6 10) in v' :: walk n' v'
  end.

Lemma walk_spec (n : nat) :
  forall k : nat, walk n (velocity_after k) = map velocity_after (seq (S k) n).
Proof.
  induction n as [|n IH]; intros k; [reflexivity|].
  cbn [walk seq map].
  change (fadd (velocity_after k) (dec 6 10)) with (velocity_after (F:=float) (S k)).
  rewrite (IH (S k)). reflexivity.
Qed.

Definition lo (k : nat) : Z := FloatFacts.float_floor (velocity_after (F:=float) k).

Definition lowest (k : nat) : Z := fold_right Z.add 0 (map lo (seq 1 k)).

Definition framed (v : float) : bool :=
  FloatFacts.withinb (FloatFacts.float_floor v) (FloatFacts.float_floor v + 1) (Prim2SF v)
  && (-20 <=? FloatFacts.float_floor v) && (FloatFacts.float_floor v <=? 20).

Lemma velocities_framed : forallb framed (map velocity_after (seq 1 54)) = true.
Proof. rewrite <- (walk_spec 54 0). vm_compute. reflexivity. Qed.

Lemma lowest_54 : 0 <= lowest 54.
Proof.
  unfold lowest, lo. rewrite <- (map_map velocity_after FloatFacts.float_floor).
  rewrite <- (walk_spec 54 0). vm_compute. discriminate.
Qed.

Lemma lo_1 : lo 1 = -15.
Proof. vm_compute. reflexivity. Qed.

Lemma lo_framed (k : nat) :
  (1 <= k <= 54)%nat ->
  FloatFacts.within (lo k) (lo k + 1) (Prim2SF (velocity_after k)) /\ -20 <= lo k <= 20.
Proof.
  intros Hk. pose proof velocities_framed as T.
  rewrite forallb_forall in T. specialize (T (velocity_after k)).
  unfold framed in T. rewrite !andb_true_iff, !Z.leb_le in T.
  destruct T as [[W L] U].
  { apply in_map, in_seq. lia. }
  split; [apply FloatFacts.withinb_within; exact W | split; assumption].
Qed.

Lemma lowest_S (k : nat) : lowest (S k) = lowest k + lo (S k).
Proof.
  unfold lowest. rewrite seq_S, map_app, fold_right_app. cbn [map fold_right plus].
  generalize (map lo (seq 1 k)) as l. induction l as [|a l IH]; cbn [fold_right]; lia.
Qed.

Section Double.
Variable c : Conversion.

Lemma height_frame (y0 : Z) (k : nat) :
  - 2 ^ 31 <= y0 < 2 ^ 31 -> (k <= 54)%nat ->
  let h := height_after (R:=float_store c) y0 in
  y0 + lowest k <= h k <= y0 + lowest k + Z.of_nat k
  /\ - 20 * Z.of_nat k <= lowest k <= 20 * Z.of_nat k.
Proof.
  intros Hy. cbn zeta. induction k as [|k IH]; intros Hk.
  - cbn. lia.
  - destruct (IH ltac:(lia)) as [Hh Hl].
    destruct (lo_framed (S k) ltac:(lia)) as [W B].
    rewrite lowest_S. cbn [height_after].
    pose proof (FloatFacts.stored_sum c (height_after (R:=float_store c) y0 k)
                  (lo (S k)) (lo (S k) + 1) (velocity_after (S k))) as St.
    assert (2 ^ 31 = 2147483648) as E31 by reflexivity.
    assert (2 ^ 51 = 2251799813685248) as E51 by reflexivity.
    assert (2 ^ 52 = 4503599627370496) as E52 by reflexivity.
    specialize (St ltac:(lia) ltac:(lia) ltac:(lia) W). lia.
Qed.

(** Every flight from a height a Rect can hold ends within 54 frames, and
    one that starts on the baseline is in the air after its first frame. *)
Lemma double_lands (p y0 : Z) :
  p <= y0 -> - 2 ^ 31 <= y0 < 2 ^ 31 ->
  exists n : nat, lands (R:=float_store c) p y0 = Some n /\ (y0 = p -> (2 <= n)%nat).
Proof.
  intros Hp Hy. destruct (lands (R:=float_store c) p y0) as [n|] eqn:E.
  - exists n. split; [reflexivity|]. intros ->.
    destruct (landing_some p p 54 0 n E) as (B & _ & L).
    destruct (Nat.eq_dec n 1) as [-> | Ne]; [|lia].
    destruct (height_frame p 1 Hy ltac:(lia)) as [Hh _]. cbn zeta in Hh.
    rewrite lowest_S, lo_1 in Hh. change (lowest 0) with 0 in Hh. lia.
  - exfalso. pose proof (landing_none p y0 54 0 E 54%nat ltac:(lia)) as Lt.
    destruct (height_frame y0 54 Hy ltac:(lia)) as [Hh _]. cbn zeta in Hh.
    pose proof lowest_54. lia.
Qed.

End Double.

End Jump.


Definition sizes (i : Image) : Z * Z :=
  match i with
  | RunImg _ => (132, 141)
  | JumpImg => (132, 141)
  | DuckImg _ => (177, 90)
  end.

(** A jump on the first frame only. *)
Definition one_jump (k : nat) : bool * bool := (Nat.eqb k 0, false).


(** The flight from the baseline of a 1920 x 1080 screen: the frame of the
    landing for each conversion, in double precision and in exact
    arithmetic. *)
Example landing_frames :
  map (fun c => lands (R:=float_store c) 770 770) [Truncate; RoundHalfAway; RoundHalfEven]
  = [Some 51%nat; Some 49%nat; Some 49%nat]
  /\ map (fun c => lands (R:=Qstore c) 770 770) [Truncate; RoundHalfAway; RoundHalfEven]
     = [Some 51%nat; Some 49%nat; Some 49%nat].
Proof. vm_compute. split; reflexivity. Qed.
(** *** Score and speed *)

Section Speed.
Variable image_size : Image -> Z * Z.

Local Abbreviation frame := (Runner.frame image_size).
Local Abbreviation run := (Runner.run image_size).

Section AnyArithmetic.
Context {F : Type} `{PyFloat F} {R : RectStore F}.

Lemma score_and_speed_spec (sc sp : F) :
  score_and_speed sc sp =
  (fadd sc (dec 1 10),
   if speeds_up (fadd sc (dec 1 10)) sp then fadd sp (dec 5 10) else sp).
Proof.
  unfold score_and_speed, speeds_up.
  destruct ((trunc (fadd sc (dec 1 10)) mod 100 =? 0)
            && (trunc (fadd sc (dec 1 10)) >? 0)) eqn:M; cbn [andb].
  - apply andb_true_iff in M as [M1 _]. rewrite M1. cbn [andb].
    destruct (float_lt_int sp 20); reflexivity.
  - reflexivity.
Qed.

Lemma spawn_keeps (i : Input) (g : Game F) :
  score (spawn i g) = score g /\ game_speed (spawn i g) = game_speed g
  /\ game_over (spawn i g) = game_over g.
Proof.
  unfold spawn. destruct (obstacle_spawn g).
  - destruct (now i - obstacle_timer g >? 1500); repeat split.
  - destruct (now i - obstacle_timer g >? spawn_gap i); repeat split.
Qed.

(** A frame that is played: the score advances by 0.1 and the speed follows
    the test on the new score. *)
Lemma frame_playing (i : Input) (g : Game F) :
  quit i || escape i = false -> game_over g = false ->
  exists g', frame i g = Running g'
    /\ score g' = fadd (score g) (dec 1 10)
    /\ game_speed g' = if speeds_up (score g') (game_speed g)
                       then fadd (game_speed g) (dec 5 10) else game_speed g.
Proof.
  intros Q O. unfold Runner.frame. rewrite Q, O.
  destruct (get_state (detector i)) as [jd dd].
  set (g0 := mkGame _ _ _ _ _ _ _ _ _).
  destruct (spawn_keeps i g0) as (S1 & S2 & _).
  rewrite score_and_speed_spec. rewrite S1, S2. subst g0. cbn [score game_speed].
  eexists. split; [reflexivity|]. cbn [score game_speed]. split; reflexivity.
Qed.

(** A frame of the game-over screen: nothing moves, or R starts again from
    score 0 and speed 10. *)
Lemma frame_over (i : Input) (g : Game F) :
  quit i || escape i = false -> game_over g = true ->
  exists g', frame i g = Running g'
    /\ ((score g' = score g /\ game_speed g' = game_speed g)
        \/ (score g' = of_int 0 /\ game_speed g' = of_int 10)).
Proof.
  intros Q O. unfold Runner.frame. rewrite Q, O.
  destruct (key_r i); eexists; (split; [reflexivity|]).
  - right. split; reflexivity.
  - left. split; reflexivity.
Qed.

Lemma frame_left (i : Input) (g : Game F) :
  quit i || escape i = true -> frame i g = Left (stop (detector i)).
Proof. intros Q. unfold Runner.frame. rewrite Q. reflexivity. Qed.

End AnyArithmetic.

Section Exact.
Context {R : RectStore Q}.

(** In exact arithmetic the speed is 10 plus a whole number of half steps, at
    most twenty of them, and the score is not negative. *)
Definition tame (g : Game Q) : Prop :=
  (exists k : Z, 0 <= k <= 20 /\ (game_speed g == (20 + k) # 2)%Q)
  /\ (0 <= score g)%Q.

Lemma tame_init (w h : Z) : tame (init_game image_size w h).
Proof. split; [exists 0; split; [lia | reflexivity] | discriminate]. Qed.

Lemma below_cap (sp : Q) (k : Z) :
  (sp == (20 + k) # 2)%Q -> float_lt_int sp 20 = true -> k < 20.
Proof.
  intros E L. unfold float_lt_int in L. cbn [fltb of_int Exact] in L.
  apply negb_true_iff in L.
  destruct (Z_lt_le_dec k 20) as [Lt | Ge]; [exact Lt | exfalso].
  assert (Qle_bool (inject_Z 20) sp = true) as T; [|congruence].
  apply Qle_bool_iff. rewrite E. unfold Qle, inject_Z. cbn [Qnum Qden]. lia.
Qed.

Lemma tame_frame (i : Input) (g g' : Game Q) :
  tame g -> frame i g = Running g' -> tame g'.
Proof.
  intros [(k & Hk & E) S] Fr.
  destruct (quit i || escape i) eqn:Q.
  { rewrite (frame_left i g Q) in Fr. discriminate. }
  destruct (game_over g) eqn:O.
  - destruct (frame_over i g Q O) as (g1 & Fr1 & [[A B] | [A B]]);
      rewrite Fr1 in Fr; injection Fr as <-.
    + split; [exists k; rewrite B; split; assumption | rewrite A; exact S].
    + split; [exists 0; rewrite B; split; [lia | reflexivity]
             | rewrite A; discriminate].
  - destruct (frame_playing i g Q O) as (g1 & Fr1 & A & B).
    rewrite Fr1 in Fr. injection Fr as <-. split.
    + rewrite B. destruct (speeds_up (score g1) (game_speed g)) eqn:U.
      * unfold speeds_up in U. apply andb_true_iff in U as [_ U].
        pose proof (below_cap _ k E U) as Lt.
        exists (k + 1). split; [lia|].
        change (fadd (game_speed g) (dec 5 10)) with (game_speed g + (5 # 10))%Q.
        rewrite E. unfold Qeq, Qplus. cbn [Qnum Qden]. lia.
      * exists k. split; assumption.
    + rewrite A. change (fadd (score g) (dec 1 10)) with (score g + (1 # 10))%Q.
      apply (Qle_trans _ (0 + 0)%Q); [discriminate|].
      apply Qplus_le_compat; [exact S | discriminate].
Qed.

Lemma tame_run (inputs : list Input) :
  forall g : Game Q, tame g -> tame (run inputs g).
Proof.
  induction inputs as [|i rest IH]; intros g T; cbn; [exact T|].
  destruct (Runner.frame image_size i g) as [g' | d] eqn:Fr; [|exact T].
  apply IH. exact (tame_frame i g g' T Fr).
Qed.

Lemma tame_bounds (g : Game Q) :
  tame g -> (10 <= game_speed g <= 20)%Q /\ (0 <= score g)%Q /\ 0 <= shown_score g.
Proof.
  intros [(k & Hk & E) S]. split; [|split; [exact S | apply Qtrunc_nonneg, S]].
  rewrite E. unfold Qle. cbn [Qnum Qden]. split; lia.
Qed.

End Exact.

Section Double.
Context {R : RectStore float}.

(** In double precision the score is zero, a positive number or, for all the
    sums show, plus infinity: never a negative number and never a NaN. *)
Definition sound (g : Game float) : Prop := FloatFacts.nonneg (Prim2SF (score g)).

Lemma sound_init (w h : Z) : sound (init_game image_size w h).
Proof. exact I. Qed.

Lemma sound_frame (i : Input) (g g' : Game float) :
  sound g -> frame i g = Running g' -> sound g'.
Proof.
  unfold sound. intros S Fr.
  destruct (quit i || escape i) eqn:Q.
  { rewrite (frame_left i g Q) in Fr. discriminate. }
  destruct (game_over g) eqn:O.
  - destruct (frame_over i g Q O) as (g1 & Fr1 & [[A B] | [A B]]);
      rewrite Fr1 in Fr; injection Fr as <-; rewrite A; [exact S | exact I].
  - destruct (frame_playing i g Q O) as (g1 & Fr1 & A & B).
    rewrite Fr1 in Fr. injection Fr as <-. rewrite A.
    cbn [fadd Binary64]. rewrite add_spec.
    apply FloatFacts.SFadd_nonneg; [exact S | reflexivity].
Qed.

Lemma sound_run (inputs : list Input) :
  forall g : Game float, sound g -> sound (run inputs g).
Proof.
  induction inputs as [|i rest IH]; intros g T; cbn; [exact T|].
  destruct (Runner.frame image_size i g) as [g' | d] eqn:Fr; [|exact T].
  apply IH. exact (sound_frame i g g' T Fr).
Qed.

Lemma sound_bounds (g : Game float) :
  sound g -> (0 <=? score g)%float = true /\ 0 <= shown_score g.
Proof.
  intros S. split; [apply FloatFacts.nonneg_leb, S | apply FloatFacts.nonneg_trunc, S].
Qed.

End Double.
End Speed.

(** On a frame that is played the score advances by 0.1 and the
    game speed, a single scalar that starts at 10, changes only when the
    integer score is then a positive multiple of 100 and the speed is still
    below the cap of 20; the change is an increase by exactly the fixed step
    0.5.  On every other played frame, between milestones or with the speed
    at the cap, it stays as it was, and in exact arithmetic it never leaves
    the range from 10 to 20. *)
Lemma speed_steps_at_milestones {F : Type} `{PyFloat F} {R : RectStore F}
  (image_size : Image -> Z * Z) (i : Input) (g : Game F) :
  quit i || escape i = false ->
  game_over g = false ->
  (exists g', frame image_size i g = Running g'
     /\ score g' = fadd (score g) (dec 1 10)
     /\ (shown_score g' mod 100 = 0 -> 0 < shown_score g' ->
         fltb (game_speed g) (of_int 20) = true ->
         game_speed g' = fadd (game_speed g) (dec 5 10))
     /\ (shown_score g' mod 100 <> 0 -> game_speed g' = game_speed g)
     /\ (shown_score g' <= 0 -> game_speed g' = game_speed g)
     /\ (fltb (game_speed g) (of_int 20) = false -> game_speed g' = game_speed g))
  /\ (forall (S : RectStore Q) (inputs : list Input) (w h : Z),
        (10 <= game_speed (run (F:=Q) image_size inputs (init_game image_size w h))
         <= 20)%Q).
Proof.
  intros Hq O. split.
  - destruct (frame_playing image_size i g Hq O) as (g' & Fr & A & B).
    exists g'. split; [exact Fr|]. split; [exact A|].
    unfold speeds_up, float_lt_int in B. unfold shown_score.
    repeat split.
    + intros M P L. rewrite B. apply Z.eqb_eq in M. rewrite M.
      assert ((trunc (score g') >? 0) = true) as ->.
      { rewrite Z.gtb_ltb. apply Z.ltb_lt. exact P. }
      rewrite L. reflexivity.
    + intros M. rewrite B. apply Z.eqb_neq in M. rewrite M. reflexivity.
    + intros P. rewrite B.
      assert ((trunc (score g') >? 0) = false) as ->.
      { rewrite Z.gtb_ltb. apply Z.ltb_ge. exact P. }
      rewrite andb_false_r. reflexivity.
    + intros L. rewrite B, L. rewrite andb_false_r. reflexivity.
  - intros S inputs w h.
    apply tame_bounds, tame_run, tame_init.
Qed.

Lemma speed_steps_at_milestones_witness :
  exists g', frame (R:=Qstore Truncate) sizes quiet_input (init_game sizes 1920 1080)
             = Running g'
    /\ score g' = fadd (of_int 0) (dec 1 10)
    /\ game_speed g' = of_int 10.
Proof.
  destruct (@speed_steps_at_milestones Q Exact (Qstore Truncate) sizes quiet_input
              (init_game sizes 1920 1080) eq_refl eq_refl)
    as [(g' & Fr & A & _ & _ & B & _) _].
  exists g'. split; [exact Fr|]. split; [exact A|].
  apply B. unfold shown_score. rewrite A. vm_compute. intros X. discriminate X.
Defined.

(** Frames 1001 to 1010 of a run in double precision all show the score 100,
    and each of them adds 0.5 to the speed; at the third milestone the speed
    is at the cap and stays there. *)
Example milestone_frames_binary64 (R : RectStore float) :
  let after n := run (F:=float) sizes (repeat quiet_input n) (init_game sizes 1920 1080) in
  map (fun n => (shown_score (after n), float_trunc (fmul (game_speed (after n)) (of_int 2))))
    [1000; 1001; 1002; 1010; 1011; 2990; 3001; 3020]%nat
  = [(99, 20); (100, 21); (100, 22); (100, 30); (101, 30);
     (298, 40); (300, 40); (302, 40)].
Proof. vm_compute. reflexivity. Qed.


End RunnerFacts.

(** ** Capture and detection worker *)

Module CaptureFacts.
Import Capture.

(** The detector is switched off: marked as not running, camera unusable. *)
Definition off (d : PoseDetector) : Prop :=
  camera_working d = false /\ running d = false.

(** What a release would do: every later read fails. *)
Lemma released_reads_nothing (c : VideoCapture) (device : option Frame) :
  read (release c) device = None.
Proof. reflexivity. Qed.

Lemma stop_off (d : PoseDetector) : off (stop d).
Proof. split; reflexivity. Qed.

Section Worker.
Context {F : Type} `{PyFloat F}.

(** No pass of the worker switches the detector back on. *)
Lemma detect_pass_off (w : World F) (d : PoseDetector) (n : Z) :
  off d -> off (fst (fst (detect_pass w d n))).
Proof.
  intros [C R]. unfold detect_pass.
  destruct (negb (isOpened (cap d))).
  - destruct (n + 1 >=? 10).
    + destruct (negb (isOpened (mkVideoCapture (reopens w))));
        [destruct (n + 1 >=? 20) | destruct (0 >=? 20)]; split; cbn; assumption || reflexivity.
    + destruct (n + 1 >=? 20); split; cbn; assumption || reflexivity.
  - destruct (read (cap d) (device w)) as [frame|]; [|split; assumption].
    destruct (match nose w with
              | Some (_, y) => _
              | None => _
              end) as [j k].
    destruct (key_q w); split; cbn; assumption || reflexivity.
Qed.

Lemma act_off (a : Action F) (d : PoseDetector) :
  off d -> off (fst (act a d)) /\ silent (snd (act a d)) = true.
Proof.
  intros O. pose proof O as [C R]. destruct a as [w n | | dev]; cbn [act fst snd].
  - split; [apply detect_pass_off, O | reflexivity].
  - split; [exact O|]. unfold get_state. rewrite C. reflexivity.
  - unfold get_camera_frame. rewrite C. cbn. split; [exact O | reflexivity].
Qed.

Lemma trace_off (actions : list (Action F)) :
  forall d : PoseDetector,
    off d ->
    off (fst (trace actions d)) /\ forallb silent (snd (trace actions d)) = true.
Proof.
  induction actions as [|a rest IH]; intros d O; cbn [trace].
  - split; [exact O | reflexivity].
  - destruct (act_off a d O) as [O1 S1].
    destruct (act a d) as [d1 p]. cbn [fst snd] in O1, S1.
    destruct (IH d1 O1) as [O2 S2].
    destruct (trace rest d1) as [d2 ps]. cbn [fst snd] in *.
    split; [exact O2|]. cbn [forallb]. rewrite S1, S2. reflexivity.
Qed.

End Worker.

(** A detector on the GUI's open camera. *)
Definition shared_camera : PoseDetector := new_detector (mkVideoCapture true) true.

(** C7, as stated, fails: after [stop] on a detector whose camera is open the
    handle is still open and a read on it delivers the frame the device has. *)
Lemma stop_leaves_camera_open :
  ~ (forall d : PoseDetector, stop_releases d)
  /\ isOpened (cap (stop shared_camera)) = true
  /\ read (cap (stop shared_camera)) (Some (mkFrame 480 640 7)) = Some (mkFrame 480 640 7).
Proof.
  split; [|split; reflexivity].
  intros R. specialize (R shared_camera (Some (mkFrame 480 640 7))). discriminate R.
Qed.

(** C7 (amended): [stop] leaves the camera handle as it is (it is not
    released), and marks the detector as not running and its camera as not
    working; from then on, whatever the worker still does and whenever the
    game loop asks, [get_state] reports neither jump nor duck and
    [get_camera_frame] returns no frame. *)
Theorem stop_silences_detector {F : Type} `{PyFloat F}
  (d : PoseDetector) (actions : list (Action F)) :
  cap (stop d) = cap d
  /\ camera_working (stop d) = false
  /\ running (stop d) = false
  /\ forallb silent (snd (trace actions (stop d))) = true
  /\ camera_working (fst (trace actions (stop d))) = false
  /\ running (fst (trace actions (stop d))) = false.
Proof.
  destruct (trace_off actions (stop d) (stop_off d)) as [[C R] S].
  repeat split; assumption.
Qed.

(** The worker keeps detecting a jump after the stop; the game loop is told
    nothing of it. *)
Example late_worker :
  let busy := mkWorld (Some (mkFrame 480 640 8)) true (Some ((1 # 2)%Q, (1 # 10)%Q)) false in
  let '(d, seen) := trace [WorkerPass busy 0; AskState; AskFrame (Some (mkFrame 480 640 9))]
                      (stop shared_camera) in
  jump_detected d = true /\ current_frame d = Some (mkFrame 480 640 8)
  /\ seen = [Nothing; StateSeen false false; FrameSeen None].
Proof. vm_compute. repeat split. Qed.

End CaptureFacts.

(** ** The scores of the three engines *)

Module ScoreFacts.

(** C1: the score is never negative.  In the Balloon engine, whose score is
    decreased by a missed balloon and clamped with [max(0, ...)] at every
    change, it is at least 0 after any play-through from [init_balloons_game];
    in Pong both scores only grow by 1 from 0; in the runner the score grows
    by 0.1 from 0 (and is put back to 0 on restart), so that after any run,
    with any conversion of the Rects, the score and the integer that is drawn
    are at least 0: in double precision, the arithmetic of the program, and in
    exact arithmetic. *)
Theorem score_never_negative :
  (forall (start_y_cam : Z) (waves : list (list Balloons.Balloon))
          (inputs : list (Z * list Py.Rect)),
      0 <= Balloons.balloons_score
             (Balloons.run (Balloons.init_balloons_game start_y_cam waves) inputs))
  /\ (forall (F : Type) (A : PyFloat F) (c : Pong.Config F) (inputs : list (Pong.Input F))
             (draw_x draw_y : nat) (now : F),
        match Pong.run c inputs (Pong.init_state c draw_x draw_y now) with
        | Some r => 0 <= Pong.player1_score (Pong.session_state r)
                    /\ 0 <= Pong.player2_score (Pong.session_state r)
        | None => True
        end)
  /\ (forall (R : RectStore float) (image_size : Runner.Image -> Z * Z)
             (inputs : list Runner.Input) (w h : Z),
        let g := Runner.run (F:=float) image_size inputs (Runner.init_game image_size w h) in
        (0 <=? Runner.score g)%float = true /\ 0 <= Runner.shown_score g)
  /\ (forall (R : RectStore Q) (image_size : Runner.Image -> Z * Z)
             (inputs : list Runner.Input) (w h : Z),
        let g := Runner.run (F:=Q) image_size inputs (Runner.init_game image_size w h) in
        (0 <= Runner.score g)%Q /\ 0 <= Runner.shown_score g).
Proof.
  split; [|split; [|split]].
  - intros sy waves inputs. apply BalloonsFacts.balloons_run_nonneg. cbn. lia.
  - intros F A c inputs dx dy now.
    destruct (Pong.run c inputs (Pong.init_state c dx dy now)) as [r|] eqn:E; [|exact I].
    apply (PongFacts.pong_run_nonneg c inputs (Pong.init_state c dx dy now) r);
      cbn; try lia. exact E.
  - intros R sz inputs w h g.
    apply RunnerFacts.sound_bounds, RunnerFacts.sound_run, RunnerFacts.sound_init.
  - intros R sz inputs w h g.
    destruct (RunnerFacts.tame_bounds g) as (_ & S & T).
    + apply RunnerFacts.tame_run, RunnerFacts.tame_init.
    + split; assumption.
Qed.

End ScoreFacts.

(** ** Balloon engine: the sort, the pass over a wave and the closing of a wave *)

Module BalloonsLoopFacts.
Import Balloons.

(** *** [balloons.sort(key=lambda x: x["time"])] *)

Definition by_time (a b : Balloon) : Prop := time a <= time b.

Lemma insert_by_time_perm (b : Balloon) (l : list Balloon) :
  Permutation (b :: l) (insert_by_time b l).
Proof.
  induction l as [|c r IH]; cbn; [apply Permutation_refl|].
  destruct (time b <=? time c); [apply Permutation_refl|].
  eapply Permutation_trans; [apply perm_swap|]. apply perm_skip, IH.
Qed.

Lemma insert_by_time_Forall (P : Balloon -> Prop) (b : Balloon) (l : list Balloon) :
  P b -> Forall P l -> Forall P (insert_by_time b l).
Proof.
  intros Hb Hl. eapply Permutation_Forall; [apply insert_by_time_perm|].
  constructor; assumption.
Qed.

Lemma insert_by_time_sorted (b : Balloon) (l : list Balloon) :
  StronglySorted by_time l -> StronglySorted by_time (insert_by_time b l).
Proof.
  induction 1 as [|c r Hs IH Hc]; cbn.
  - constructor; constructor.
  - destruct (time b <=? time c) eqn:E.
    + apply Z.leb_le in E. constructor; [constructor; assumption|].
      constructor; [exact E|].
      eapply Forall_impl; [|exact Hc]. unfold by_time. intros a Ha. lia.
    + apply Z.leb_gt in E. constructor; [exact IH|].
      apply insert_by_time_Forall; [unfold by_time; lia|exact Hc].
Qed.

Lemma insert_by_time_filter (t : Z) (b : Balloon) (l : list Balloon) :
  filter (fun a => time a =? t) (insert_by_time b l) =
  filter (fun a => time a =? t) (b :: l).
Proof.
  induction l as [|c r IH]; [reflexivity|].
  cbn [insert_by_time]. destruct (time b <=? time c) eqn:E; [reflexivity|].
  apply Z.leb_gt in E. cbn [filter] in *. rewrite IH.
  destruct (time c =? t) eqn:Ec; [|reflexivity].
  destruct (time b =? t) eqn:Eb; [|reflexivity].
  apply Z.eqb_eq in Ec, Eb. lia.
Qed.

(** X1: the sort the loop applies to a wave rearranges its balloons (none is
    lost, added or changed) into non-decreasing appearance time, and it is
    stable: balloons with the same appearance time keep the order they had. *)
Theorem sort_by_time_stable (l : list Balloon) :
  Permutation l (sort_by_time l)
  /\ StronglySorted by_time (sort_by_time l)
  /\ forall t : Z,
       filter (fun a => time a =? t) (sort_by_time l) = filter (fun a => time a =? t) l.
Proof.
  induction l as [|b r (P & S & St)]; cbn [sort_by_time].
  - repeat split; constructor.
  - split; [|split].
    + eapply Permutation_trans; [apply perm_skip, P|apply insert_by_time_perm].
    + apply insert_by_time_sorted, S.
    + intros t. rewrite insert_by_time_filter. cbn [filter]. rewrite St. reflexivity.
Qed.

(** *** One pass over a wave *)

(** How a pass may change one balloon: nothing but its flag and its height,
    the flag only from unpopped to popped, the height only by one move up of
    its own speed, and a balloon that is not in play not at all. *)
Record evolves (elapsed_time : Z) (b b' : Balloon) : Prop := mk_evolves {
  ev_speed : speed b' = speed b;
  ev_time : time b' = time b;
  ev_combo : is_combo b' = is_combo b;
  ev_type : type b' = type b;
  ev_popped : is_popped b = true -> is_popped b' = true;
  ev_idle : in_play elapsed_time b = false -> b' = b;
  ev_x : Py.rx (rect b') = Py.rx (rect b);
  ev_w : Py.rw (rect b') = Py.rw (rect b);
  ev_h : Py.rh (rect b') = Py.rh (rect b);
  ev_y : Py.ry (rect b') = Py.ry (rect b)
         \/ Py.ry (rect b') = Py.ry (rect b) - speed b
}.

Lemma evolves_refl (el : Z) (b : Balloon) : evolves el b b.
Proof. constructor; auto. Qed.

Lemma finger_loop_cases (b : Balloon) (score : Z) (fingers : list Py.Rect) :
  finger_loop b score fingers = (b, score)
  \/ exists s, finger_loop b score fingers = (set_popped b, s).
Proof.
  induction fingers as [|f fs IH]; cbn; [left; reflexivity|].
  destruct (Py.colliderect (rect b) f); [right; eexists; reflexivity|exact IH].
Qed.

Lemma loop_body_evolves (sy el : Z) (fingers : list Py.Rect) (b : Balloon) (score : Z) :
  evolves el b (fst (fst (loop_body sy el fingers b score))).
Proof.
  unfold loop_body.
  destruct (el <? time b) eqn:Et; [apply evolves_refl|].
  destruct (is_popped b) eqn:Ep; [apply evolves_refl|].
  assert (in_play el b = true) as Hin by (unfold in_play; rewrite Et, Ep; reflexivity).
  destruct (Py.top (rect b) <=? sy + Py.height (rect b)).
  - cbn. constructor; cbn; auto; intros; congruence.
  - destruct (finger_loop_cases (set_rect b (Py.move_ip (rect b) 0 (- speed b)))
                score fingers) as [E|[s E]]; rewrite E; cbn;
      constructor; cbn; auto; try (intros; congruence); try lia; right; lia.
Qed.

(** X2: a pass over a wave keeps every balloon in its place in the list and
    changes none but in the ways of [evolves]: speed, appearance time, kind,
    horizontal position and size stay, a popped balloon stays popped, a
    balloon that has not appeared or is already popped is left exactly as it
    was, and no balloon moves by more than its own speed. *)
Theorem balloons_loop_evolves (sy el : Z) (fingers : list Py.Rect) (bs : list Balloon)
  (score : Z) :
  Forall2 (evolves el) bs (fst (balloons_loop sy el fingers bs score)).
Proof.
  revert score. induction bs as [|b rest IH]; intros score; cbn; [constructor|].
  pose proof (loop_body_evolves sy el fingers b score) as P.
  destruct (loop_body sy el fingers b score) as [[b' s'] fl]. cbn in P.
  destruct fl.
  - specialize (IH s'). destruct (balloons_loop sy el fingers rest s') as [rest' s''].
    cbn in *. constructor; assumption.
  - cbn. constructor; [exact P|].
    clear. induction rest; constructor; [apply evolves_refl|assumption].
Qed.

Lemma finger_loop_bounds (b : Balloon) (score : Z) (fingers : list Py.Rect) :
  0 <= score ->
  score <= snd (finger_loop b score fingers) <= score + 5.
Proof.
  intros Hs. induction fingers as [|f fs IH]; cbn; [lia|].
  destruct (Py.colliderect (rect b) f); [|exact IH]. cbn.
  repeat match goal with |- context [if ?c then _ else _] => destruct c end; lia.
Qed.

(** What one balloon can do to the score: nothing when it is not in play, at
    most five points up when the loop goes on, at most one point down when it
    leaves the field and ends the pass. *)
Lemma loop_body_bounds (sy el : Z) (fingers : list Py.Rect) (b : Balloon) (score : Z) :
  0 <= score ->
  match loop_body sy el fingers b score with
  | (_, s, Next) =>
      score <= s <= score + (if in_play el b then 5 else 0)
  | (_, s, Break) => in_play el b = true /\ 0 <= s /\ score - 1 <= s <= score
  end.
Proof.
  intros Hs. unfold loop_body, in_play.
  destruct (el <? time b); [cbn; lia|].
  destruct (is_popped b); [cbn; lia|].
  destruct (Py.top (rect b) <=? sy + Py.height (rect b)).
  - cbn. split; [reflexivity|]. destruct (is_combo b); cbn; lia.
  - pose proof (finger_loop_bounds
      (set_rect b (Py.move_ip (rect b) 0 (- speed b))) score fingers Hs) as P.
    destruct (finger_loop _ score fingers) as [b' s']. cbn in *. exact P.
Qed.

(** X3: one pass over a wave takes at most one point off the score, however
    many balloons are at the top of the field, and adds at most five points
    for each balloon in play. *)
Theorem balloons_loop_score_bounds (sy el : Z) (fingers : list Py.Rect)
  (bs : list Balloon) (score : Z) :
  0 <= score ->
  score - 1 <= snd (balloons_loop sy el fingers bs score)
            <= score + 5 * Z.of_nat (List.length (filter (in_play el) bs)).
Proof.
  revert score. induction bs as [|b rest IH]; intros score Hs;
    cbn [balloons_loop filter snd List.length]; [lia|].
  pose proof (loop_body_bounds sy el fingers b score Hs) as P.
  destruct (loop_body sy el fingers b score) as [[b' s'] fl].
  destruct fl.
  - assert (0 <= s') as Hs' by lia. specialize (IH s' Hs').
    destruct (balloons_loop sy el fingers rest s') as [rest' s'']. cbn [snd] in *.
    destruct (in_play el b); cbn [List.length]; lia.
  - destruct P as (Hin & P0 & P1). rewrite Hin. cbn [snd List.length]. lia.
Qed.

Lemma balloons_loop_score_bounds_witness :
  5 - 1 <= snd (balloons_loop 200 3 [Py.mkRect 420 650 20 20]
                  [mkBalloon (Py.mkRect 400 290 100 100) 10 0 false 0 false;
                   mkBalloon (Py.mkRect 400 640 100 100) 10 0 true 3 false] 5)
        <= 5 + 5 * 2.
Proof.
  apply (balloons_loop_score_bounds 200 3 [Py.mkRect 420 650 20 20]
           [mkBalloon (Py.mkRect 400 290 100 100) 10 0 false 0 false;
            mkBalloon (Py.mkRect 400 640 100 100) 10 0 true 3 false] 5).
  lia.
Defined.

(** *** Closing a wave *)

Lemma replace_nth_length {A} (l : list A) (n : nat) (v : A) :
  List.length (replace_nth l n v) = List.length l.
Proof.
  revert n. induction l as [|a r IH]; intros [|n]; cbn; try reflexivity.
  rewrite IH. reflexivity.
Qed.

Lemma replace_nth_same {A} (l : list A) (n : nat) (v : A) :
  (n < List.length l)%nat -> nth_error (replace_nth l n v) n = Some v.
Proof.
  revert n. induction l as [|a r IH]; intros [|n]; cbn; try lia; [reflexivity|].
  intros Hn. apply IH. lia.
Qed.

Lemma replace_nth_other {A} (l : list A) (n k : nat) (v : A) :
  k <> n -> nth_error (replace_nth l n v) k = nth_error l k.
Proof.
  revert n k. induction l as [|a r IH]; intros [|n] [|k]; cbn; try reflexivity;
    try congruence.
  intros Hk. apply IH. congruence.
Qed.

(** What a pass stores back into the list of waves. *)
Lemma tick_unfold (g g' : Game) (el : Z) (fingers : list Py.Rect) (scr : Screen) :
  tick g el fingers = Some (g', scr) ->
  exists wave,
    index (waves_balloons g) (balloons_wave g - 1) = Some wave
    /\ waves_balloons g' =
       store (waves_balloons g) (balloons_wave g - 1)
         (fst (balloons_loop (start_y_cam g) el fingers (sort_by_time wave)
                 (balloons_score g)))
    /\ start_y_cam g' = start_y_cam g
    /\ max_wave_time g' = max_wave_time g
    /\ max_balloons_waves g' = max_balloons_waves g
    /\ (scr = Playing <-> wave <> [] /\ el <= max_wave_time g)
    /\ (scr = Playing -> balloons_wave g' = balloons_wave g)
    /\ (scr <> Playing ->
        balloons_wave g' = balloons_wave g + 1
        /\ (scr = GameOver <-> balloons_wave g + 1 > max_balloons_waves g)).
Proof.
  unfold tick.
  destruct (index (waves_balloons g) (balloons_wave g - 1)) as [wave|]; [|discriminate].
  intros X. exists wave. split; [reflexivity|].
  pose proof (BalloonsFacts.balloons_loop_length (start_y_cam g) el fingers
                (sort_by_time wave) (balloons_score g)) as L.
  destruct (balloons_loop _ el fingers (sort_by_time wave) (balloons_score g))
    as [bs sc]. cbn [fst] in *. rewrite BalloonsFacts.sort_by_time_length in L.
  assert ((Z.of_nat (List.length bs) =? 0) = true <-> wave = []) as E0.
  { rewrite Z.eqb_eq. destruct wave; cbn in L; split; intros Y; try lia; congruence. }
  assert ((el >? max_wave_time g) = true <-> el > max_wave_time g) as E1.
  { rewrite Z.gtb_ltb, Z.ltb_lt. lia. }
  destruct ((Z.of_nat (List.length bs) =? 0) || (el >? max_wave_time g)) eqn:E;
    injection X as <- <-; cbn.
  - apply orb_true_iff in E. rewrite E0, E1 in E.
    unfold start_balloons_game_timer. cbn.
    assert ((balloons_wave g + 1 >? max_balloons_waves g) = true
            <-> balloons_wave g + 1 > max_balloons_waves g) as E2.
    { rewrite Z.gtb_ltb, Z.ltb_lt. lia. }
    destruct (balloons_wave g + 1 >? max_balloons_waves g).
    + repeat split; auto; try discriminate.
      * intros [Hw Hl]. destruct E; [contradiction|lia].
      * intros _. apply E2. reflexivity.
    + repeat split; auto; try discriminate.
      * intros [Hw Hl]. destruct E; [contradiction|lia].
      * intros G. apply E2 in G. discriminate.
  - apply orb_false_iff in E as [Ea Eb].
    repeat split; auto; try congruence.
    + intros ->. assert ((Z.of_nat (List.length bs) =? 0) = true) by (apply E0; reflexivity).
      congruence.
    + destruct (Z_gt_dec el (max_wave_time g)) as [G|G]; [|lia].
      apply E1 in G. congruence.
Qed.

(** X4: a pass closes the wave exactly when the wave's list is empty or the
    elapsed time is past the wave time; then the wave number goes up by one,
    and the game-over screen follows exactly when that number is past the
    number of waves, the countdown of the next wave otherwise.  A pass that
    does not close the wave keeps its number. *)
Theorem wave_closes (g g' : Game) (el : Z) (fingers : list Py.Rect) (scr : Screen) :
  tick g el fingers = Some (g', scr) ->
  exists wave,
    index (waves_balloons g) (balloons_wave g - 1) = Some wave
    /\ (scr = Playing <-> wave <> [] /\ el <= max_wave_time g)
    /\ (scr = Playing -> balloons_wave g' = balloons_wave g)
    /\ (scr <> Playing ->
        balloons_wave g' = balloons_wave g + 1
        /\ (scr = GameOver <-> balloons_wave g + 1 > max_balloons_waves g)).
Proof.
  intros E. destruct (tick_unfold g g' el fingers scr E) as (wave & A & _ & _ & _ & _ & B).
  exists wave. split; [exact A|exact B].
Qed.

(** The last wave of a game, with one balloon that has not appeared yet. *)
Definition last_wave : Game :=
  mkGame 7 5 [[]; []; []; []; [mkBalloon (Py.mkRect 400 640 100 100) 10 30 false 0 false]]
    200 20 5.

Lemma wave_closes_witness :
  exists wave,
    index (waves_balloons last_wave) (balloons_wave last_wave - 1) = Some wave
    /\ (GameOver = Playing <-> wave <> [] /\ 21 <= max_wave_time last_wave)
    /\ (GameOver = Playing ->
        balloons_wave (mkGame 7 6 (waves_balloons last_wave) 200 20 5)
        = balloons_wave last_wave)
    /\ (GameOver <> Playing ->
        balloons_wave (mkGame 7 6 (waves_balloons last_wave) 200 20 5)
        = balloons_wave last_wave + 1
        /\ (GameOver = GameOver <-> balloons_wave last_wave + 1 > max_balloons_waves last_wave)).
Proof.
  exact (wave_closes last_wave (mkGame 7 6 (waves_balloons last_wave) 200 20 5) 21 []
           GameOver eq_refl).
Defined.

Lemma index_nat {A} (l : list A) (i : Z) (v : A) :
  1 <= i + 1 -> index l i = Some v ->
  nth_error l (Z.to_nat i) = Some v /\ (Z.to_nat i < List.length l)%nat.
Proof.
  unfold index. intros Hi.
  assert ((0 <=? i) = true) as -> by (apply Z.leb_le; lia). cbn.
  destruct (i <? Z.of_nat (List.length l)) eqn:E.
  - intros X. split; [exact X|]. apply Z.ltb_lt in E. lia.
  - assert ((i <? 0) = false) as -> by (apply Z.ltb_ge; lia).
    rewrite andb_false_r. discriminate.
Qed.

Lemma tick_sizes (g g' : Game) (el : Z) (fingers : list Py.Rect) (scr : Screen) :
  1 <= balloons_wave g ->
  tick g el fingers = Some (g', scr) ->
  map (@List.length Balloon) (waves_balloons g')
  = map (@List.length Balloon) (waves_balloons g)
  /\ forall k : nat,
       Z.of_nat k <> balloons_wave g - 1 ->
       nth_error (waves_balloons g') k = nth_error (waves_balloons g) k.
Proof.
  intros Hw E.
  destruct (tick_unfold g g' el fingers scr E) as (wave & A & B & _).
  apply index_nat in A as [A Hn]; [|lia].
  rewrite B. unfold store.
  assert ((0 <=? balloons_wave g - 1) = true) as -> by (apply Z.leb_le; lia).
  set (n := Z.to_nat (balloons_wave g - 1)) in *.
  set (bs := fst _).
  assert (List.length bs = List.length wave) as L.
  { unfold bs. rewrite BalloonsFacts.balloons_loop_length, BalloonsFacts.sort_by_time_length. reflexivity. }
  split.
  - apply nth_error_ext. intros k. rewrite !nth_error_map.
    destruct (Nat.eq_dec k n) as [->|Hk].
    + rewrite replace_nth_same, A by exact Hn. cbn. rewrite L. reflexivity.
    + rewrite replace_nth_other by exact Hk. reflexivity.
  - intros k Hk. apply replace_nth_other. unfold n. lia.
Qed.

(** X5: a pass never takes a balloon out of a wave and never touches another
    wave than the current one: every wave keeps its number of balloons, and
    the waves other than the current one are the same lists afterwards. *)
Theorem tick_keeps_waves (g g' : Game) (el : Z) (fingers : list Py.Rect) (scr : Screen) :
  1 <= balloons_wave g ->
  tick g el fingers = Some (g', scr) ->
  map (@List.length Balloon) (waves_balloons g')
  = map (@List.length Balloon) (waves_balloons g)
  /\ forall k : nat,
       Z.of_nat k <> balloons_wave g - 1 ->
       nth_error (waves_balloons g') k = nth_error (waves_balloons g) k.
Proof. exact (tick_sizes g g' el fingers scr). Qed.

Lemma tick_keeps_waves_witness :
  map (@List.length Balloon)
    (waves_balloons (mkGame 7 6 (waves_balloons last_wave) 200 20 5))
  = map (@List.length Balloon) (waves_balloons last_wave)
  /\ forall k : nat,
       Z.of_nat k <> balloons_wave last_wave - 1 ->
       nth_error (waves_balloons (mkGame 7 6 (waves_balloons last_wave) 200 20 5)) k
       = nth_error (waves_balloons last_wave) k.
Proof.
  exact (tick_keeps_waves last_wave (mkGame 7 6 (waves_balloons last_wave) 200 20 5) 21 []
           GameOver ltac:(cbn; lia) eq_refl).
Defined.

(** The game a play-through is always in: the wave number is at least 1. *)
Lemma tick_wave_positive (g g' : Game) (el : Z) (fingers : list Py.Rect) (scr : Screen) :
  1 <= balloons_wave g ->
  tick g el fingers = Some (g', scr) -> 1 <= balloons_wave g'.
Proof.
  intros Hw E.
  destruct (tick_unfold g g' el fingers scr E) as (wave & _ & _ & _ & _ & _ & _ & P & N).
  destruct scr; [rewrite P by reflexivity; exact Hw| |];
    (destruct N as [-> _]; [discriminate|lia]).
Qed.

(** What a play-through keeps: the sizes of the waves, a wave number of at
    least 1 and the wave time. *)
Lemma tick_keeps_time (g g' : Game) (el : Z) (fingers : list Py.Rect) (scr : Screen) :
  tick g el fingers = Some (g', scr) -> max_wave_time g' = max_wave_time g.
Proof.
  intros E. destruct (tick_unfold g g' el fingers scr E) as (wave & _ & _ & _ & T & _).
  exact T.
Qed.

Lemma run_sizes (inputs : list (Z * list Py.Rect)) (g : Game) :
  1 <= balloons_wave g ->
  map (@List.length Balloon) (waves_balloons (run g inputs))
  = map (@List.length Balloon) (waves_balloons g)
  /\ 1 <= balloons_wave (run g inputs)
  /\ max_wave_time (run g inputs) = max_wave_time g.
Proof.
  revert g. induction inputs as [|[el fingers] rest IH]; intros g Hw; cbn [run];
    [repeat split; exact Hw|].
  destruct (tick g el fingers) as [[g' scr]|] eqn:E; [|repeat split; exact Hw].
  pose proof (tick_sizes g g' el fingers scr Hw E) as [S _].
  pose proof (tick_wave_positive g g' el fingers scr Hw E) as Hw'.
  pose proof (tick_keeps_time g g' el fingers scr E) as T.
  destruct scr; try (destruct (IH g' Hw') as (A & B & C); repeat split; congruence).
  cbn. repeat split; assumption.
Qed.

(** X6: through a whole play-through every wave keeps the number of balloons
    it was generated with, so that the first half of the closing test,
    [len(balloons) == 0], can only hold for a wave that was generated empty:
    a wave that has balloons is closed by the clock alone. *)
Theorem run_keeps_wave_sizes (inputs : list (Z * list Py.Rect)) (g : Game) :
  1 <= balloons_wave g ->
  map (@List.length Balloon) (waves_balloons (run g inputs))
  = map (@List.length Balloon) (waves_balloons g).
Proof. intros Hw. apply (run_sizes inputs g Hw). Qed.

Lemma run_keeps_wave_sizes_witness :
  map (@List.length Balloon) (waves_balloons (run last_wave [(3, []); (21, [])]))
  = map (@List.length Balloon) (waves_balloons last_wave).
Proof.
  apply (run_keeps_wave_sizes [(3, []); (21, [])] last_wave). cbn. lia.
Defined.

End BalloonsLoopFacts.

(** ** Hand-position provider: where the hands end up *)

Module HandSlotsFacts.
Import HandTracking.

Lemma fold_min_le (l : list Z) (a : Z) :
  fold_left Z.min l a <= a /\ Forall (fun x => fold_left Z.min l a <= x) l.
Proof.
  revert a. induction l as [|x r IH]; intros a; cbn; [split; [lia|constructor]|].
  destruct (IH (Z.min a x)) as [A B]. split; [lia|].
  constructor; [lia|exact B].
Qed.

Lemma fold_max_ge (l : list Z) (a : Z) :
  a <= fold_left Z.max l a /\ Forall (fun x => x <= fold_left Z.max l a) l.
Proof.
  revert a. induction l as [|x r IH]; intros a; cbn; [split; [lia|constructor]|].
  destruct (IH (Z.max a x)) as [A B]. split; [lia|].
  constructor; [lia|exact B].
Qed.

Lemma list_min_max (l : list Z) (lo hi : Z) :
  list_min l = Some lo -> list_max l = Some hi ->
  lo <= hi /\ Forall (fun x => lo <= x <= hi) l.
Proof.
  destruct l as [|a r]; [discriminate|]. cbn.
  intros E1 E2. injection E1 as <-. injection E2 as <-.
  destruct (fold_min_le r a) as [A1 A2]. destruct (fold_max_ge r a) as [B1 B2].
  split; [lia|]. constructor; [lia|].
  rewrite Forall_forall in *. intros x Hx. split; [apply A2 | apply B2]; exact Hx.
Qed.

(** A record as the provider leaves it in a slot: the default record, or a
    hand on whose side of the middle column the slot is, with its landmarks,
    a bounding box that holds them all and the centre of that box. *)
Definition placed (in_slot : Z -> Prop) (label : string) (r : HandRecord) : Prop :=
  r = nth_record
  \/ exists lms xmin ymin xmax ymax,
       r = mkHandRecord (LmsList lms) (Some (xmin, ymin, xmax, ymax))
             ((xmin + xmax) / 2, (ymin + ymax) / 2) label
       /\ lms <> []
       /\ in_slot ((xmin + xmax) / 2)
       /\ Forall (fun t => xmin <= snd (fst t) <= xmax /\ ymin <= snd t <= ymax) lms
       /\ xmin <= (xmin + xmax) / 2 <= xmax
       /\ ymin <= (ymin + ymax) / 2 <= ymax.

Lemma hand_box_spec (lms : list (Z * Z * Z)) (box : Z * Z * Z * Z) (c : Z * Z) :
  hand_box lms = Some (box, c) ->
  exists xmin ymin xmax ymax,
    box = (xmin, ymin, xmax, ymax)
    /\ c = ((xmin + xmax) / 2, (ymin + ymax) / 2)
    /\ lms <> []
    /\ Forall (fun t => xmin <= snd (fst t) <= xmax /\ ymin <= snd t <= ymax) lms
    /\ xmin <= (xmin + xmax) / 2 <= xmax
    /\ ymin <= (ymin + ymax) / 2 <= ymax.
Proof.
  unfold hand_box.
  destruct (list_min (xList lms)) as [xmin|] eqn:X1; [|discriminate].
  destruct (list_max (xList lms)) as [xmax|] eqn:X2; [|discriminate].
  destruct (list_min (yList lms)) as [ymin|] eqn:Y1; [|discriminate].
  destruct (list_max (yList lms)) as [ymax|] eqn:Y2; [|discriminate].
  intros E. injection E as <- <-.
  destruct (list_min_max _ _ _ X1 X2) as [Hx Fx].
  destruct (list_min_max _ _ _ Y1 Y2) as [Hy Fy].
  exists xmin, ymin, xmax, ymax. repeat split; try reflexivity.
  - intros ->. discriminate.
  - unfold xList, yList in *. rewrite Forall_map in Fx, Fy.
    rewrite Forall_forall in *. intros t Ht. split; [apply Fx | apply Fy]; exact Ht.
  - apply Z.div_le_lower_bound; lia.
  - apply Z.div_le_upper_bound; lia.
  - apply Z.div_le_lower_bound; lia.
  - apply Z.div_le_upper_bound; lia.
Qed.

Section Provider.
Context {F : Type} `{PyFloat F}.

Lemma assign_side_placed (size_frame : Z) (lms : list (Z * Z * Z)) (box : Z * Z * Z * Z)
  (c : Z * Z) (hd : HandRecord * HandRecord) :
  hand_box lms = Some (box, c) ->
  placed (fun x => x < size_frame / 2) "left" (fst hd) ->
  placed (fun x => x > size_frame / 2) "right" (snd hd) ->
  placed (fun x => x < size_frame / 2) "left" (fst (assign_side size_frame lms box c hd))
  /\ placed (fun x => x > size_frame / 2) "right"
       (snd (assign_side size_frame lms box c hd)).
Proof.
  intros Hb P1 P2.
  destruct (hand_box_spec lms box c Hb) as (xmin & ymin & xmax & ymax & -> & -> & R).
  unfold assign_side. cbn [fst snd].
  destruct ((xmin + xmax) / 2 <? size_frame / 2) eqn:L.
  - apply Z.ltb_lt in L. split; [|exact P2]. right.
    exists lms, xmin, ymin, xmax, ymax. cbn. tauto.
  - destruct ((xmin + xmax) / 2 >? size_frame / 2) eqn:G.
    + rewrite Z.gtb_ltb in G. apply Z.ltb_lt in G. split; [exact P1|]. right.
      exists lms, xmin, ymin, xmax, ymax. cbn. split; [reflexivity|].
      split; [tauto|]. split; [lia|tauto].
    + split; assumption.
Qed.

Lemma hands_loop_placed (maxHands w h size_frame : Z) (hands : list (Hand F)) :
  forall handNo hd hd',
    placed (fun x => x < size_frame / 2) "left" (fst hd) ->
    placed (fun x => x > size_frame / 2) "right" (snd hd) ->
    hands_loop maxHands w h size_frame handNo hands hd = Some hd' ->
    placed (fun x => x < size_frame / 2) "left" (fst hd')
    /\ placed (fun x => x > size_frame / 2) "right" (snd hd').
Proof.
  induction hands as [|hand rest IH]; intros handNo hd hd' P1 P2; cbn.
  - intros E. injection E as <-. split; assumption.
  - destruct (handNo >=? maxHands); [intros E; injection E as <-; split; assumption|].
    destruct (hand_box (landmarks_px w h 0 hand)) as [[box c]|] eqn:Hb; [|discriminate].
    destruct (assign_side_placed size_frame _ box c hd Hb P1 P2) as [V1 V2].
    apply IH; assumption.
Qed.

(** X7: whatever the detector reports, the provider's first slot holds the
    default record or a hand labelled "left" whose bounding-box centre is
    strictly left of the middle column, and its second slot the default
    record or a hand labelled "right" whose centre is strictly right of it;
    the bounding box of such a hand holds all its landmarks and its own
    centre. *)
Theorem findPosition_slots (maxHands w h size_frame : Z) (hands : list (Hand F))
  (hd : HandRecord * HandRecord) :
  findPosition maxHands w h size_frame hands = Some hd ->
  placed (fun x => x < size_frame / 2) "left" (fst hd)
  /\ placed (fun x => x > size_frame / 2) "right" (snd hd).
Proof. apply hands_loop_placed; left; reflexivity. Qed.

(** The hands the loop gets to: those before position [maxHands]. *)
Lemma hands_loop_firstn (maxHands w h size_frame : Z) (hands : list (Hand F)) :
  forall handNo hd,
    hands_loop maxHands w h size_frame handNo hands hd
    = hands_loop maxHands w h size_frame handNo
        (firstn (Z.to_nat (maxHands - handNo)) hands) hd.
Proof.
  induction hands as [|hand rest IH]; intros handNo hd.
  - rewrite firstn_nil. reflexivity.
  - cbn [hands_loop]. destruct (handNo >=? maxHands) eqn:E.
    + apply Z.geb_le in E.
      replace (Z.to_nat (maxHands - handNo)) with O by lia. reflexivity.
    + rewrite Z.geb_leb in E. apply Z.leb_gt in E.
      replace (Z.to_nat (maxHands - handNo)) with (S (Z.to_nat (maxHands - (handNo + 1))))
        by lia.
      cbn [firstn hands_loop].
      assert ((handNo >=? maxHands) = false) as ->
        by (rewrite Z.geb_leb; apply Z.leb_gt; lia).
      destruct (hand_box (landmarks_px w h 0 hand)) as [[box c]|]; [|reflexivity].
      apply IH.
Qed.

(** X8: the provider looks at the first [maxHands] hands of a frame and at no
    other: two frames that agree on those give the same records, and the same
    failure if there is one. *)
Theorem findPosition_first_hands (maxHands w h size_frame : Z)
  (hands hands' : list (Hand F)) :
  firstn (Z.to_nat maxHands) hands = firstn (Z.to_nat maxHands) hands' ->
  findPosition maxHands w h size_frame hands = findPosition maxHands w h size_frame hands'.
Proof.
  intros E. unfold findPosition.
  rewrite (hands_loop_firstn maxHands w h size_frame hands).
  rewrite (hands_loop_firstn maxHands w h size_frame hands').
  rewrite Z.sub_0_r, E. reflexivity.
Qed.

(** When the provider fails: one of the hands it gets to has no landmark, so
    that [min] is asked for the least of an empty list. *)
Lemma hands_loop_fails (maxHands w h size_frame : Z) (hands : list (Hand F)) :
  forall handNo hd,
    hands_loop maxHands w h size_frame handNo hands hd = None
    <-> Exists (fun hand => hand = []) (firstn (Z.to_nat (maxHands - handNo)) hands).
Proof.
  induction hands as [|hand rest IH]; intros handNo hd.
  - rewrite firstn_nil. cbn. split; [discriminate|]. intros X. inversion X.
  - cbn [hands_loop]. destruct (handNo >=? maxHands) eqn:E.
    + apply Z.geb_le in E.
      replace (Z.to_nat (maxHands - handNo)) with O by lia. cbn.
      split; [discriminate|]. intros X. inversion X.
    + rewrite Z.geb_leb in E. apply Z.leb_gt in E.
      replace (Z.to_nat (maxHands - handNo)) with (S (Z.to_nat (maxHands - (handNo + 1))))
        by lia.
      cbn [firstn]. rewrite Exists_cons.
      destruct hand as [|[x y] more].
      * cbn. split; [left; reflexivity|reflexivity].
      * assert (exists box c, hand_box (landmarks_px w h 0 ((x, y) :: more)) = Some (box, c))
          as (box & c & Hb).
        { cbn [landmarks_px]. unfold hand_box. cbn. eexists. eexists. reflexivity. }
        rewrite Hb, IH. split; [right; assumption|].
        intros [X|X]; [discriminate|exact X].
Qed.

End Provider.

(** Three hands the detector might report: one on each side and a third one. *)
Definition hand_on_the_left : Hand Q := [((1 # 10)%Q, (1 # 2)%Q); ((2 # 10)%Q, (1 # 4)%Q)].
Definition hand_on_the_right : Hand Q := [((8 # 10)%Q, (1 # 2)%Q); ((9 # 10)%Q, (3 # 4)%Q)].

Lemma findPosition_slots_witness :
  placed (fun x => x < 640 / 2) "left"
    (mkHandRecord (LmsList [(0, 64, 240); (1, 128, 120)]) (Some (64, 120, 128, 240))
       (96, 180) "left")
  /\ placed (fun x => x > 640 / 2) "right"
       (mkHandRecord (LmsList [(0, 512, 240); (1, 576, 360)]) (Some (512, 240, 576, 360))
          (544, 300) "right").
Proof.
  exact (@findPosition_slots Q Exact 2 640 480 640 [hand_on_the_right; hand_on_the_left]
           _ eq_refl).
Defined.

Lemma findPosition_first_hands_witness :
  findPosition 2 640 480 640 [hand_on_the_right; hand_on_the_left; []]
  = findPosition 2 640 480 640 [hand_on_the_right; hand_on_the_left].
Proof.
  exact (@findPosition_first_hands Q Exact 2 640 480 640
           [hand_on_the_right; hand_on_the_left; []]
           [hand_on_the_right; hand_on_the_left] eq_refl).
Defined.

End HandSlotsFacts.

(** ** Pong engine: the ball, the points and the end of a round *)

Module PongRoundFacts.
Import HandTracking Pong.

Section Engine.
Context {F : Type} `{PyFloat F}.

(** *** The ball never stalls *)

Definition lively (s : State F) : Prop :=
  7 <= Z.abs (ball_speed_x s) /\ 7 <= Z.abs (ball_speed_y s).

Lemma ramp_lively (c : Config F) (i : Input F) (s : State F) :
  0 <= speed_increment c -> lively s -> lively (ramp c i s).
Proof.
  unfold lively, ramp. intros Hc [A B].
  destruct (float_gt_int _ _); cbn; [|split; assumption].
  destruct (ball_speed_x s >? 0) eqn:X; destruct (ball_speed_y s >? 0) eqn:Y;
    rewrite Z.gtb_ltb in X, Y;
    try apply Z.ltb_lt in X; try apply Z.ltb_ge in X;
    try apply Z.ltb_lt in Y; try apply Z.ltb_ge in Y; lia.
Qed.

Lemma move_paddles_ball (c : Config F) (hd : HandRecord * HandRecord) (s s' : State F) :
  move_paddles c hd s = Some s' ->
  ball_x s' = ball_x s /\ ball_y s' = ball_y s
  /\ ball_speed_x s' = ball_speed_x s /\ ball_speed_y s' = ball_speed_y s.
Proof.
  unfold move_paddles.
  destruct (hand_present (fst hd) "left"); [|discriminate].
  destruct (hand_present (snd hd) "right"); [|discriminate].
  intros E. injection E as <-. repeat split.
Qed.

Lemma move_ball_lively (c : Config F) (s : State F) : lively s -> lively (move_ball c s).
Proof.
  unfold lively, move_ball. intros [A B]. cbn.
  destruct (_ <=? _); [lia|]. destruct (_ >=? _); lia.
Qed.

Lemma hit_paddles_lively (c : Config F) (s : State F) :
  lively s -> lively (hit_paddles c s).
Proof.
  unfold lively, hit_paddles. intros [A B].
  destruct (Py.colliderect _ _); [cbn; lia|].
  destruct (Py.colliderect _ _); cbn; lia.
Qed.

Lemma goals_lively (c : Config F) (i : Input F) (s : State F) :
  lively s -> lively (goals c i s).
Proof.
  unfold lively, goals, serve. intros [A B].
  pose proof (PongFacts.choice_serve (draw_x i)) as X.
  pose proof (PongFacts.choice_serve (draw_y i)) as Y.
  destruct (exits_left c s); [cbn [ball_speed_x ball_speed_y]; lia|].
  destruct (exits_right c s); cbn [ball_speed_x ball_speed_y]; lia.
Qed.

Lemma before_goals_lively (c : Config F) (i : Input F) (s s2 : State F) :
  0 <= speed_increment c -> lively s -> before_goals c i s = Some s2 -> lively s2.
Proof.
  intros Hc L. unfold before_goals.
  destruct (findPosition _ _ _ _ _) as [hd|]; [|discriminate].
  destruct (move_paddles c hd (ramp c i s)) as [s1|] eqn:M; [|discriminate].
  intros E. injection E as <-.
  apply hit_paddles_lively, move_ball_lively.
  destruct (move_paddles_ball c hd _ s1 M) as (_ & _ & X & Y).
  pose proof (ramp_lively c i s Hc L) as [A B].
  unfold lively. rewrite X, Y. split; assumption.
Qed.

Lemma tick_lively (c : Config F) (i : Input F) (s : State F) (r : Session F) :
  0 <= speed_increment c -> lively s -> tick c i s = Some r -> lively (session_state r).
Proof.
  intros Hc L. unfold tick.
  destruct (before_goals c i s) as [s2|] eqn:B; [|discriminate].
  pose proof (goals_lively c i s2 (before_goals_lively c i s s2 Hc L B)) as G.
  destruct (_ || _); intros E; injection E as <-; exact G.
Qed.

Lemma run_lively (c : Config F) (inputs : list (Input F)) :
  forall (s : State F) (r : Session F),
    0 <= speed_increment c -> lively s -> run c inputs s = Some r ->
    lively (session_state r).
Proof.
  induction inputs as [|i rest IH]; intros s r Hc L; cbn.
  - intros E. injection E as <-. exact L.
  - destruct (tick c i s) as [[s'|s' shown]|] eqn:T; [| |discriminate].
    + apply IH; [exact Hc|]. exact (tick_lively c i s _ Hc L T).
    + intros E. injection E as <-. exact (tick_lively c i s _ Hc L T).
Qed.

(** X9: the ball never stalls and never flies along an axis: from the first
    serve on, through speed ramps, wall and paddle bounces and serves after a
    point, each component of its speed keeps a magnitude of at least 7. *)
Theorem ball_never_stalls (c : Config F) (inputs : list (Input F)) (draw_x draw_y : nat)
  (now : F) (r : Session F) :
  0 <= speed_increment c ->
  run c inputs (init_state c draw_x draw_y now) = Some r ->
  7 <= Z.abs (ball_speed_x (session_state r))
  /\ 7 <= Z.abs (ball_speed_y (session_state r)).
Proof.
  intros Hc E. apply (run_lively c inputs (init_state c draw_x draw_y now) r Hc); [|exact E].
  unfold lively, init_state. cbn [ball_speed_x ball_speed_y].
  pose proof (PongFacts.choice_serve draw_x) as X.
  pose proof (PongFacts.choice_serve draw_y) as Y. lia.
Qed.

(** *** Points *)

(** The three things a pass can do to the scores. *)
Inductive Scored (c : Config F) (s s' : State F) : Prop :=
| NoPoint :
    player1_score s' = player1_score s -> player2_score s' = player2_score s ->
    Scored c s s'
| PointTo1 :
    player1_score s' = player1_score s + 1 -> player2_score s' = player2_score s ->
    ball_x s' = Py.centerx (play_field_rect c) ->
    ball_y s' = Py.centery (play_field_rect c) ->
    Scored c s s'
| PointTo2 :
    player1_score s' = player1_score s -> player2_score s' = player2_score s + 1 ->
    ball_x s' = Py.centerx (play_field_rect c) ->
    ball_y s' = Py.centery (play_field_rect c) ->
    Scored c s s'.

Lemma tick_scored (c : Config F) (i : Input F) (s : State F) (r : Session F) :
  tick c i s = Some r ->
  Scored c s (session_state r)
  /\ match r with
     | Playing s' =>
         player1_score s' <> max_score c /\ player2_score s' <> max_score c
     | GameOver s' shown =>
         (player1_score s' = max_score c /\ shown = "Player 1 wins"%string)
         \/ (player1_score s' <> max_score c /\ player2_score s' = max_score c
             /\ shown = "Player 2 wins"%string)
     end.
Proof.
  unfold tick.
  destruct (before_goals c i s) as [s2|] eqn:B; [|discriminate].
  destruct (PongFacts.before_goals_keeps c i s s2 B) as [A1 A2].
  assert (Scored c s (goals c i s2)) as Sc.
  { unfold goals. destruct (exits_left c s2).
    - apply PointTo2; cbn; congruence.
    - destruct (exits_right c s2).
      + apply PointTo1; cbn; congruence.
      + apply NoPoint; assumption. }
  destruct ((player1_score (goals c i s2) =? max_score c)
            || (player2_score (goals c i s2) =? max_score c)) eqn:E;
    intros X; injection X as <-; cbn [session_state]; (split; [exact Sc|]).
  - unfold winner_text, winner.
    destruct (player1_score (goals c i s2) =? max_score c) eqn:E1.
    + left. apply Z.eqb_eq in E1. split; [exact E1|reflexivity].
    + right. cbn in E. apply Z.eqb_neq in E1. apply Z.eqb_eq in E.
      repeat split; [exact E1|exact E].
  - apply orb_false_iff in E as [E1 E2]. apply Z.eqb_neq in E1, E2. split; assumption.
Qed.

(** X10: a pass gives at most one point, to one player, and never takes one
    away; after a point the ball is back at the centre of the play field.
    The pass ends the round exactly when one of the scores it leaves equals
    [max_score], and the line it then shows names player 1 if player 1's score
    is the one, player 2 otherwise. *)
Theorem one_point_per_pass (c : Config F) (i : Input F) (s : State F) (r : Session F) :
  tick c i s = Some r ->
  Scored c s (session_state r)
  /\ match r with
     | Playing s' =>
         player1_score s' <> max_score c /\ player2_score s' <> max_score c
     | GameOver s' shown =>
         (player1_score s' = max_score c /\ shown = "Player 1 wins"%string)
         \/ (player1_score s' <> max_score c /\ player2_score s' = max_score c
             /\ shown = "Player 2 wins"%string)
     end.
Proof. exact (tick_scored c i s r). Qed.

(** *** The end of a round *)

(** What a round can be in: still playing with both players short of
    [max_score], or over with exactly one of them on it. *)
Definition sound (c : Config F) (r : Session F) : Prop :=
  match r with
  | Playing s' => player1_score s' < max_score c /\ player2_score s' < max_score c
  | GameOver s' shown =>
      (player1_score s' = max_score c /\ player2_score s' < max_score c
       /\ shown = "Player 1 wins"%string)
      \/ (player2_score s' = max_score c /\ player1_score s' < max_score c
          /\ shown = "Player 2 wins"%string)
  end.

Lemma tick_sound (c : Config F) (i : Input F) (s : State F) (r : Session F) :
  sound c (Playing s) -> tick c i s = Some r -> sound c r.
Proof.
  intros [L1 L2] T. destruct (tick_scored c i s r T) as [Sc E].
  destruct r as [s'|s' shown]; cbn [session_state sound] in *.
  - destruct Sc; lia.
  - destruct E as [[E1 ->]|(E1 & E2 & ->)].
    + left. destruct Sc; repeat split; lia.
    + right. destruct Sc; repeat split; lia.
Qed.

(** X11: a round that starts with both players short of [max_score] is won by
    one player only: as long as it is played both scores stay below
    [max_score], and when it is over exactly one score equals [max_score], the
    other is below it, and the line shown names the player who reached it. *)
Theorem round_has_one_winner (c : Config F) (inputs : list (Input F)) (s : State F)
  (r : Session F) :
  player1_score s < max_score c -> player2_score s < max_score c ->
  run c inputs s = Some r ->
  sound c r.
Proof.
  revert s. induction inputs as [|i rest IH]; intros s L1 L2; cbn.
  - intros E. injection E as <-. split; assumption.
  - destruct (tick c i s) as [[s'|s' shown]|] eqn:T; [| |discriminate].
    + pose proof (tick_sound c i s _ (conj L1 L2) T) as [M1 M2]. apply IH; assumption.
    + intros E. injection E as <-. exact (tick_sound c i s _ (conj L1 L2) T).
Qed.

(** *** When a pass fails *)

(** X12: a hand without any landmark among the first [maxHands] hands the
    detector reports makes the pass of the Pong loop raise an exception, in
    any state and whatever else the pass is given: the provider asks for the
    least of an empty list. *)
Theorem pass_fails_on_empty_hand (c : Config F) (i : Input F) (s : State F) :
  Exists (fun hand => hand = []) (firstn (Z.to_nat (maxHands c)) (hands i)) ->
  tick c i s = None.
Proof.
  intros X. rewrite <- (Z.sub_0_r (maxHands c)) in X.
  apply (HandSlotsFacts.hands_loop_fails (maxHands c) (camera_width c)
           (camera_height c) (camera_width c) (hands i) 0 (nth_record, nth_record)) in X.
  unfold tick, before_goals, findPosition. rewrite X. reflexivity.
Qed.

End Engine.

(** A field of 800 x 600 under a camera of 640 x 480, a first serve to the
    upper left and passes without hands more than seven seconds apart. *)
Definition field : Config Q :=
  init_config (Py.mkRect 0 0 800 600) (1 # 1)%Q 0 640 480.

Definition first_serve : State Q := init_state field 0 0 (0 # 1)%Q.

Definition late_passes : list (Input Q) :=
  [mkInput (8 # 1)%Q [] 1 1 (8 # 1)%Q; mkInput (16 # 1)%Q [] 1 1 (16 # 1)%Q].

Definition after_late_passes : Session Q :=
  Eval vm_compute in
    match run field late_passes first_serve with
    | Some r => r
    | None => Playing first_serve
    end.

Lemma ball_never_stalls_witness :
  7 <= Z.abs (ball_speed_x (session_state after_late_passes))
  /\ 7 <= Z.abs (ball_speed_y (session_state after_late_passes)).
Proof.
  apply (@ball_never_stalls Q Exact field late_passes 0 0 (0 # 1)%Q after_late_passes).
  - cbn. lia.
  - vm_compute. reflexivity.
Defined.

Definition after_first_pass : Session Q :=
  Eval vm_compute in
    match tick field (mkInput (8 # 1)%Q [] 1 1 (8 # 1)%Q) first_serve with
    | Some r => r
    | None => Playing first_serve
    end.

Lemma one_point_per_pass_witness :
  Scored field first_serve (session_state after_first_pass).
Proof.
  destruct (@one_point_per_pass Q Exact field (mkInput (8 # 1)%Q [] 1 1 (8 # 1)%Q)
              first_serve after_first_pass ltac:(vm_compute; reflexivity)) as [A _].
  exact A.
Defined.

Lemma round_has_one_winner_witness : sound field after_late_passes.
Proof.
  apply (@round_has_one_winner Q Exact field late_passes first_serve after_late_passes).
  - cbn. lia.
  - cbn. lia.
  - vm_compute. reflexivity.
Defined.

(** A pass whose second hand has no landmark. *)
Definition empty_second_hand : Input Q :=
  mkInput (1 # 1)%Q [[((1 # 4)%Q, (1 # 2)%Q)]; []] 1 1 (1 # 1)%Q.

Lemma pass_fails_on_empty_hand_witness : tick field empty_second_hand first_serve = None.
Proof.
  apply (@pass_fails_on_empty_hand Q Exact field empty_second_hand first_serve).
  right. left. reflexivity.
Defined.

End PongRoundFacts.

(** ** Runner engine: the dino's posture, the obstacles and the game-over screen *)

Module RunnerGameFacts.
Import Capture Runner.

Lemma choice_of_three {A} (default a b c : A) (draw : nat) :
  Py.choice default [a; b; c] draw = a
  \/ Py.choice default [a; b; c] draw = b
  \/ Py.choice default [a; b; c] draw = c.
Proof.
  unfold Py.choice. cbn [List.length].
  pose proof (Nat.mod_upper_bound draw 3 ltac:(discriminate)) as B.
  destruct (draw mod 3)%nat as [|[|[|n]]]; cbn; auto. lia.
Qed.

Section Engine.
Variable image_size : Image -> Z * Z.
Context {F : Type} `{PyFloat F} {store : RectStore F}.

Local Abbreviation update := (Runner.update image_size).
Local Abbreviation steps := (Runner.steps image_size).
Local Abbreviation frame := (Runner.frame image_size).
Local Abbreviation run := (Runner.run image_size).

(** *** Posture *)

(** X21: what one frame does to the dino.  It never moves sideways.  In the
    air, and on the frame of a take-off, the duck input is not looked at: the
    hitbox keeps its size and the ducking flag its value, and the dino ends
    the frame strictly above its baseline or, landed, exactly on it.  On the
    ground without a jump input the dino ducks exactly when the duck input is
    set, its hitbox has the size of the picture shown, and its top is on the
    baseline when running and 30 pixels below it when ducking. *)
Theorem dino_frame (j k : bool) (d : Dino F) :
  let d' := update j k d in
  Py.rx (rect d') = Py.rx (rect d)
  /\ pos_y_initial d' = pos_y_initial d
  /\ (if jumping d || j then
        d' = update j false d
        /\ ducking d' = ducking d
        /\ Py.rw (rect d') = Py.rw (rect d) /\ Py.rh (rect d') = Py.rh (rect d)
        /\ image d' = JumpImg
        /\ (if jumping d' then Py.ry (rect d') < pos_y_initial d
            else Py.ry (rect d') = pos_y_initial d)
      else
        jumping d' = false
        /\ ducking d' = k
        /\ velocity_y d' = velocity_y d
        /\ Py.ry (rect d') = pos_y_initial d + (if k then 30 else 0)
        /\ (Py.rw (rect d'), Py.rh (rect d')) = image_size (image d')).
Proof.
  cbn zeta. unfold Runner.update.
  destruct (jumping d) eqn:J; cbn [orb].
  - rewrite !andb_false_r. rewrite J.
    destruct (_ >=? _) eqn:L; cbn; repeat split.
    rewrite Z.geb_leb in L. apply Z.leb_gt in L. exact L.
  - destruct j; cbn [andb negb jumping].
    + destruct (_ >=? _) eqn:L; cbn; repeat split.
      rewrite Z.geb_leb in L. apply Z.leb_gt in L. exact L.
    + rewrite J. destruct k.
      * destruct (animation_timer d + 1 >=? 10); cbn; repeat split;
          try lia; unfold get_rect; cbn; destruct (image_size _); reflexivity.
      * destruct (animation_timer d + 1 >=? 10); cbn; repeat split;
          try lia; unfold get_rect; cbn; destruct (image_size _); reflexivity.
Qed.

(** *** Animation *)

(** The pictures the sprite lists hold: two for running, two for ducking. *)
Definition loaded (i : Image) : Prop :=
  match i with
  | RunImg n => n = 0 \/ n = 1
  | JumpImg => True
  | DuckImg n => n = 0 \/ n = 1
  end.

Record tidy (d : Dino F) : Prop := mk_tidy {
  tidy_run : run_index d = 0 \/ run_index d = 1;
  tidy_duck : duck_index d = 0 \/ duck_index d = 1;
  tidy_timer : 0 <= animation_timer d < 10;
  tidy_image : loaded (image d)
}.

Lemma next_index (n : Z) : n = 0 \/ n = 1 -> (n + 1) mod 2 = 0 \/ (n + 1) mod 2 = 1.
Proof. intros [-> | ->]; cbn; auto. Qed.

Lemma update_tidy (j k : bool) (d : Dino F) : tidy d -> tidy (update j k d).
Proof.
  intros [R D T I]. unfold Runner.update.
  destruct (j && negb (jumping d)); cbn [jumping].
  - destruct (_ >=? _); constructor; cbn; auto.
  - destruct (jumping d).
    + destruct (_ >=? _); constructor; cbn; auto.
    + destruct k.
      * destruct (animation_timer d + 1 >=? 10) eqn:E; rewrite Z.geb_leb in E;
          [apply Z.leb_le in E | apply Z.leb_gt in E];
          constructor; cbn; auto using next_index; lia.
      * destruct (animation_timer d + 1 >=? 10) eqn:E; rewrite Z.geb_leb in E;
          [apply Z.leb_le in E | apply Z.leb_gt in E];
          constructor; cbn; auto using next_index; lia.
Qed.

(** X22: the animation never leaves the pictures that were loaded: whatever
    the inputs, after any number of frames from a new dino the running and the
    ducking index are 0 or 1, so that neither two-element sprite list is ever
    indexed out of range, the picture shown is one of them or the jumping
    picture, and the animation timer stays below 10. *)
Theorem animation_stays_in_range (inp : nat -> bool * bool) (n : nat) (pos_x pos_y : Z) :
  let d := steps inp n (new_dino image_size pos_x pos_y) in
  (run_index d = 0 \/ run_index d = 1)
  /\ (duck_index d = 0 \/ duck_index d = 1)
  /\ 0 <= animation_timer d < 10
  /\ loaded (image d).
Proof.
  cbn zeta.
  assert (tidy (steps inp n (new_dino image_size pos_x pos_y))) as [R D T I].
  { induction n as [|n IH]; cbn [Runner.steps].
    - constructor; cbn; auto. lia.
    - apply update_tidy, IH. }
  repeat split; assumption || apply T.
Qed.

(** *** Obstacles *)

(** One obstacle after a frame: moved left by the speed, otherwise the same. *)
Definition moved (game_speed : F) (o o' : Obstacle) : Prop :=
  kind o' = kind o
  /\ Py.rx (orect o') = to_rect (int_sub_float (Py.rx (orect o)) game_speed)
  /\ Py.ry (orect o') = Py.ry (orect o)
  /\ Py.rw (orect o') = Py.rw (orect o)
  /\ Py.rh (orect o') = Py.rh (orect o).

Lemma update_obstacle_moved (game_speed : F) (o o' : Obstacle) :
  update_obstacle game_speed o = Some o' ->
  moved game_speed o o' /\ -100 <= Py.rx (orect o').
Proof.
  unfold update_obstacle, moved.
  destruct (match kind o with Cactus => _ | Ptero => _ end) as [i t].
  destruct (_ <? -100) eqn:E; [discriminate|].
  apply Z.ltb_ge in E. intros X. injection X as <-. cbn. repeat split. exact E.
Qed.

(** X23: the obstacles after a frame are obstacles of before, in their order,
    each moved left by the game speed and otherwise unchanged; none is added,
    and none that is kept lies further left than x = -100. *)
Theorem update_group_survivors (game_speed : F) (group : list Obstacle) :
  exists kept : list Obstacle,
    Forall2 (moved game_speed) kept (update_group game_speed group)
    /\ kept = filter (fun o => negb (to_rect (int_sub_float (Py.rx (orect o)) game_speed)
                                     <? -100)) group
    /\ Forall (fun o' => -100 <= Py.rx (orect o')) (update_group game_speed group).
Proof.
  induction group as [|o rest (kept & A & B & C)]; cbn [update_group filter].
  - exists []. repeat split; constructor.
  - destruct (update_obstacle game_speed o) as [o'|] eqn:E.
    + destruct (update_obstacle_moved game_speed o o' E) as [M L].
      assert ((to_rect (int_sub_float (Py.rx (orect o)) game_speed) <? -100) = false) as ->.
      { destruct M as (_ & X & _). rewrite <- X. apply Z.ltb_ge. exact L. }
      cbn [negb]. exists (o :: kept). subst kept.
      repeat split; constructor; assumption.
    + assert ((to_rect (int_sub_float (Py.rx (orect o)) game_speed) <? -100) = true) as ->.
      { unfold update_obstacle in E.
        destruct (match kind o with Cactus => _ | Ptero => _ end) as [i t].
        destruct (_ <? -100); [reflexivity|discriminate]. }
      cbn [negb]. exists kept. repeat split; assumption.
Qed.

(** X24: a frame spawns at most one obstacle, and only when spawning is armed
    and more than 1500 ms have passed since the timer was set; the obstacle
    is put at the end of the group, the timer is set to the clock and
    spawning is disarmed.  A cactus starts 20 pixels inside the right edge,
    40 pixels above the ground line; a pterodactyl starts on the right edge,
    120, 80 or 40 pixels above the ground line. *)
Theorem spawn_at_most_one (i : Input) (g : Game F) :
  let g' := spawn i g in
  (obstacle_group g' = obstacle_group g /\ obstacle_timer g' = obstacle_timer g)
  \/ exists o,
       obstacle_group g' = obstacle_group g ++ [o]
       /\ obstacle_spawn g = true /\ now i - obstacle_timer g > 1500
       /\ obstacle_timer g' = now i /\ obstacle_spawn g' = false
       /\ ((kind o = Cactus
            /\ Py.rx (orect o) = SCREEN_WIDTH g - 20 /\ Py.ry (orect o) = ground_y g - 40)
           \/ (kind o = Ptero
               /\ Py.rx (orect o) = SCREEN_WIDTH g
               /\ (Py.ry (orect o) = ground_y g - 120
                   \/ Py.ry (orect o) = ground_y g - 80
                   \/ Py.ry (orect o) = ground_y g - 40))).
Proof.
  cbn zeta. unfold spawn.
  destruct (obstacle_spawn g) eqn:S.
  - destruct (now i - obstacle_timer g >? 1500) eqn:T; [|left; split; reflexivity].
    rewrite Z.gtb_ltb in T. apply Z.ltb_lt in T.
    right. eexists. cbn. split; [reflexivity|]. repeat split; try lia.
    destruct (obstacle_random i <=? 7); cbn.
    + left. repeat split.
    + right. repeat split.
      apply (choice_of_three 0 (ground_y g - 120) (ground_y g - 80) (ground_y g - 40)).
  - destruct (now i - obstacle_timer g >? spawn_gap i); left; split; reflexivity.
Qed.

(** *** The game-over screen *)

Lemma frame_over_idle (i : Input) (g : Game F) :
  game_over g = true -> key_r i = false ->
  frame i g = Running g \/ exists d, frame i g = Left d.
Proof.
  intros O R. unfold Runner.frame. rewrite O, R.
  destruct (quit i || escape i); [right; eexists; reflexivity|left; reflexivity].
Qed.

(** X25: once the game is over nothing moves until R is pressed: through any
    frames without R the whole game (score, speed, dino, obstacles, timers)
    stays exactly as it was.  A frame with R, and without quit or escape,
    starts again from score 0 and speed 10 with no obstacle; the dino and the
    spawn timer are left as they were. *)
Theorem game_over_waits_for_R (inputs : list Input) (i : Input) (g : Game F) :
  game_over g = true ->
  Forall (fun i => key_r i = false) inputs ->
  run inputs g = g
  /\ (quit i || escape i = false -> key_r i = true ->
      frame i g =
      Running (mkGame (SCREEN_WIDTH g) (ground_y g) (dino g) [] (of_int 10) false
                 (of_int 0) (obstacle_timer g) (obstacle_spawn g))).
Proof.
  intros O A. split.
  - induction A as [|a rest Ha _ IH]; cbn [Runner.run]; [reflexivity|].
    destruct (frame_over_idle a g O Ha) as [-> | [d ->]]; [exact IH|reflexivity].
  - intros Q R. unfold Runner.frame. rewrite Q, O, R. reflexivity.
Qed.

End Engine.

(** A game that has just been lost, after 57.3 points at speed 10. *)
Definition lost_game : Game Q :=
  mkGame 1920 810 (new_dino RunnerFacts.sizes 288 770)
    [mkObstacle Cactus (Py.mkRect 300 770 60 90) 0 0]
    (10 # 1)%Q true (573 # 10)%Q 4000 false.

Definition press_r : Input :=
  mkInput false false true false false (new_detector (mkVideoCapture false) false)
    5000 1 0 (60, 90) 1500.

Lemma game_over_waits_for_R_witness :
  run (R:=Qstore Truncate) RunnerFacts.sizes [quiet_input; quiet_input] lost_game = lost_game
  /\ (quit press_r || escape press_r = false -> key_r press_r = true ->
      frame (R:=Qstore Truncate) RunnerFacts.sizes press_r lost_game =
      Running (mkGame 1920 810 (new_dino RunnerFacts.sizes 288 770) [] (of_int 10) false
                 (of_int 0) 4000 false)).
Proof.
  apply (@game_over_waits_for_R RunnerFacts.sizes Q Exact (Qstore Truncate)
           [quiet_input; quiet_input]
           press_r lost_game eq_refl).
  repeat constructor.
Defined.

End RunnerGameFacts.

(** ** Detection worker: what it reports, when it gives up, how it is set up *)

Module DetectorFacts.
Import Capture Setup.

(** The two flags are never raised together. *)
Definition exclusive (d : PoseDetector) : Prop :=
  jump_detected d && duck_detected d = false.

(** The lines of a detector that has them. *)
Definition lines (d : PoseDetector) : Z * Z * bool :=
  (jump_line_y d, duck_line_y d, lines_initialized d).

Definition one_flag (p : Published) : bool :=
  match p with
  | StateSeen j k => negb (j && k)
  | _ => true
  end.

Lemma get_camera_frame_keeps (d : PoseDetector) (device : option Frame) :
  let d' := fst (get_camera_frame d device) in
  jump_detected d' = jump_detected d /\ duck_detected d' = duck_detected d
  /\ lines d' = lines d /\ cap d' = cap d
  /\ camera_working d' = camera_working d /\ running d' = running d.
Proof.
  unfold get_camera_frame, lines.
  destruct (negb (camera_working d)); [repeat split|].
  destruct (current_frame d); [repeat split|].
  destruct (isOpened (cap d)); [|repeat split].
  destruct (read (cap d) device); repeat split.
Qed.

Section Worker.
Context {F : Type} `{PyFloat F}.

Lemma detect_pass_exclusive (w : World F) (d : PoseDetector) (n : Z) :
  exclusive d -> exclusive (fst (fst (detect_pass w d n))).
Proof.
  unfold exclusive, detect_pass. intros E.
  destruct (negb (isOpened (cap d))).
  - destruct (n + 1 >=? 10).
    + destruct (negb (isOpened (mkVideoCapture (reopens w))));
        [destruct (n + 1 >=? 20) | destruct (0 >=? 20)]; exact E.
    + destruct (n + 1 >=? 20); exact E.
  - destruct (read (cap d) (device w)) as [frame|]; [|exact E].
    destruct (nose w) as [[x y]|]; [|destruct (key_q w); reflexivity].
    destruct (_ <? _); [destruct (key_q w); reflexivity|].
    destruct (_ >? _); destruct (key_q w); reflexivity.
Qed.

Lemma detect_pass_lines (w : World F) (d : PoseDetector) (n : Z) :
  lines_initialized d = true -> lines (fst (fst (detect_pass w d n))) = lines d.
Proof.
  unfold lines, detect_pass. intros L.
  destruct (negb (isOpened (cap d))).
  - destruct (n + 1 >=? 10).
    + destruct (negb (isOpened (mkVideoCapture (reopens w))));
        [destruct (n + 1 >=? 20) | destruct (0 >=? 20)]; reflexivity.
    + destruct (n + 1 >=? 20); reflexivity.
  - destruct (read (cap d) (device w)) as [frame|]; [|reflexivity].
    rewrite L.
    destruct (match nose w with Some (_, y) => _ | None => _ end) as [j k].
    destruct (key_q w); reflexivity.
Qed.

Lemma act_exclusive (a : Action F) (d : PoseDetector) :
  exclusive d -> exclusive (fst (act a d)) /\ one_flag (snd (act a d)) = true.
Proof.
  intros E. destruct a as [w n | | dev]; cbn [act fst snd].
  - split; [apply detect_pass_exclusive, E | reflexivity].
  - split; [exact E|]. unfold get_state, one_flag.
    destruct (negb (camera_working d)); cbn; [reflexivity|].
    unfold exclusive in E. rewrite E. reflexivity.
  - destruct (get_camera_frame_keeps d dev) as (A & B & _).
    destruct (get_camera_frame d dev) as [d' f]. cbn [fst snd] in *.
    split; [|reflexivity]. unfold exclusive. rewrite A, B. exact E.
Qed.

Lemma act_lines (a : Action F) (d : PoseDetector) :
  lines_initialized d = true -> lines (fst (act a d)) = lines d.
Proof.
  intros L. destruct a as [w n | | dev]; cbn [act fst snd].
  - apply detect_pass_lines, L.
  - reflexivity.
  - destruct (get_camera_frame_keeps d dev) as (_ & _ & A & _).
    destruct (get_camera_frame d dev) as [d' f]. exact A.
Qed.

(** X13: the camera never asks the dino to jump and to duck at once: in any
    interleaving of worker passes and calls of the game loop, from a detector
    that has not both flags raised (a new one has none), every answer of
    [get_state] has at most one of the two set. *)
Theorem camera_asks_one_thing (actions : list (Action F)) (d : PoseDetector) :
  jump_detected d && duck_detected d = false ->
  forallb one_flag (snd (trace actions d)) = true
  /\ jump_detected (fst (trace actions d)) && duck_detected (fst (trace actions d)) = false.
Proof.
  revert d. induction actions as [|a rest IH]; intros d E; cbn [trace].
  - split; [reflexivity|exact E].
  - destruct (act_exclusive a d E) as [E1 S1].
    destruct (act a d) as [d1 p]. cbn [fst snd] in E1, S1.
    destruct (IH d1 E1) as [S2 E2].
    destruct (trace rest d1) as [d2 ps]. cbn [fst snd] in *.
    split; [|exact E2]. cbn [forallb]. rewrite S1, S2. reflexivity.
Qed.

(** X14: the jump and duck lines are fixed once: after the pass that sets
    them, no worker pass and no call of the game loop moves them, whatever
    the size of the frames that follow. *)
Theorem lines_are_set_once (actions : list (Action F)) (d : PoseDetector) :
  lines_initialized d = true ->
  jump_line_y (fst (trace actions d)) = jump_line_y d
  /\ duck_line_y (fst (trace actions d)) = duck_line_y d
  /\ lines_initialized (fst (trace actions d)) = true.
Proof.
  revert d. induction actions as [|a rest IH]; intros d L; cbn [trace].
  - repeat split. exact L.
  - pose proof (act_lines a d L) as A.
    destruct (act a d) as [d1 p]. cbn [fst] in A.
    unfold lines in A. injection A as A1 A2 A3.
    specialize (IH d1 ltac:(congruence)).
    destruct (trace rest d1) as [d2 ps]. cbn [fst] in *.
    destruct IH as (B1 & B2 & B3). repeat split; congruence.
Qed.

(** *** Giving up *)

Definition given_up (d : PoseDetector) : PoseDetector :=
  mkPoseDetector (cap d) false (running d) (jump_detected d) (duck_detected d)
    (current_frame d) (jump_line_y d) (duck_line_y d) (lines_initialized d).

Lemma closed_pass (w : World F) (d : PoseDetector) (n : Z) :
  isOpened (cap d) = false -> reopens w = false ->
  detect_pass w d n =
  if n + 1 >=? 20 then (given_up d, n + 1, Break) else (d, n + 1, Continue).
Proof.
  intros C R. unfold detect_pass, given_up. rewrite C. cbn [negb].
  assert (mkVideoCapture (reopens w) = cap d) as E.
  { rewrite R. destruct (cap d) as [o]. cbn in C. subst o. reflexivity. }
  destruct (n + 1 >=? 10).
  - rewrite E, C. cbn [negb].
    destruct (n + 1 >=? 20); [reflexivity|]. destruct d; reflexivity.
  - destruct (n + 1 >=? 20); [reflexivity|]. destruct d; reflexivity.
Qed.

Lemma closed_loop (worlds : list (World F)) (d : PoseDetector) :
  isOpened (cap d) = false -> running d = true ->
  Forall (fun w => reopens w = false) worlds ->
  forall n : Z,
    n < 20 ->
    detect_loop worlds d n =
    if n + Z.of_nat (List.length worlds) >=? 20
    then (given_up d, 20, Break)
    else (d, n + Z.of_nat (List.length worlds), Continue).
Proof.
  intros C R. induction 1 as [|w rest Hw _ IH]; intros n Hn.
  - cbn [detect_loop List.length Z.of_nat]. rewrite Z.add_0_r.
    assert ((n >=? 20) = false) as -> by (rewrite Z.geb_leb; apply Z.leb_gt; lia).
    reflexivity.
  - cbn [detect_loop]. rewrite R, (closed_pass w d n C Hw).
    destruct (n + 1 >=? 20) eqn:E; rewrite Z.geb_leb in E.
    + apply Z.leb_le in E.
      assert ((n + Z.of_nat (List.length (w :: rest)) >=? 20) = true) as ->.
      { rewrite Z.geb_leb. apply Z.leb_le. cbn [List.length]. lia. }
      f_equal. f_equal. lia.
    + apply Z.leb_gt in E. rewrite (IH (n + 1) E).
      replace (n + 1 + Z.of_nat (List.length rest))
        with (n + Z.of_nat (List.length (w :: rest))) by (cbn [List.length]; lia).
      reflexivity.
Qed.

(** X15: with a camera that is closed and does not reopen, the worker counts
    its passes and gives up on exactly the twentieth: it leaves the loop and
    marks the camera as not working; before that it changes nothing. *)
Theorem closed_camera_gives_up (worlds : list (World F)) (d : PoseDetector) :
  isOpened (cap d) = false -> running d = true ->
  Forall (fun w => reopens w = false) worlds ->
  detect_loop worlds d 0 =
  if Z.of_nat (List.length worlds) >=? 20
  then (given_up d, 20, Break)
  else (d, Z.of_nat (List.length worlds), Continue).
Proof.
  intros C R A. rewrite (closed_loop worlds d C R A 0 ltac:(lia)). reflexivity.
Qed.

Lemma silent_pass (w : World F) (d : PoseDetector) (n : Z) :
  isOpened (cap d) = true -> device w = None ->
  detect_pass w d n = (d, n + 1, Continue).
Proof.
  intros C D. unfold detect_pass. rewrite C. cbn [negb].
  unfold read. unfold isOpened in C. rewrite C, D. reflexivity.
Qed.

(** X16: a camera that stays open but delivers no frame is polled for ever:
    the failures are counted, but no number of them makes the worker leave
    its loop or mark the camera as not working; the detector stays exactly as
    it was. *)
Theorem silent_camera_is_polled_forever (worlds : list (World F)) (d : PoseDetector)
  (n : Z) :
  isOpened (cap d) = true -> running d = true ->
  Forall (fun w => device w = None) worlds ->
  detect_loop worlds d n = (d, n + Z.of_nat (List.length worlds), Continue).
Proof.
  intros C R A. revert n. induction A as [|w rest Hw _ IH]; intros n.
  - cbn. rewrite Z.add_0_r. reflexivity.
  - cbn [detect_loop]. rewrite R, (silent_pass w d n C Hw), IH.
    f_equal. f_equal. cbn [List.length]. lia.
Qed.

End Worker.

(** X17: [get_camera_frame] reads the camera at most once: when it has handed
    out a frame, every later call hands out that same frame without a read,
    whatever the camera has by then, until a worker pass stores a new one. *)
Theorem camera_frame_is_kept (d d' : PoseDetector) (device : option Frame) (f : Frame) :
  get_camera_frame d device = (d', Some f) ->
  forall later : option Frame, get_camera_frame d' later = (d', Some f).
Proof.
  unfold get_camera_frame.
  destruct (negb (camera_working d)) eqn:W; [discriminate|].
  destruct (current_frame d) as [g|] eqn:Cf.
  - intros E later. injection E as <- <-. rewrite W, Cf. reflexivity.
  - destruct (isOpened (cap d)); [|discriminate].
    destruct (read (cap d) device) as [g|]; [|discriminate].
    intros E later. injection E as <- <-. cbn. rewrite W. reflexivity.
Qed.

Lemma camera_frame_is_kept_witness :
  get_camera_frame
    (mkPoseDetector (mkVideoCapture true) true true false false
       (Some (mkFrame 480 640 1)) 0 0 false) None
  = (mkPoseDetector (mkVideoCapture true) true true false false
       (Some (mkFrame 480 640 1)) 0 0 false, Some (mkFrame 480 640 1)).
Proof.
  apply (camera_frame_is_kept (new_detector (mkVideoCapture true) true) _
           (Some (mkFrame 480 640 1)) (mkFrame 480 640 1) eq_refl None).
Defined.

(** *** Set-up *)

Section Machine.
Variable opens : Z -> bool.

(** The indices asked for, in order, up to the first that opens. *)
Definition tried_from (index : Z) : list Z :=
  index :: (if opens index then [] else 1 :: (if opens 1 then [] else [2])).

Lemma try_cameras_spec (index : Z) :
  try_cameras opens index
  = (mkVideoCapture (opens index || opens 1 || opens 2),
     opens index || opens 1 || opens 2, tried_from index).
Proof.
  unfold try_cameras, tried_from, cv2_VideoCapture, isOpened. cbn.
  destruct (opens index); cbn; [reflexivity|].
  destruct (opens 1); cbn; reflexivity.
Qed.

Definition usable (existing_cap : option VideoCapture) (device : option Frame) : bool :=
  match existing_cap with
  | Some cap => existing_works cap device
  | None => false
  end.

Lemma PoseDetector_init_spec (camera_index : Z) (existing_cap : option VideoCapture)
  (device : option Frame) :
  let d := fst (PoseDetector_init opens camera_index existing_cap device) in
  let tried := snd (PoseDetector_init opens camera_index existing_cap device) in
  camera_working d = isOpened (cap d)
  /\ camera_working d
     = usable existing_cap device || opens camera_index || opens 1 || opens 2
  /\ (usable existing_cap device = true -> Some (cap d) = existing_cap /\ tried = [])
  /\ (usable existing_cap device = false -> tried = tried_from camera_index)
  /\ running d = true
  /\ get_state d = (false, false).
Proof.
  unfold PoseDetector_init, usable.
  destruct existing_cap as [c|].
  - destruct (existing_works c device) eqn:E; cbn [negb].
    + cbn. unfold existing_works, isOpened in *.
      destruct (opened c) eqn:O; [|discriminate].
      repeat split; try discriminate.
    + rewrite try_cameras_spec. cbn. repeat split; try discriminate.
      all: try (unfold get_state; cbn; destruct (_ || _); reflexivity).
  - rewrite try_cameras_spec. cbn. repeat split; try discriminate.
    all: try (unfold get_state; cbn; destruct (_ || _); reflexivity).
Qed.

(** X18: a new detector holds its camera to work exactly when the capture it
    ends up with is open.  It keeps the capture it is handed if that one is
    open and delivers a test frame, and then opens no camera itself;
    otherwise it asks for [camera_index], then 1, then 2, stopping at the
    first that opens, and works exactly when one of them does.  It starts
    with no jump and no duck detected. *)
Theorem detector_finds_a_camera (camera_index : Z) (existing_cap : option VideoCapture)
  (device : option Frame) :
  let d := fst (PoseDetector_init opens camera_index existing_cap device) in
  let tried := snd (PoseDetector_init opens camera_index existing_cap device) in
  camera_working d = isOpened (cap d)
  /\ camera_working d
     = usable existing_cap device || opens camera_index || opens 1 || opens 2
  /\ (usable existing_cap device = true -> Some (cap d) = existing_cap /\ tried = [])
  /\ (usable existing_cap device = false -> tried = tried_from camera_index)
  /\ running d = true
  /\ get_state d = (false, false).
Proof. exact (PoseDetector_init_spec camera_index existing_cap device). Qed.

(** X19: the GUI asks for the configured camera, then for 1, then for 2, and
    stops at the first that opens.  A detector that is handed the capture the
    GUI ended with keeps it, and opens no camera of its own, whenever that
    capture is open and delivers the test frame. *)
Theorem gui_camera_is_shared (user_camera_number camera_index : Z) (frame : Frame) :
  let cap := fst (init_camera opens user_camera_number) in
  isOpened cap = opens user_camera_number || opens 1 || opens 2
  /\ snd (init_camera opens user_camera_number) = tried_from user_camera_number
  /\ (isOpened cap = true ->
      PoseDetector_init opens camera_index (Some cap) (Some frame)
      = (new_detector cap true, [])).
Proof.
  unfold init_camera, tried_from, cv2_VideoCapture, isOpened. cbn.
  destruct (opens user_camera_number) eqn:A; cbn.
  - split; [reflexivity|]. split; [reflexivity|]. intros _.
    unfold PoseDetector_init, existing_works. cbn. reflexivity.
  - destruct (opens 1) eqn:B; cbn.
    + split; [reflexivity|]. split; [reflexivity|]. intros _.
      unfold PoseDetector_init, existing_works. cbn. reflexivity.
    + split; [reflexivity|]. split; [reflexivity|]. intros C.
      unfold PoseDetector_init, existing_works. cbn. rewrite C. reflexivity.
Qed.

(** X20: the detection thread of the runner is started exactly when the
    detector still holds its camera to work after a second test read.  When
    it is started the camera is open and the frame of that read is stored,
    but only until the thread runs: its first statement drops the frame, and
    from then on, until the thread has read a frame of its own, the game loop
    is handed what a fresh read of the camera gives.  When the thread is not
    started, the camera reports no jump and no duck and hands out no frame. *)
Theorem thread_drops_the_test_frame (existing_cap : option VideoCapture)
  (device0 device1 : option Frame) :
  let d := fst (fst (start_detector opens existing_cap device0 device1)) in
  let started := snd (fst (start_detector opens existing_cap device0 device1)) in
  started = camera_working d
  /\ (started = true ->
      isOpened (cap d) = true
      /\ (exists f, device1 = Some f /\ current_frame d = Some f
                    /\ forall later, get_camera_frame d later = (d, Some f))
      /\ forall (F : Type) (A : PyFloat F),
           let begun := fst (fst (@detect_pose_continuous F A [] d)) in
           current_frame begun = None
           /\ camera_working begun = true
           /\ forall later, snd (get_camera_frame begun later) = later)
  /\ (started = false ->
      get_state d = (false, false)
      /\ forall later, get_camera_frame d later = (d, None)).
Proof.
  unfold start_detector.
  pose proof (PoseDetector_init_spec 0 existing_cap device0) as (A & _).
  destruct (PoseDetector_init opens 0 existing_cap device0) as [d tried].
  cbn [fst snd] in *.
  destruct d as [c w r j k cf jl dl li]. cbn in A. subst w.
  destruct c as [o]. unfold read, get_state, get_camera_frame, isOpened. cbn.
  destruct o; cbn.
  - destruct device1 as [f|]; cbn.
    + split; [reflexivity|]. split; [|discriminate].
      intros _. split; [reflexivity|]. split; [exists f; repeat split|].
      intros F A'. split; [reflexivity|]. split; [reflexivity|].
      intros [later|]; reflexivity.
    + split; [reflexivity|]. split; [discriminate|]. intros _. split; reflexivity.
  - split; [reflexivity|]. split; [discriminate|]. intros _. split; reflexivity.
Qed.

End Machine.

(** A detector without a camera, and twenty-five passes in which none opens. *)
Definition no_camera : PoseDetector := new_detector (mkVideoCapture false) true.

Definition nothing_there : World Q := mkWorld None false None false.

Lemma closed_camera_gives_up_witness :
  detect_loop (repeat nothing_there 25) no_camera 0 = (given_up no_camera, 20, Break).
Proof.
  apply (@closed_camera_gives_up Q Exact (repeat nothing_there 25) no_camera
           eq_refl eq_refl).
  apply Forall_forall. intros w Hw. apply repeat_spec in Hw. subst w. reflexivity.
Defined.

Lemma silent_camera_is_polled_forever_witness :
  detect_loop (repeat nothing_there 25) (new_detector (mkVideoCapture true) true) 0
  = (new_detector (mkVideoCapture true) true, 25, Continue).
Proof.
  apply (@silent_camera_is_polled_forever Q Exact (repeat nothing_there 25)
           (new_detector (mkVideoCapture true) true) 0 eq_refl eq_refl).
  apply Forall_forall. intros w Hw. apply repeat_spec in Hw. subst w. reflexivity.
Defined.

Lemma camera_asks_one_thing_witness :
  forallb one_flag
    (snd (trace [WorkerPass (mkWorld (Some (mkFrame 480 640 8)) true
                               (Some ((1 # 2)%Q, (1 # 10)%Q)) false) 0; AskState]
            (new_detector (mkVideoCapture true) true))) = true
  /\ jump_detected
       (fst (trace [WorkerPass (mkWorld (Some (mkFrame 480 640 8)) true
                                  (Some ((1 # 2)%Q, (1 # 10)%Q)) false) 0; AskState]
               (new_detector (mkVideoCapture true) true)))
     && duck_detected
          (fst (trace [WorkerPass (mkWorld (Some (mkFrame 480 640 8)) true
                                     (Some ((1 # 2)%Q, (1 # 10)%Q)) false) 0; AskState]
                  (new_detector (mkVideoCapture true) true))) = false.
Proof.
  apply (@camera_asks_one_thing Q Exact). reflexivity.
Defined.

(** A detector whose lines were set on a frame 480 pixels high. *)
Definition lined : PoseDetector :=
  mkPoseDetector (mkVideoCapture true) true true false false (Some (mkFrame 480 640 1))
    192 288 true.

Lemma lines_are_set_once_witness :
  jump_line_y (fst (trace [WorkerPass (mkWorld (Some (mkFrame 720 1280 2)) true None false) 0]
                      lined)) = 192
  /\ duck_line_y (fst (trace [WorkerPass (mkWorld (Some (mkFrame 720 1280 2)) true None
                                            false) 0] lined)) = 288
  /\ lines_initialized
       (fst (trace [WorkerPass (mkWorld (Some (mkFrame 720 1280 2)) true None false) 0]
               lined)) = true.
Proof.
  apply (@lines_are_set_once Q Exact
           [WorkerPass (mkWorld (Some (mkFrame 720 1280 2)) true None false) 0] lined).
  reflexivity.
Defined.

End DetectorFacts.

(** ** Finger detection and the finger rectangles *)

Module FingerFacts.
Import HandDetection.

(** The tip of finger [i]: the first two coordinates of landmark
    [(i + 1) * 4], if the hand has that landmark. *)
Definition tip (lmList : list (Z * Z * Z)) (i : nat) : option (Z * Z) :=
  match nth_error lmList ((i + 1) * 4) with
  | Some (x, y, _) => Some (x, y)
  | None => None
  end.

(** What the dictionary of a hand says about the hand it was made from. *)
Definition describes (fingerup : list Z) (hand : Hand) (data : HandData) : Prop :=
  fingers_up data = fingerup
  /\ List.length (fingers_centers data) = 5%nat
  /\ sum_fingers fingerup = Some (total_fingers_up data)
  /\ forall (i : nat) (up : Z),
       (i < 5)%nat -> nth_error fingerup i = Some up ->
       nth_error (fingers_centers data) i
       = if up =? 1 then tip (lmList hand) i else Some marker.

Lemma centers_loop_spec (fingerup : list Z) (lmList : list (Z * Z * Z)) (range : list nat) :
  forall centers centers' : list (Z * Z),
    centers_loop fingerup lmList range centers = Some centers' ->
    NoDup range ->
    (forall i, In i range -> (i < List.length centers)%nat) ->
    List.length centers' = List.length centers
    /\ (forall i, ~ In i range -> nth_error centers' i = nth_error centers i)
    /\ (forall i up, In i range -> nth_error fingerup i = Some up ->
          nth_error centers' i = if up =? 1 then tip lmList i else nth_error centers i).
Proof.
  induction range as [|i rest IH]; intros centers centers' E N B; cbn [centers_loop] in E.
  - injection E as <-. split; [reflexivity|]. split; [reflexivity|]. intros i up [].
  - inversion N as [|? ? Ni Nr]; subst.
    destruct (nth_error fingerup i) as [up0|] eqn:U; [|discriminate].
    destruct (up0 =? 1) eqn:T.
    + destruct (nth_error lmList ((i + 1) * 4)) as [[[x y] z]|] eqn:L; [|discriminate].
      destruct (IH _ _ E Nr) as (A & O & I).
      { intros j Hj. rewrite BalloonsLoopFacts.replace_nth_length. apply B. right. exact Hj. }
      rewrite BalloonsLoopFacts.replace_nth_length in A.
      split; [exact A|]. split.
      * intros j Hj. rewrite O by (intros X; apply Hj; right; exact X).
        apply BalloonsLoopFacts.replace_nth_other. intros ->. apply Hj. left. reflexivity.
      * intros j up [<- | Hj] Uj.
        -- rewrite U in Uj. injection Uj as <-. rewrite T, (O i Ni).
           rewrite BalloonsLoopFacts.replace_nth_same by (apply B; left; reflexivity).
           unfold tip. rewrite L. reflexivity.
        -- rewrite (I j up Hj Uj). destruct (up =? 1); [reflexivity|].
           apply BalloonsLoopFacts.replace_nth_other. intros ->. contradiction.
    + destruct (IH _ _ E Nr) as (A & O & I).
      { intros j Hj. apply B. right. exact Hj. }
      split; [exact A|]. split.
      * intros j Hj. apply O. intros X. apply Hj. right. exact X.
      * intros j up [<- | Hj] Uj.
        -- rewrite U in Uj. injection Uj as <-. rewrite T. apply O, Ni.
        -- apply I; assumption.
Qed.

Section Detector.
Variable fingersUp : Hand -> list Z.

Lemma hand_entry_describes (hand : Hand) (data : HandData) :
  hand_entry fingersUp hand = Some data -> describes (fingersUp hand) hand data.
Proof.
  unfold hand_entry, describes.
  destruct (sum_fingers (fingersUp hand)) as [sum|] eqn:S; [|discriminate].
  destruct (centers_loop _ _ _ _) as [centers|] eqn:C; [|discriminate].
  intros X. injection X as <-. cbn [fingers_up fingers_centers total_fingers_up].
  destruct (centers_loop_spec _ _ _ _ _ C) as (A & _ & I).
  { repeat constructor; cbn; intuition lia. }
  { cbn. intros i Hi. intuition lia. }
  split; [reflexivity|]. split; [exact A|]. split; [reflexivity|].
  intros i up Hi U. rewrite (I i up); [|cbn; lia|exact U].
  destruct (up =? 1); [reflexivity|].
  destruct i as [|[|[|[|[|i]]]]]; try lia; reflexivity.
Qed.

Lemma detect_hands_cases (hands : list Hand) (hd : HandsData) :
  detect_hands fingersUp hands = Some hd ->
  match left_and_right hands with
  | (l, r) =>
      match l with
      | Some hand => exists data, left_hand hd = Some data
                                  /\ hand_entry fingersUp hand = Some data
      | None => left_hand hd = None
      end
      /\ match r with
         | Some hand => exists data, right_hand hd = Some data
                                     /\ hand_entry fingersUp hand = Some data
         | None => right_hand hd = None
         end
  end.
Proof.
  unfold detect_hands. destruct (left_and_right hands) as [[l|] [r|]].
  - destruct (hand_entry fingersUp l) as [dl|] eqn:L; [|discriminate].
    destruct (hand_entry fingersUp r) as [dr|] eqn:R; [|discriminate].
    intros X. injection X as <-. cbn. split; eexists; split; reflexivity.
  - destruct (hand_entry fingersUp l) as [dl|] eqn:L; [|discriminate].
    intros X. injection X as <-. cbn. split; [eexists; split; reflexivity|reflexivity].
  - destruct (hand_entry fingersUp r) as [dr|] eqn:R; [|discriminate].
    intros X. injection X as <-. cbn. split; [reflexivity|eexists; split; reflexivity].
  - intros X. injection X as <-. cbn. split; reflexivity.
Qed.

Lemma left_and_right_in (hands : list Hand) (hand : Hand) :
  fst (left_and_right hands) = Some hand \/ snd (left_and_right hands) = Some hand ->
  In hand (firstn 2 hands).
Proof.
  unfold left_and_right. destruct hands as [|a [|b more]]; cbn.
  - intros [X|X]; discriminate.
  - destruct (String.eqb (type a) "Left"); cbn; intros [X|X]; try discriminate;
      injection X as <-; auto.
  - destruct (String.eqb (type a) "Left"); cbn; intros [X|X]; injection X as <-; auto.
Qed.

(** X26: what [detect_hands] reports.  Each dictionary it returns is made
    from one of the first two hands of the detector: it holds that hand's
    finger flags, their sum over the five fingers, and exactly five finger
    centres, the centre of a finger being the tip landmark [(i + 1) * 4] of
    the hand if the finger's flag is 1 and the marker [(-1, -1)] otherwise.
    No hand gives no dictionary, one hand gives one, two or more give both;
    a single hand labelled "Left" is reported as the right hand, any other
    single hand as the left hand. *)
Theorem detect_hands_reports (hands : list Hand) (hd : HandsData) :
  detect_hands fingersUp hands = Some hd ->
  (forall data : HandData,
     left_hand hd = Some data \/ right_hand hd = Some data ->
     exists hand, In hand (firstn 2 hands) /\ describes (fingersUp hand) hand data)
  /\ (hands = [] -> left_hand hd = None /\ right_hand hd = None)
  /\ (forall hand, hands = [hand] ->
        if String.eqb (type hand) "Left"
        then left_hand hd = None /\ right_hand hd <> None
        else left_hand hd <> None /\ right_hand hd = None)
  /\ ((2 <= List.length hands)%nat -> left_hand hd <> None /\ right_hand hd <> None).
Proof.
  intros E. pose proof (detect_hands_cases hands hd E) as C.
  pose proof (left_and_right_in hands) as I.
  split; [|split; [|split]].
  - intros data D.
    destruct (left_and_right hands) as [l r]. cbn [fst snd] in I. destruct C as [Cl Cr].
    destruct D as [D|D].
    + destruct l as [hand|]; [|congruence].
      destruct Cl as (data' & A & B). exists hand. split; [apply I; auto|].
      apply hand_entry_describes. congruence.
    + destruct r as [hand|]; [|congruence].
      destruct Cr as (data' & A & B). exists hand. split; [apply I; auto|].
      apply hand_entry_describes. congruence.
  - intros ->. cbn in C. exact C.
  - intros hand ->. cbn in C. destruct (String.eqb (type hand) "Left").
    + destruct C as [A (data & B & _)]. split; congruence.
    + destruct C as [(data & B & _) A]. split; congruence.
  - intros L. destruct hands as [|a [|b more]]; cbn in L; try lia.
    cbn in C. destruct (String.eqb (type a) "Left");
      destruct C as [(dl & A & _) (dr & B & _)]; split; congruence.
Qed.

(** *** The finger rectangles of the balloon game *)

Section Rects.
Context {F : Type} `{PyFloat F}.
Variable T : Mapper.CamTransform F.

(** The rectangles of one hand: one for each centre that is not the marker. *)
Lemma fingers_rects_length (centers : list (Z * Z)) :
  List.length (Mapper.fingers_rects T centers)
  = List.length (filter (fun c => negb (Mapper.is_marker c)) centers).
Proof.
  induction centers as [|c rest IH]; cbn [Mapper.fingers_rects filter]; [reflexivity|].
  destruct (Mapper.is_marker c); cbn [negb List.length]; [exact IH|].
  rewrite IH. reflexivity.
Qed.

Lemma fingers_rects_size (centers : list (Z * Z)) :
  Forall (fun r => Py.width r = 20 /\ Py.height r = 20) (Mapper.fingers_rects T centers).
Proof.
  induction centers as [|c rest IH]; cbn [Mapper.fingers_rects]; [constructor|].
  destruct (Mapper.is_marker c); [exact IH|]. constructor; [split; reflexivity|exact IH].
Qed.

Lemma markers_give_nothing : Mapper.fingers_rects T (repeat marker 5) = [].
Proof. reflexivity. Qed.

(** A hand whose flags are 0 or 1 and whose landmarks are pixels. *)
Definition plain (hand : Hand) : Prop :=
  Forall (fun up => up = 0 \/ up = 1) (firstn 5 (fingersUp hand))
  /\ Forall (fun t => 0 <= fst (fst t) /\ 0 <= snd (fst t)) (lmList hand).

Lemma tip_is_no_marker (hand : Hand) (i : nat) (c : Z * Z) :
  plain hand -> tip (lmList hand) i = Some c -> Mapper.is_marker c = false.
Proof.
  intros [_ P]. unfold tip.
  destruct (nth_error (lmList hand) ((i + 1) * 4)) as [[[x y] z]|] eqn:E; [|discriminate].
  intros X. injection X as <-.
  apply nth_error_In in E. rewrite Forall_forall in P. specialize (P _ E). cbn in P.
  unfold Mapper.is_marker. cbn.
  assert ((x =? -1) = false) as -> by (apply Z.eqb_neq; lia). reflexivity.
Qed.

Lemma plain_hand_rects (hand : Hand) (data : HandData) :
  plain hand -> describes (fingersUp hand) hand data ->
  Z.of_nat (List.length (Mapper.fingers_rects T (fingers_centers data)))
  = total_fingers_up data.
Proof.
  intros P (Fu & Len & Sum & Ce). pose proof P as [Pf _].
  rewrite fingers_rects_length.
  destruct (fingersUp hand) as [|f0 [|f1 [|f2 [|f3 [|f4 more]]]]]; try discriminate.
  cbn in Sum. injection Sum as <-.
  cbn [firstn] in Pf.
  inversion Pf as [|? ? P0 Pf1]; subst. inversion Pf1 as [|? ? P1 Pf2]; subst.
  inversion Pf2 as [|? ? P2 Pf3]; subst. inversion Pf3 as [|? ? P3 Pf4]; subst.
  inversion Pf4 as [|? ? P4 _]; subst.
  destruct (fingers_centers data) as [|c0 [|c1 [|c2 [|c3 [|c4 [|c5 cs]]]]]];
    try discriminate.
  pose proof (Ce 0%nat f0 ltac:(lia) eq_refl) as C0.
  pose proof (Ce 1%nat f1 ltac:(lia) eq_refl) as C1.
  pose proof (Ce 2%nat f2 ltac:(lia) eq_refl) as C2.
  pose proof (Ce 3%nat f3 ltac:(lia) eq_refl) as C3.
  pose proof (Ce 4%nat f4 ltac:(lia) eq_refl) as C4.
  cbn [nth_error] in C0, C1, C2, C3, C4.
  assert (forall (i : nat) (up : Z) (c : Z * Z),
            up = 0 \/ up = 1 ->
            Some c = (if up =? 1 then tip (lmList hand) i else Some marker) ->
            Z.of_nat (List.length (filter (fun c => negb (Mapper.is_marker c)) [c])) = up)
    as One.
  { intros i up c [-> | ->]; cbn [Z.eqb Pos.eqb].
    - intros X. injection X as ->. reflexivity.
    - intros X. symmetry in X. rewrite (tip_is_no_marker hand i c P X)
        || (cbn [filter]; rewrite (tip_is_no_marker hand i c P X)). reflexivity. }
  pose proof (One 0%nat f0 c0 P0 C0) as Q0. pose proof (One 1%nat f1 c1 P1 C1) as Q1.
  pose proof (One 2%nat f2 c2 P2 C2) as Q2. pose proof (One 3%nat f3 c3 P3 C3) as Q3.
  pose proof (One 4%nat f4 c4 P4 C4) as Q4.
  change [c0; c1; c2; c3; c4] with ([c0] ++ [c1] ++ [c2] ++ [c3] ++ [c4]).
  rewrite !filter_app, !length_app, !Nat2Z.inj_add. lia.
Qed.

Definition raised (hand : option HandData) : Z :=
  match hand with
  | Some data => total_fingers_up data
  | None => 0
  end.

(** X27: the balloon game gets one 20 x 20 rectangle for every raised
    finger and none besides: for hands whose finger flags are 0 or 1 and
    whose landmarks are pixels, the number of finger rectangles is the sum of
    [total_fingers_up] over the hands reported, so at most ten; a hand that
    is not reported ([None], where the game falls back to five markers)
    gives none, and with no hand there is nothing to pop a balloon with. *)
Theorem one_rect_per_raised_finger (hands : list Hand) (hd : HandsData) :
  detect_hands fingersUp hands = Some hd ->
  Forall plain (firstn 2 hands) ->
  Z.of_nat (List.length (fingers_centers_rects T hd))
  = raised (left_hand hd) + raised (right_hand hd)
  /\ (List.length (fingers_centers_rects T hd) <= 10)%nat
  /\ Forall (fun r => Py.width r = 20 /\ Py.height r = 20) (fingers_centers_rects T hd)
  /\ (hands = [] -> fingers_centers_rects T hd = []).
Proof.
  intros E P. pose proof (detect_hands_cases hands hd E) as C.
  pose proof (left_and_right_in hands) as I.
  assert (forall side : option HandData,
            side = left_hand hd \/ side = right_hand hd ->
            Z.of_nat (List.length (Mapper.fingers_rects T (fingers_centers_or_markers side)))
            = raised side
            /\ (List.length (Mapper.fingers_rects T (fingers_centers_or_markers side)) <= 5)%nat)
    as Side.
  { intros side Hs. destruct side as [data|];
      [|cbn; split; [reflexivity|lia]].
    assert (exists hand, In hand (firstn 2 hands) /\ describes (fingersUp hand) hand data)
      as (hand & Hin & D).
    { destruct (left_and_right hands) as [l r]. cbn [fst snd] in I. destruct C as [Cl Cr].
      destruct Hs as [Hs|Hs].
      - destruct l as [hand|]; [|congruence]. destruct Cl as (data' & A & B).
        exists hand. split; [apply I; auto|]. apply hand_entry_describes. congruence.
      - destruct r as [hand|]; [|congruence]. destruct Cr as (data' & A & B).
        exists hand. split; [apply I; auto|]. apply hand_entry_describes. congruence. }
    rewrite Forall_forall in P. cbn [fingers_centers_or_markers raised].
    split; [exact (plain_hand_rects hand data (P hand Hin) D)|].
    rewrite fingers_rects_length. destruct D as (_ & L & _).
    pose proof (filter_length_le (fun c => negb (Mapper.is_marker c)) (fingers_centers data)).
    lia. }
  destruct (Side (left_hand hd) ltac:(auto)) as [L1 L2].
  destruct (Side (right_hand hd) ltac:(auto)) as [R1 R2].
  unfold fingers_centers_rects. rewrite length_app.
  split; [lia|]. split; [lia|]. split.
  - apply Forall_app. split; apply fingers_rects_size.
  - intros ->. cbn in C. destruct C as [-> ->]. reflexivity.
Qed.

End Rects.

End Detector.

(** A detector that sees an open right hand of the player with index and
    middle finger up, labelled "Left" in the mirrored image. *)
Definition two_fingers : Hand :=
  mkHand "Left"
    (map (fun k => (100 + 10 * Z.of_nat k, 400 - 10 * Z.of_nat k, 0)) (seq 0 21)).

Definition flags_of (hand : Hand) : list Z := [0; 1; 1; 0; 0].

Definition seen : HandsData :=
  mkHandsData None (Some (mkHandData [0; 1; 1; 0; 0] 2
                            [(-1, -1); (180, 320); (220, 280); (-1, -1); (-1, -1)])).

Definition unit_transform : Mapper.CamTransform Q :=
  Mapper.mkCamTransform (1 # 1)%Q (1 # 1)%Q 0 0.

Lemma detect_hands_reports_witness :
  (forall data : HandData,
     left_hand seen = Some data \/ right_hand seen = Some data ->
     exists hand, In hand (firstn 2 [two_fingers]) /\ describes (flags_of hand) hand data)
  /\ ([two_fingers] = [] -> left_hand seen = None /\ right_hand seen = None)
  /\ (forall hand, [two_fingers] = [hand] ->
        if String.eqb (type hand) "Left"
        then left_hand seen = None /\ right_hand seen <> None
        else left_hand seen <> None /\ right_hand seen = None)
  /\ ((2 <= List.length [two_fingers])%nat ->
      left_hand seen <> None /\ right_hand seen <> None).
Proof.
  exact (detect_hands_reports flags_of [two_fingers] seen eq_refl).
Defined.

Lemma one_rect_per_raised_finger_witness :
  Z.of_nat (List.length (fingers_centers_rects unit_transform seen))
  = raised (left_hand seen) + raised (right_hand seen)
  /\ (List.length (fingers_centers_rects unit_transform seen) <= 10)%nat
  /\ Forall (fun r => Py.width r = 20 /\ Py.height r = 20)
       (fingers_centers_rects unit_transform seen)
  /\ ([two_fingers] = [] -> fingers_centers_rects unit_transform seen = []).
Proof.
  apply (@one_rect_per_raised_finger flags_of Q Exact unit_transform [two_fingers] seen
           eq_refl).
  constructor; [|constructor]. split.
  - cbn. repeat (constructor; [lia|]). constructor.
  - apply Forall_forall. intros t Ht. unfold two_fingers in Ht. cbn [lmList] in Ht.
    apply in_map_iff in Ht as (k & <- & Hk). apply in_seq in Hk. cbn [fst snd]. lia.
Defined.

End FingerFacts.

(** ** Random helpers and the generation of the waves *)

Module WavesFacts.
Import Waves.

(** *** [randint], [range], [accumulate] *)

Lemma randint_bounds (a b : Z) (draw : nat) (v : Z) :
  randint a b draw = Some v -> a <= v <= b.
Proof.
  unfold randint. destruct (b <? a) eqn:E; [discriminate|].
  apply Z.ltb_ge in E. intros X. injection X as <-.
  pose proof (Z.mod_pos_bound (Z.of_nat draw) (b - a + 1) ltac:(lia)). lia.
Qed.

Lemma randint_some (a b : Z) (draw : nat) :
  a <= b -> exists v, randint a b draw = Some v.
Proof.
  intros L. unfold randint.
  assert ((b <? a) = false) as -> by (apply Z.ltb_ge; lia). eexists. reflexivity.
Qed.

Lemma range_length (start stop : Z) :
  List.length (range start stop) = Z.to_nat (stop - start).
Proof. unfold range. rewrite length_map, length_seq. reflexivity. Qed.

Lemma range_nth (start stop : Z) (k : nat) :
  (k < Z.to_nat (stop - start))%nat ->
  nth_error (range start stop) k = Some (start + Z.of_nat k).
Proof.
  intros L. unfold range. rewrite nth_error_map, nth_error_seq.
  assert ((k <? Z.to_nat (stop - start))%nat = true) as -> by (apply Nat.ltb_lt; exact L).
  reflexivity.
Qed.

Definition total_of (l : list Z) : Z := fold_right Z.add 0 l.

Lemma total_of_cons (w : Z) (l : list Z) : total_of (w :: l) = w + total_of l.
Proof. reflexivity. Qed.

Lemma accumulate_length (total : Z) (weights : list Z) :
  List.length (accumulate total weights) = List.length weights.
Proof.
  revert total. induction weights as [|w rest IH]; intros total; cbn; [reflexivity|].
  rewrite IH. reflexivity.
Qed.

Lemma accumulate_nth (weights : list Z) :
  forall (total : Z) (i : nat),
    (i < List.length weights)%nat ->
    nth i (accumulate total weights) 0 = total + total_of (firstn (S i) weights).
Proof.
  induction weights as [|w rest IH]; intros total i L; cbn in L; [lia|].
  rewrite firstn_cons, total_of_cons. destruct i as [|i]; cbn [accumulate nth].
  - rewrite firstn_0. cbn. lia.
  - rewrite IH by lia. lia.
Qed.

Lemma accumulate_last (rest : list Z) :
  forall w total d : Z,
    last (accumulate total (w :: rest)) d = total + total_of (w :: rest).
Proof.
  induction rest as [|w' rest IH]; intros w total d.
  - cbn. lia.
  - change (accumulate total (w :: w' :: rest))
      with ((total + w) :: accumulate (total + w) (w' :: rest)).
    change (last ((total + w) :: accumulate (total + w) (w' :: rest)) d)
      with (last (accumulate (total + w) (w' :: rest)) d).
    rewrite IH, (total_of_cons w). lia.
Qed.

Lemma total_of_step (l : list Z) :
  forall (r : nat) (x : Z),
    nth_error l r = Some x ->
    total_of (firstn (S r) l) = total_of (firstn r l) + x.
Proof.
  induction l as [|w rest IH]; intros r x E.
  - destruct r; discriminate.
  - destruct r as [|r]; cbn [nth_error] in E.
    + injection E as ->. rewrite firstn_cons, !firstn_0, total_of_cons. cbn. lia.
    + rewrite (firstn_cons (S r)), (firstn_cons r), !total_of_cons, (IH r x E). lia.
Qed.

Lemma total_of_firstn_le (weights : list Z) (i j : nat) :
  Forall (fun w => 0 <= w) weights -> (i <= j)%nat ->
  total_of (firstn i weights) <= total_of (firstn j weights).
Proof.
  intros P. revert i j. induction P as [|w rest Hw _ IH]; intros i j L.
  - rewrite !firstn_nil. lia.
  - destruct i as [|i]; destruct j as [|j]; try lia.
    + rewrite firstn_0, firstn_cons, total_of_cons. specialize (IH 0%nat j ltac:(lia)).
      rewrite firstn_0 in IH. cbn in *. lia.
    + rewrite !firstn_cons, !total_of_cons. specialize (IH i j ltac:(lia)). lia.
Qed.

(** *** [bisect_right] *)

Lemma bisect_loop_bounds (a : list Z) (x : Z) (turns : nat) :
  forall lo hi : nat,
    (lo <= hi)%nat -> (lo <= bisect_loop turns a x lo hi <= hi)%nat.
Proof.
  induction turns as [|t IH]; intros lo hi L; cbn [bisect_loop]; [lia|].
  destruct (lo <? hi)%nat eqn:E; [|lia]. apply Nat.ltb_lt in E.
  assert (lo <= (lo + hi) / 2 < hi)%nat as M.
  { split; [apply Nat.div_le_lower_bound; lia|apply Nat.Div0.div_lt_upper_bound; lia]. }
  destruct (x <? nth ((lo + hi) / 2) a 0).
  - specialize (IH lo ((lo + hi) / 2)%nat ltac:(lia)). lia.
  - specialize (IH ((lo + hi) / 2 + 1)%nat hi ltac:(lia)). lia.
Qed.

(** On a list in non-decreasing order the loop finds the place of [x]:
    everything before it is at most [x], everything from it on is greater. *)
Lemma bisect_loop_place (a : list Z) (x : Z) :
  (forall i j : nat, (i <= j < List.length a)%nat -> nth i a 0 <= nth j a 0) ->
  forall (turns lo hi : nat),
    (hi - lo <= turns)%nat -> (lo <= hi <= List.length a)%nat ->
    let r := bisect_loop turns a x lo hi in
    (lo <= r <= hi)%nat
    /\ (forall i : nat, (lo <= i < r)%nat -> nth i a 0 <= x)
    /\ (forall i : nat, (r <= i < hi)%nat -> x < nth i a 0).
Proof.
  intros Sorted. induction turns as [|t IH]; intros lo hi T L; cbn [bisect_loop].
  - cbn zeta. repeat split; intros; lia.
  - destruct (lo <? hi)%nat eqn:E; [|apply Nat.ltb_ge in E; cbn zeta; repeat split; intros; lia].
    apply Nat.ltb_lt in E.
    assert (lo <= (lo + hi) / 2 < hi)%nat as M.
    { split; [apply Nat.div_le_lower_bound; lia|apply Nat.Div0.div_lt_upper_bound; lia]. }
    set (mid := ((lo + hi) / 2)%nat) in *.
    destruct (x <? nth mid a 0) eqn:C.
    + apply Z.ltb_lt in C.
      destruct (IH lo mid ltac:(lia) ltac:(lia)) as (B & Below & Above).
      cbn zeta. split; [lia|]. split; [exact Below|].
      intros i Hi. destruct (Nat.lt_ge_cases i mid) as [Lt|Ge].
      * apply Above. lia.
      * pose proof (Sorted mid i ltac:(lia)). lia.
    + apply Z.ltb_ge in C.
      destruct (IH (mid + 1)%nat hi ltac:(lia) ltac:(lia)) as (B & Below & Above).
      cbn zeta. split; [lia|]. split; [|exact Above].
      intros i Hi. destruct (Nat.le_gt_cases i mid) as [Le|Gt].
      * pose proof (Sorted i mid ltac:(lia)). lia.
      * apply Below. lia.
Qed.

(** *** [biased_random_int] *)

Definition within (min_value max_value : Z) (bias_range : Z * Z) : Prop :=
  (min_value <= fst bias_range <= max_value) /\ (min_value <= snd bias_range <= max_value).

Lemma within_test (min_value max_value : Z) (bias_range : Z * Z) :
  ((min_value <=? fst bias_range) && (fst bias_range <=? max_value))
  && ((min_value <=? snd bias_range) && (snd bias_range <=? max_value)) = true
  <-> within min_value max_value bias_range.
Proof. unfold within. rewrite !andb_true_iff, !Z.leb_le. tauto. Qed.

(** The weights of the numbers below [v]. *)
Definition weights_of (min_value max_value : Z) (bias_range : Z * Z) (bias_strength : Z)
  : list Z :=
  map (weight bias_range bias_strength) (range min_value (max_value + 1)).

Definition weight_below (min_value max_value : Z) (bias_range : Z * Z) (bias_strength : Z)
  (v : Z) : Z :=
  total_of (firstn (Z.to_nat (v - min_value))
              (weights_of min_value max_value bias_range bias_strength)).

Lemma weights_nonneg (min_value max_value : Z) (bias_range : Z * Z) (bias_strength : Z) :
  0 <= bias_strength ->
  Forall (fun w => 0 <= w) (weights_of min_value max_value bias_range bias_strength).
Proof.
  intros S. unfold weights_of. apply Forall_map, Forall_forall. intros num _.
  unfold weight. destruct (_ && _); lia.
Qed.

Lemma total_of_ge (l : list Z) :
  Forall (fun w => 1 <= w) l -> Z.of_nat (List.length l) <= total_of l.
Proof.
  induction 1 as [|w rest Hw _ IH]; [cbn; lia|].
  rewrite total_of_cons. cbn [List.length]. lia.
Qed.

Lemma choices_eq (population weights : list Z) (point : Z) :
  List.length weights = List.length population -> weights <> [] ->
  choices population weights point
  = if total_of weights <=? 0 then None
    else nth_error population
           (bisect (accumulate 0 weights) point 0 (List.length population - 1)).
Proof.
  intros L N. unfold choices. rewrite accumulate_length, L, Nat.eqb_refl. cbn [negb].
  destruct weights as [|w rest]; [congruence|].
  rewrite accumulate_last. cbn [accumulate]. reflexivity.
Qed.

Lemma choices_spec (population weights : list Z) (point v : Z) :
  choices population weights point = Some v ->
  List.length weights = List.length population
  /\ 0 < total_of weights
  /\ exists r : nat,
       (r < List.length population)%nat
       /\ nth_error population r = Some v
       /\ r = bisect (accumulate 0 weights) point 0 (List.length population - 1).
Proof.
  intros X.
  assert (List.length weights = List.length population) as L.
  { unfold choices in X. rewrite accumulate_length in X.
    destruct (List.length weights =? List.length population)%nat eqn:E;
      [apply Nat.eqb_eq, E|discriminate]. }
  assert (weights <> []) as N.
  { intros ->. unfold choices in X. destruct population; cbn in X; discriminate X. }
  rewrite (choices_eq _ _ _ L N) in X.
  destruct (total_of weights <=? 0) eqn:T; [discriminate|]. apply Z.leb_gt in T.
  split; [exact L|]. split; [exact T|].
  eexists. split; [|split; [exact X|reflexivity]].
  apply nth_error_Some. rewrite X. discriminate.
Qed.

(** The three facts about [biased_random_int], for any point of the draw. *)
Lemma biased_random_int_spec (min_value max_value : Z) (bias_range : Z * Z)
  (bias_strength point : Z) :
  let weights := weights_of min_value max_value bias_range bias_strength in
  let below := weight_below min_value max_value bias_range bias_strength in
  (1 <= bias_strength ->
   (biased_random_int min_value max_value bias_range bias_strength point = None
    <-> ~ within min_value max_value bias_range))
  /\ (forall v : Z,
        biased_random_int min_value max_value bias_range bias_strength point = Some v ->
        min_value <= v <= max_value
        /\ (0 <= bias_strength -> 0 <= point < total_of weights ->
            below v <= point < below v + weight bias_range bias_strength v)).
Proof.
  cbn zeta. unfold biased_random_int.
  fold (weights_of min_value max_value bias_range bias_strength).
  set (weights := weights_of min_value max_value bias_range bias_strength).
  set (population := range min_value (max_value + 1)).
  assert (List.length weights = List.length population) as LW.
  { unfold weights, weights_of. apply length_map. }
  assert (List.length population = Z.to_nat (max_value + 1 - min_value)) as LP
    by apply range_length.
  pose proof (within_test min_value max_value bias_range) as W.
  destruct (_ && _) eqn:E; cbn [negb].
  - assert (within min_value max_value bias_range) as Wi by (apply W; reflexivity).
    assert (min_value <= max_value) as Lm by (destruct Wi; lia).
    split.
    + intros Hs. split; [|intros X; contradiction].
      intros X. exfalso.
      assert (weights <> []) as NE.
      { intros Y. rewrite Y in LW. cbn in LW. lia. }
      rewrite (choices_eq _ _ _ LW NE) in X.
      assert (Z.of_nat (List.length weights) <= total_of weights) as G.
      { apply total_of_ge. unfold weights, weights_of. apply Forall_map, Forall_forall.
        intros num _. unfold weight.
        destruct ((fst bias_range <=? num) && (num <=? snd bias_range)); lia. }
      assert ((total_of weights <=? 0) = false) as Z0 by (apply Z.leb_gt; lia).
      rewrite Z0 in X.
      pose proof (bisect_loop_bounds (accumulate 0 weights) point
                    (List.length population - 1 - 0) 0 (List.length population - 1)
                    ltac:(lia)) as B.
      apply nth_error_None in X. unfold bisect in X. lia.
    + intros v X. destruct (choices_spec _ _ _ _ X) as (_ & T & r & Hr & Nv & Er).
      unfold population in Nv. rewrite range_nth in Nv by lia. injection Nv as <-.
      split; [lia|]. intros Hs P.
      unfold weight_below. fold weights.
      replace (Z.to_nat (min_value + Z.of_nat r - min_value)) with r by lia.
      assert (nth_error weights r = Some (weight bias_range bias_strength
                                            (min_value + Z.of_nat r))) as Wr.
      { unfold weights, weights_of. rewrite nth_error_map. fold population.
        unfold population. rewrite range_nth by lia. reflexivity. }
      assert (total_of (firstn (S r) weights)
              = total_of (firstn r weights)
                + weight bias_range bias_strength (min_value + Z.of_nat r)) as Step.
      { apply total_of_step, Wr. }
      pose proof (weights_nonneg min_value max_value bias_range bias_strength Hs) as NN.
      fold weights in NN.
      assert (forall i j : nat,
                (i <= j < List.length (accumulate 0 weights))%nat ->
                nth i (accumulate 0 weights) 0 <= nth j (accumulate 0 weights) 0) as Sorted.
      { intros i j Hij. rewrite accumulate_length in Hij.
        rewrite !accumulate_nth by lia.
        pose proof (total_of_firstn_le weights (S i) (S j) NN ltac:(lia)). lia. }
      destruct (bisect_loop_place (accumulate 0 weights) point Sorted
                  (List.length population - 1 - 0) 0 (List.length population - 1)
                  ltac:(lia) ltac:(rewrite accumulate_length; lia))
        as (_ & Below & Above).
      fold (bisect (accumulate 0 weights) point 0 (List.length population - 1)) in Below, Above.
      rewrite <- Er in Below, Above.
      split.
      * destruct r as [|r']; [cbn; lia|].
        specialize (Below r' ltac:(lia)). rewrite accumulate_nth in Below by lia. lia.
      * rewrite <- Step.
        destruct (Nat.eq_dec r (List.length population - 1)) as [Last|NotLast].
        -- replace (firstn (S r) weights) with weights; [lia|].
           symmetry. apply firstn_all2. lia.
        -- specialize (Above r ltac:(lia)). rewrite accumulate_nth in Above by lia. lia.
  - assert (~ within min_value max_value bias_range) as Wi.
    { intros X. apply W in X. congruence. }
    split.
    + intros _. split; [intros _; exact Wi|reflexivity].
    + intros v X. discriminate.
Qed.

(** X28: what [biased_random_int] returns.  It raises its ValueError exactly
    when an end of the bias range lies outside [min_value, max_value] (for a
    bias strength of at least 1).  A number it returns lies in
    [min_value, max_value].  With a non-negative strength and a point of the
    random draw below the total weight, the number returned is the one whose
    share of the weights holds the point: the numbers of the bias range are
    drawn [bias_strength] times as often as the others. *)
Theorem biased_random_int_weighted (min_value max_value : Z) (bias_range : Z * Z)
  (bias_strength point : Z) :
  let weights := weights_of min_value max_value bias_range bias_strength in
  let below := weight_below min_value max_value bias_range bias_strength in
  (1 <= bias_strength ->
   (biased_random_int min_value max_value bias_range bias_strength point = None
    <-> ~ within min_value max_value bias_range))
  /\ (forall v : Z,
        biased_random_int min_value max_value bias_range bias_strength point = Some v ->
        min_value <= v <= max_value
        /\ (0 <= bias_strength -> 0 <= point < total_of weights ->
            below v <= point < below v + weight bias_range bias_strength v)).
Proof.
  exact (biased_random_int_spec min_value max_value bias_range bias_strength point).
Qed.

(** *** [init_balloons] *)

Section Generation.
Context {F : Type} `{PyFloat F}.

(** What every balloon is like when it is generated for wave [wave_number]. *)
Record fresh (f : Field) (wave_number : nat) (b : Balloons.Balloon) : Prop := mk_fresh {
  fresh_unpopped : Balloons.is_popped b = false;
  fresh_rect :
    Balloons.rect b
    = Py.mkRect (Py.rx (Balloons.rect b)) (end_y_cam f + 100) 100 100;
  fresh_x :
    start_x_cam f + 110 <= Py.rx (Balloons.rect b) <= end_x_cam f + start_x_cam f + 110;
  fresh_time : 0 <= Balloons.time b <= max_wave_time f;
  fresh_kind :
    if Balloons.is_combo b
    then Balloons.type b = 1 \/ Balloons.type b = 2 \/ Balloons.type b = 3
    else Balloons.type b = 0;
  fresh_speed :
    exists lo hi : Z,
      nth_error (if Balloons.is_combo b then combo_ballons_speed_per_wave
                 else normal_ballons_speed_per_wave) wave_number = Some (lo, hi)
      /\ lo <= Balloons.speed b <= hi
}.

Lemma one_balloon_fresh (f : Field) (wave_number : nat) (d : Draws F) (b : Balloons.Balloon) :
  one_balloon f wave_number d = Some b -> fresh f wave_number b.
Proof.
  unfold one_balloon.
  destruct (nth_error ballons_combo_probability_per_wave wave_number) as [p|]; [|discriminate].
  destruct (nth_error combo_ballons_speed_per_wave wave_number) as [[clo chi]|] eqn:Ec;
    [|discriminate].
  destruct (nth_error normal_ballons_speed_per_wave wave_number) as [[nlo nhi]|] eqn:En;
    [|discriminate].
  destruct (randint 0 (end_x_cam f) (x_draw d)) as [x|] eqn:Ex; [|discriminate].
  apply randint_bounds in Ex.
  set (is_combo := random_bool_by_chance p (chance_draw d)).
  destruct (randint _ _ (speed_draw d)) as [speed|] eqn:Es; [|discriminate].
  apply randint_bounds in Es.
  destruct (biased_random_int 0 (max_wave_time f) (0, max_wave_time f / 2) 10 (time_point d))
    as [t|] eqn:Et; [|discriminate].
  destruct (biased_random_int_spec 0 (max_wave_time f) (0, max_wave_time f / 2) 10
              (time_point d)) as [_ Bt].
  destruct (Bt t Et) as [Bt' _].
  intros X. injection X as <-. unfold Balloons.new_balloon, Balloons.balloon_type.
  constructor; cbn; try reflexivity; try lia.
  - destruct is_combo; [|reflexivity].
    apply (RunnerGameFacts.choice_of_three 1 1 2 3).
  - destruct is_combo; cbn in Es; eexists; eexists; (split; [eassumption|exact Es]).
Qed.

Lemma balloons_of_fresh (f : Field) (wave_number : nat) (draws : nat -> Draws F) (n : nat) :
  forall bs, balloons_of f wave_number draws n = Some bs ->
             List.length bs = n /\ Forall (fresh f wave_number) bs.
Proof.
  induction n as [|n IH]; intros bs; cbn [balloons_of].
  - intros X. injection X as <-. split; [reflexivity|constructor].
  - destruct (balloons_of f wave_number draws n) as [bs0|]; [|discriminate].
    destruct (one_balloon f wave_number (draws n)) as [b|] eqn:E; [|discriminate].
    intros X. injection X as <-. destruct (IH bs0 eq_refl) as [L A].
    split; [rewrite length_app; cbn; lia|].
    apply Forall_app. split; [exact A|]. constructor; [|constructor].
    exact (one_balloon_fresh f wave_number (draws n) b E).
Qed.

(** The number of balloons of a wave: within the bounds of the table, which
    start at 5. *)
Definition sized (wave_number : nat) (bs : list Balloons.Balloon) : Prop :=
  exists lo hi : Z,
    nth_error ballons_number_per_wave wave_number = Some (lo, hi)
    /\ lo <= Z.of_nat (List.length bs) <= hi
    /\ 5 <= lo.

Lemma one_wave_fresh (f : Field) (wave_number count_draw : nat) (draws : nat -> Draws F)
  (bs : list Balloons.Balloon) :
  one_wave f wave_number count_draw draws = Some bs ->
  sized wave_number bs /\ Forall (fresh f wave_number) bs.
Proof.
  unfold one_wave, sized.
  destruct (nth_error ballons_number_per_wave wave_number) as [[lo hi]|] eqn:E;
    [|discriminate].
  destruct (randint lo hi count_draw) as [n|] eqn:R; [|discriminate].
  apply randint_bounds in R. intros X.
  destruct (balloons_of_fresh f wave_number draws (Z.to_nat n) bs X) as [L A].
  split; [|exact A]. exists lo, hi. split; [reflexivity|].
  assert (5 <= lo) as L5.
  { unfold ballons_number_per_wave in E.
    destruct wave_number as [|[|[|[|[|k]]]]]; cbn in E;
      try (destruct k; discriminate); injection E as <- <-; lia. }
  lia.
Qed.

Lemma waves_upto_fresh (f : Field) (count_draws : nat -> nat) (draws : nat -> nat -> Draws F)
  (n : nat) :
  forall waves, waves_upto f count_draws draws n = Some waves ->
    List.length waves = n
    /\ forall k bs, nth_error waves k = Some bs ->
                    sized k bs /\ Forall (fresh f k) bs.
Proof.
  induction n as [|n IH]; intros waves; cbn [waves_upto].
  - intros X. injection X as <-. split; [reflexivity|]. intros [|k] bs X; discriminate.
  - destruct (waves_upto f count_draws draws n) as [ws|]; [|discriminate].
    destruct (one_wave f n (count_draws n) (draws n)) as [bs0|] eqn:E; [|discriminate].
    intros X. injection X as <-. destruct (IH ws eq_refl) as [L A].
    split; [rewrite length_app; cbn; lia|].
    intros k bs Hk. destruct (Nat.lt_ge_cases k n) as [Lt|Ge].
    + rewrite nth_error_app1 in Hk by lia. exact (A k bs Hk).
    + rewrite nth_error_app2 in Hk by lia. rewrite L in Hk.
      destruct (k - n)%nat as [|m] eqn:D; cbn in Hk; [|destruct m; discriminate].
      injection Hk as <-. replace k with n by lia.
      exact (one_wave_fresh f n (count_draws n) (draws n) bs0 E).
Qed.

(** Generation goes through whenever the tables reach and the ranges it
    draws from are not empty. *)
Lemma one_balloon_some (f : Field) (wave_number : nat) (d : Draws F) :
  (wave_number < 5)%nat -> 0 <= end_x_cam f -> 0 <= max_wave_time f ->
  exists b, one_balloon f wave_number d = Some b.
Proof.
  intros Lw Lx Lt. unfold one_balloon.
  destruct wave_number as [|[|[|[|[|k]]]]]; try lia; cbn [nth_error
    ballons_combo_probability_per_wave combo_ballons_speed_per_wave
    normal_ballons_speed_per_wave];
    (destruct (randint_some 0 (end_x_cam f) (x_draw d) Lx) as [x ->]);
    (destruct (biased_random_int 0 (max_wave_time f) (0, max_wave_time f / 2) 10
                 (time_point d)) as [t|] eqn:Et;
     [|exfalso;
       destruct (biased_random_int_spec 0 (max_wave_time f) (0, max_wave_time f / 2) 10
                   (time_point d)) as [N _];
       apply (proj1 (N ltac:(lia)) Et); unfold within; cbn [fst snd];
       pose proof (Z.div_pos (max_wave_time f) 2 Lt ltac:(lia));
       pose proof (Z.div_le_upper_bound (max_wave_time f) 2 (max_wave_time f)
                     ltac:(lia) ltac:(lia)); lia]);
    destruct (random_bool_by_chance _ (chance_draw d)); cbn [fst snd];
    match goal with
    | |- context [randint ?a ?b ?c] =>
        destruct (randint_some a b c ltac:(lia)) as [s ->]
    end; eexists; reflexivity.
Qed.

Lemma balloons_of_some (f : Field) (wave_number : nat) (draws : nat -> Draws F) (n : nat) :
  (wave_number < 5)%nat -> 0 <= end_x_cam f -> 0 <= max_wave_time f ->
  exists bs, balloons_of f wave_number draws n = Some bs.
Proof.
  intros Lw Lx Lt. induction n as [|n [bs IH]]; cbn [balloons_of].
  - eexists. reflexivity.
  - rewrite IH. destruct (one_balloon_some f wave_number (draws n) Lw Lx Lt) as [b ->].
    eexists. reflexivity.
Qed.

Lemma waves_upto_some (f : Field) (count_draws : nat -> nat) (draws : nat -> nat -> Draws F)
  (n : nat) :
  (n <= 5)%nat -> 0 <= end_x_cam f -> 0 <= max_wave_time f ->
  exists waves, waves_upto f count_draws draws n = Some waves.
Proof.
  intros Ln Lx Lt. induction n as [|n IH]; cbn [waves_upto].
  - eexists. reflexivity.
  - destruct (IH ltac:(lia)) as [ws ->]. unfold one_wave.
    assert (exists lo hi, nth_error ballons_number_per_wave n = Some (lo, hi) /\ lo <= hi)
      as (lo & hi & -> & Lh).
    { destruct n as [|[|[|[|[|k]]]]]; try lia; cbn; eexists; eexists;
        (split; [reflexivity|lia]). }
    destruct (randint_some lo hi (count_draws n) Lh) as [c ->].
    destruct (balloons_of_some f n (draws n) (Z.to_nat c) ltac:(lia) Lx Lt) as [bs ->].
    eexists. reflexivity.
Qed.

(** X29: what [init_balloons] generates.  With a camera area that does not
    end left of 0, a wave time that is not negative and at most five waves
    it raises nothing.  It makes [max_balloons_waves] waves; wave [k] has
    between the two bounds of [ballons_number_per_wave[k]] balloons, so at
    least 5; and every balloon is unpopped, 100 x 100, placed 100 pixels
    below the camera area, appears at a time from 0 to [max_wave_time], has a
    speed within the bounds of its wave for its kind, and has type 0 exactly
    when it is not a combo balloon, type 1, 2 or 3 when it is. *)
Theorem init_balloons_waves (f : Field) (count_draws : nat -> nat)
  (draws : nat -> nat -> Draws F) :
  ((max_balloons_waves f <= 5)%nat -> 0 <= end_x_cam f -> 0 <= max_wave_time f ->
   init_balloons f count_draws draws <> None)
  /\ forall waves,
       init_balloons f count_draws draws = Some waves ->
       List.length waves = max_balloons_waves f
       /\ forall k bs, nth_error waves k = Some bs ->
                       sized k bs /\ Forall (fresh f k) bs.
Proof.
  split.
  - intros Ln Lx Lt.
    destruct (waves_upto_some f count_draws draws (max_balloons_waves f) Ln Lx Lt) as [ws E].
    unfold init_balloons. rewrite E. discriminate.
  - intros waves E. exact (waves_upto_fresh f count_draws draws _ waves E).
Qed.

(** X30: in a game whose waves were generated by [init_balloons] the first
    half of the test that closes a wave never holds: at any point of any
    play-through, a pass keeps the wave open exactly when the elapsed time is
    at most the 20 seconds of [init_balloons_game], whatever has been popped
    by then. *)
Theorem generated_wave_ends_by_clock (f : Field) (count_draws : nat -> nat)
  (draws : nat -> nat -> Draws F) (waves : list (list Balloons.Balloon))
  (start_y_cam : Z) (inputs : list (Z * list Py.Rect))
  (el : Z) (fingers : list Py.Rect) (g' : Balloons.Game) (scr : Balloons.Screen) :
  init_balloons f count_draws draws = Some waves ->
  Balloons.tick (Balloons.run (Balloons.init_balloons_game start_y_cam waves) inputs)
    el fingers = Some (g', scr) ->
  (scr = Balloons.Playing <-> el <= 20).
Proof.
  intros G T.
  destruct (waves_upto_fresh f count_draws draws _ waves G) as [_ A].
  set (g0 := Balloons.init_balloons_game start_y_cam waves) in *.
  destruct (BalloonsLoopFacts.run_sizes inputs g0 ltac:(cbn; lia)) as (S1 & W1 & T1).
  set (g := Balloons.run g0 inputs) in *.
  destruct (BalloonsLoopFacts.tick_unfold g g' el fingers scr T)
    as (wave & I & _ & _ & _ & _ & P & _).
  apply BalloonsLoopFacts.index_nat in I as [I _]; [|lia].
  assert (wave <> []) as NE.
  { apply (f_equal (fun l => nth_error l (Z.to_nat (Balloons.balloons_wave g - 1)))) in S1.
    rewrite !nth_error_map, I in S1. cbn [option_map] in S1.
    change (Balloons.waves_balloons g0) with waves in S1.
    destruct (nth_error waves (Z.to_nat (Balloons.balloons_wave g - 1))) as [bs|] eqn:Ew;
      [|discriminate].
    destruct (A _ bs Ew) as [(lo & hi & _ & B & L5) _].
    cbn [option_map] in S1. injection S1 as S1.
    intros ->. cbn in S1. lia. }
  rewrite P. change (Balloons.max_wave_time g0) with 20 in T1. rewrite T1. tauto.
Qed.

End Generation.

(** A camera area of 768 x 432 at (576, 374) on a 1920 x 1080 screen, and a
    random module that always hands out the same numbers. *)
Definition camera_field : Field := mkField 576 1344 806 20 5.

Definition same_draws : Draws Q := mkDraws (1 # 2)%Q 0 7 3 50.

Definition generated : list (list Balloons.Balloon) :=
  Eval vm_compute in
    match init_balloons camera_field (fun _ => 0%nat) (fun _ _ => same_draws) with
    | Some waves => waves
    | None => []
    end.

Definition late_pass : Balloons.Game :=
  Eval vm_compute in
    match Balloons.tick
            (Balloons.run (Balloons.init_balloons_game 374 generated) [(3, [])]) 21 [] with
    | Some (g, _) => g
    | None => Balloons.init_balloons_game 374 generated
    end.

Lemma generated_wave_ends_by_clock_witness :
  Balloons.Countdown = Balloons.Playing <-> 21 <= 20.
Proof.
  apply (@generated_wave_ends_by_clock Q Exact camera_field (fun _ => 0%nat)
           (fun _ _ => same_draws) generated 374 [(3, [])] 21 []
           late_pass Balloons.Countdown).
  - vm_compute. reflexivity.
  - vm_compute. reflexivity.
Defined.

End WavesFacts.
